(** * Exoplanet data pipeline: a shallow embedding of the four scripts

    The repository's data pipeline is four Python scripts run one after the
    other:

    - [01-extract-defaults.py]  (module [ExtractDefaults]): keeps the rows of
      the raw catalog that are default parameter sets and not controversial;
    - [02-select-and-clean.py]  (module [SelectAndClean]): parses the numeric
      columns, derives a missing separation, maps the detection method and
      classifies the planet;
    - [03-enrich-narrative.py]  (module [EnrichNarrative]): builds the planet
      objects, marks observed fields, attaches narrative and sorts;
    - [04-generate-final.py]    (module [GenerateFinal]): validates the period
      and gathers statistics.

    Python values are embedded as follows.  A [float] is a binary64 number,
    Rocq's primitive [float]; [None] is [option]'s [None]; a [csv.DictReader]
    row is a finite map from column names to cells; a raised exception is the
    [Raise] outcome of the [result] monad.  What the scripts take from the
    Python runtime and the C library (reading a float from text, printing
    one, [pow], lower-casing) is gathered in the class [Runtime]: the
    development is parametric in it, and [RefRuntime] gives one executable
    instance used to evaluate the scripts on concrete inputs. *)

From Stdlib Require Import ZArith List String Ascii Bool Lia Floats.
From Stdlib Require Import Permutation Sorted.
From Stdlib Require Import DecimalString.
From stdpp Require Import gmap strings list fin_maps.

Set Warnings "-inexact-float,-clear-no-such-hyp".

Open Scope string_scope.
Open Scope list_scope.

(** ** Python values and exceptions *)

Module Py.

(** The exceptions the scripts can raise. *)
Inductive exn : Type :=
| KeyError (key : string)
| ValueError
| OverflowError
| ZeroDivisionError
| TypeError.

(** The outcome of running a piece of Python: a value, or a raised exception. *)
Inductive result (A : Type) : Type :=
| Ok (a : A)
| Raise (e : exn).
Arguments Ok {A} a.
Arguments Raise {A} e.

#[export] Instance result_ret : MRet result := fun _ a => Ok a.
#[export] Instance result_bind : MBind result := fun _ _ f m =>
  match m with
  | Ok a => f a
  | Raise e => Raise e
  end.

(** A number that [**] can return: a float, or a complex number (the power of a
    negative float with a fractional exponent). *)
Inductive pynum : Type :=
| PFloat (f : float)
| PComplex (re im : float).

(** What the scripts use of the Python runtime and of the C library. *)
Class Runtime : Type := {
  (** [float(s)] on a string; [None] stands for [ValueError]. *)
  float_of_string : string -> option float;
  (** [repr(f)], which is how [csv.writer] and [json.dump] print a float. *)
  str_of_float : float -> string;
  (** [str(z)] on a complex number, given by its two parts. *)
  str_of_complex : float -> float -> string;
  (** C's [pow(x, y)], called by CPython only with [x] finite, positive and
      not 1, and [y] finite and not zero. *)
  libm_pow : float -> float -> float;
  (** CPython's complex power [(re + im j) ** w] for a real exponent [w]. *)
  complex_pow : float -> float -> float -> result (float * float);
  (** [str.lower()]. *)
  str_lower : string -> string;
}.

(** [bool(f)] for a float: [f != 0.0] (so a NaN is true). *)
Definition float_truthy (f : float) : bool := negb (f =? 0)%float.

(** [bool(x)] for [x] a float or [None]. *)
Definition opt_truthy (x : option float) : bool :=
  match x with
  | None => false
  | Some f => float_truthy f
  end.

(** [bool(z)] for a float or complex number. *)
Definition num_truthy (v : pynum) : bool :=
  match v with
  | PFloat f => float_truthy f
  | PComplex re im => negb ((re =? 0)%float && (im =? 0)%float)
  end.

(** [bool(s)] for a string or [None]. *)
Definition str_truthy (s : option string) : bool :=
  match s with
  | None | Some "" => false
  | Some _ => true
  end.

(** [w == floor(w)] for a finite [w]. *)
Definition float_is_integer (w : float) : bool :=
  match Prim2SF w with
  | S754_zero _ => true
  | S754_finite _ m e =>
      if (0 <=? e)%Z then true else (Z.pos m mod 2 ^ (- e) =? 0)%Z
  | _ => false
  end.

(** CPython's [DOUBLE_IS_ODD_INTEGER(w)]: [fmod(fabs(w), 2.0) == 1.0]. *)
Definition float_is_odd_integer (w : float) : bool :=
  match Prim2SF w with
  | S754_finite _ m e =>
      if (0 <? e)%Z then false
      else (Z.pos m mod 2 ^ (- e) =? 0)%Z && Z.odd (Z.pos m / 2 ^ (- e))
  | _ => false
  end.

(** The integer part of a finite float, towards zero. *)
Definition float_trunc (f : float) : Z :=
  match Prim2SF f with
  | S754_finite s m e =>
      let a := if (0 <=? e)%Z then (Z.pos m * 2 ^ e)%Z else (Z.pos m / 2 ^ (- e))%Z in
      if s then (- a)%Z else a
  | _ => 0%Z
  end.

(** [int(f)]: a NaN is a [ValueError], an infinity an [OverflowError]. *)
Definition int_of_float (f : float) : result Z :=
  if is_nan f then Raise ValueError
  else if is_infinity f then Raise OverflowError
  else Ok (float_trunc f).

Section WithRuntime.
Context {RT : Runtime}.

(** [float(s)]. *)
Definition py_float (s : string) : result float :=
  match float_of_string s with
  | Some f => Ok f
  | None => Raise ValueError
  end.

(** [str(v)] for a float or complex number. *)
Definition str_of_num (v : pynum) : string :=
  match v with
  | PFloat f => str_of_float f
  | PComplex re im => str_of_complex re im
  end.

(** [iv ** iw] on floats, CPython's [float_pow]: the special cases are
    decided before the C library is asked; a negative base with a fractional
    exponent gives a complex number; an infinite result of [pow] on finite
    arguments is an [OverflowError]. *)
Definition float_pow (iv iw : float) : result pynum :=
  if (iw =? 0)%float then Ok (PFloat 1)
  else if is_nan iv then Ok (PFloat iv)
  else if is_nan iw then Ok (PFloat (if (iv =? 1)%float then 1%float else iw))
  else if is_infinity iw then
    let av := abs iv in
    if (av =? 1)%float then Ok (PFloat 1)
    else if Bool.eqb (0 <? iw)%float (1 <? av)%float then Ok (PFloat (abs iw))
    else Ok (PFloat 0)
  else if is_infinity iv then
    let iw_is_odd := float_is_odd_integer iw in
    if (0 <? iw)%float then Ok (PFloat (if iw_is_odd then iv else abs iv))
    else Ok (PFloat (if iw_is_odd then (if (iv <? 0)%float then (-0)%float else 0%float)
                     else 0%float))
  else if (iv =? 0)%float then
    if (iw <? 0)%float then Raise ZeroDivisionError
    else Ok (PFloat (if float_is_odd_integer iw then iv else 0%float))
  else if (iv <? 0)%float && negb (float_is_integer iw) then
    z ← complex_pow iv 0 iw; Ok (PComplex z.1 z.2)
  else
    let negate_result := (iv <? 0)%float && float_is_odd_integer iw in
    let av := abs iv in
    if (av =? 1)%float then Ok (PFloat (if negate_result then (-1)%float else 1%float))
    else
      let ix := libm_pow av iw in
      if is_infinity ix then Raise OverflowError
      else Ok (PFloat (if negate_result then (- ix)%float else ix)).

(** [v ** w] for [v] a float or complex number and [w] a float. *)
Definition num_pow (v : pynum) (w : float) : result pynum :=
  match v with
  | PFloat f => float_pow f w
  | PComplex re im => z ← complex_pow re im w; Ok (PComplex z.1 z.2)
  end.

(** [v * f] for [v] a float or complex number and [f] a float: a complex
    [v] is multiplied by the complex number [f + 0j]. *)
Definition num_mul (v : pynum) (f : float) : pynum :=
  match v with
  | PFloat x => PFloat (x * f)
  | PComplex re im => PComplex (re * f - im * 0) (re * 0 + im * f)
  end.

End WithRuntime.

(** [k in s] for strings: [k] occurs in [s] as a substring. *)
Fixpoint str_contains (k s : string) : bool :=
  String.prefix k s ||
  match s with
  | EmptyString => false
  | String _ s' => str_contains k s'
  end.

(** [s.replace(c, by)] for a one-character [c]. *)
Fixpoint str_replace (c : ascii) (by_ : string) (s : string) : string :=
  match s with
  | EmptyString => EmptyString
  | String a s' =>
      if Ascii.eqb a c then String.append by_ (str_replace c by_ s')
      else String a (str_replace c by_ s')
  end.

(** A [collections.Counter]: [c[k] += 1]. *)
Definition counter_incr `{Countable K} (k : K) (c : gmap K nat) : gmap K nat :=
  <[k := S (default 0 (c !! k))]> c.

(** [if b: n += 1]. *)
Definition bump (b : bool) (n : nat) : nat := if b then S n else n.

(** [l.sort(key=key)]: Python's sort is stable and compares keys with [<]
    only.  An element is put in front of the first later element that is
    not smaller than it. *)
Fixpoint sort_insert {A K : Type} (lt : K -> K -> bool) (key : A -> K)
  (x : A) (l : list A) : list A :=
  match l with
  | [] => [x]
  | y :: l' =>
      if lt (key y) (key x) then y :: sort_insert lt key x l'
      else x :: y :: l'
  end.

Definition py_sort {A K : Type} (lt : K -> K -> bool) (key : A -> K)
  (l : list A) : list A :=
  foldr (sort_insert lt key) [] l.

End Py.
Export Py.

(** The value of an outcome, or [d] when it is an exception. *)
Definition value_or {A : Type} (d : A) (r : result A) : A :=
  match r with
  | Ok a => a
  | Raise _ => d
  end.

(** A [for] loop over rows whose body may raise: the first exception ends
    the script. *)
Fixpoint for_rows {S R : Type} (body : S -> R -> result S) (st : S) (rows : list R)
  : result S :=
  match rows with
  | [] => Ok st
  | row :: rest => st' ← body st row; for_rows body st' rest
  end.

(** ** Python's number formatting

    What [04-generate-final.py] uses to write [STATS.md]: [str] of an int,
    the format [{:,}] of an int, true division of ints, and the format
    [{:.1f}] of a float.  CPython computes all four itself, in the same way
    on every platform. *)

Module PyFormat.

Local Open Scope Z_scope.

(** [str(n)] for an int. *)
Definition str_of_int (n : Z) : string :=
  DecimalString.NilZero.string_of_int (Z.to_int n).

(** Digits, given last digit first, with a comma after every third one
    that has a digit after it; [k] counts the digits since the last
    comma. *)
Fixpoint commas_rev (l : list ascii) (k : nat) : list ascii :=
  match l with
  | [] => []
  | d :: l' =>
      match k with
      | 3%nat => ","%char :: d :: commas_rev l' 1
      | _ => d :: commas_rev l' (S k)
      end
  end.

(** [format(n, ',')]: the digits in groups of three. *)
Definition format_commas (n : Z) : string :=
  String.append (if n <? 0 then "-" else "")
    (string_of_list_ascii
       (rev (commas_rev (rev (list_ascii_of_string (str_of_int (Z.abs n)))) 0))).

(** [a / b] for ints, CPython's [long_true_divide]: the float nearest to
    the quotient (ties to even); dividing by zero is a
    [ZeroDivisionError], and a quotient that would round to [2^1024] or
    more an [OverflowError]. *)
Definition int_true_div (a b : Z) : result float :=
  if b =? 0 then Raise ZeroDivisionError
  else if (2 ^ 1024 - 2 ^ 970) * Z.abs b <=? Z.abs a then Raise OverflowError
  else
    let negative := xorb (a <? 0) (b <? 0) in
    match Z.abs a with
    | Z.pos p =>
        Ok (SF2Prim (SFdiv prec emax (S754_finite negative p 0)
                                     (S754_finite false (Z.to_pos (Z.abs b)) 0)))
    | _ => Ok (if negative then (-0)%float else 0%float)
    end.

(** [num / den] rounded to the nearest integer, ties to even, for
    [num >= 0] and [den > 0]. *)
Definition round_half_even (num den : Z) : Z :=
  let q := num / den in
  let r := num mod den in
  if 2 * r <? den then q
  else if den <? 2 * r then q + 1
  else if Z.even q then q else q + 1.

(** [format(x, '.1f')]: one digit after the point, correctly rounded
    (ties to even on the exact value of [x]). *)
Definition format_f1 (x : float) : string :=
  match Prim2SF x with
  | S754_nan => "nan"
  | S754_infinity s => if s then "-inf" else "inf"
  | S754_zero s => if s then "-0.0" else "0.0"
  | S754_finite s m e =>
      let tenths :=
        if 0 <=? e then Z.pos m * 2 ^ e * 10
        else round_half_even (Z.pos m * 10) (2 ^ (- e)) in
      String.append (if s then "-" else "")
        (String.append (str_of_int (tenths / 10))
           (String.append "." (str_of_int (tenths mod 10))))
  end.

End PyFormat.

(** ** Python's [Counter], with its order

    A [Counter] is a dictionary, and a dictionary keeps its keys in the
    order in which they were first set.  [most_common] depends on that
    order, so the report of step 4 is modelled on counters kept as lists. *)

Module PyCounter.

(** [c[k] += n]. *)
Fixpoint ordered_add {K : Type} `{EqDecision K} (k : K) (n : nat) (c : list (K * nat))
  : list (K * nat) :=
  match c with
  | [] => [(k, n)]
  | (k', m) :: c' =>
      if decide (k = k') then (k', (m + n)%nat) :: c'
      else (k', m) :: ordered_add k n c'
  end.

(** [c[k]]: the count of [k], zero when [k] was never counted. *)
Fixpoint count_of {K : Type} `{EqDecision K} (k : K) (c : list (K * nat)) : nat :=
  match c with
  | [] => 0
  | (k', m) :: c' => if decide (k = k') then m else count_of k c'
  end.

(** [c.most_common()]: [sorted(c.items(), key=itemgetter(1), reverse=True)],
    by falling count, keys of equal count in their order in [c]. *)
Definition most_common {K : Type} (c : list (K * nat)) : list (K * nat) :=
  py_sort (fun a b : nat => (b <? a)%nat) snd c.

(** [c.most_common(n)]: the first [n] of them. *)
Definition most_common_n {K : Type} (n : nat) (c : list (K * nat)) : list (K * nat) :=
  firstn n (most_common c).

End PyCounter.

(** ** Step 1: [01-extract-defaults.py]

    A row is what [csv.DictReader] yields for a line that has as many cells
    as the header: a map from column name to cell text.  [row.get(k)] is the
    map's lookup, [row[k]] raises [KeyError] when the column is missing. *)

Module ExtractDefaults.
Section WithRuntime.
Context {RT : Runtime}.

(** The script's counters (lines 33-38) and the rows handed to
    [writer.writerow], in the order written. *)
Record state : Type := {
  rows_total : nat;
  rows_default : nat;
  rows_output : nat;
  planet_names : gset string;
  discovery_methods : gmap string nat;
  discovery_years : list Z;
  written : list (gmap string string);
}.

Definition initial : state :=
  {| rows_total := 0; rows_default := 0; rows_output := 0;
     planet_names := ∅; discovery_methods := ∅; discovery_years := [];
     written := [] |}.

(** Lines 74-79: [year = row.get('disc_year')]; if it is not empty, append
    [int(float(year))], passing over a [ValueError] only. *)
Definition track_year (row : gmap string string) (years : list Z) : result (list Z) :=
  if str_truthy (row !! "disc_year") then
    match f ← py_float (default "" (row !! "disc_year")); int_of_float f with
    | Ok y => Ok (years ++ [y])
    | Raise ValueError => Ok years
    | Raise e => Raise e
    end
  else Ok years.

(** The body of the loop of lines 55-79. *)
Definition filter_row (st : state) (row : gmap string string) : result state :=
  let total := S (rows_total st) in
  (* Filter: default_flag = 1 *)
  if negb (bool_decide (row !! "default_flag" = Some "1")) then
    Ok {| rows_total := total; rows_default := rows_default st;
          rows_output := rows_output st; planet_names := planet_names st;
          discovery_methods := discovery_methods st;
          discovery_years := discovery_years st; written := written st |}
  else
  let defaults := S (rows_default st) in
  (* Filter: not controversial *)
  if bool_decide (row !! "pl_controv_flag" = Some "1") then
    Ok {| rows_total := total; rows_default := defaults;
          rows_output := rows_output st; planet_names := planet_names st;
          discovery_methods := discovery_methods st;
          discovery_years := discovery_years st; written := written st |}
  else
  (* Write row *)
  let out := written st ++ [row] in
  let output := S (rows_output st) in
  (* Track stats *)
  match row !! "pl_name" with
  | None => Raise (KeyError "pl_name")
  | Some pl_name =>
      years ← track_year row (discovery_years st);
      Ok {| rows_total := total; rows_default := defaults; rows_output := output;
            planet_names := {[pl_name]} ∪ planet_names st;
            discovery_methods :=
              counter_incr (default "Unknown" (row !! "discoverymethod"))
                           (discovery_methods st);
            discovery_years := years; written := out |}
  end.

(** Lines 87-89: the duplicate check, which only prints. *)
Inductive message : Type :=
| Warning_row_count (rows unique : nat).

Definition duplicate_check (st : state) : list message :=
  if negb (rows_output st =? size (planet_names st))%nat
  then [Warning_row_count (rows_output st) (size (planet_names st))]
  else [].

(** The script on the rows of the raw catalog: the final counters, the rows
    written to [step1-defaults-only.csv], and the warnings printed. *)
Definition extract_defaults (rows : list (gmap string string))
  : result (state * list message) :=
  st ← for_rows filter_row initial rows;
  Ok (st, duplicate_check st).

End WithRuntime.
End ExtractDefaults.

(** ** Step 1 on the lines of the file

    [ExtractDefaults] takes a row as a map from column name to cell text,
    which is what [csv.DictReader] yields for a line with as many cells as
    the header.  For any other line the reader's row has more in it, and the
    loop of lines 55-79 meets it: this module takes the rows as the reader
    makes them from the header and the lines of cells that [csv.reader]
    yields. *)

Module ExtractDefaultsCsv.
Section WithRuntime.
Context {RT : Runtime}.

(** A row of [csv.DictReader]: under each name of the header a cell, or
    [None] (the reader's [restval]) where the line has no cell for it; and,
    for a line with more cells than the header has names, the list of the
    further cells, which the reader puts under the key [None] (its
    [restkey]). *)
Record reader_row : Type := {
  cells : gmap string (option string);
  restkey : option (list string);
}.

(** [dict(zip(fieldnames, line))], a later cell replacing an earlier one of
    the same name, and then [restval] under the names that are left. *)
Fixpoint zip_cells (fieldnames line : list string) (d : gmap string (option string))
  : gmap string (option string) :=
  match fieldnames, line with
  | [], _ => d
  | k :: ks, [] => zip_cells ks [] (<[k := None]> d)
  | k :: ks, c :: cs => zip_cells ks cs (<[k := Some c]> d)
  end.

(** [DictReader.__next__] on a line that is not blank. *)
Definition next_row (fieldnames line : list string) : reader_row :=
  {| cells := zip_cells fieldnames line ∅;
     restkey := if (length fieldnames <? length line)%nat
                then Some (drop (length fieldnames) line)
                else None |}.

(** The rows of [csv.DictReader]: it passes over the blank lines. *)
Definition DictReader (fieldnames : list string) (lines : list (list string))
  : list reader_row :=
  map (next_row fieldnames)
      (List.filter (fun line => negb (bool_decide (line = []))) lines).

(** [row.get(k)]: the cell, or [None] when the header has no such name or
    the line no such cell. *)
Definition get (row : reader_row) (k : string) : option string :=
  match cells row !! k with
  | Some cell => cell
  | None => None
  end.

(** [DictWriter.writerow(row)] with the reader's field names: a key of the
    row that is no field name is refused with a [ValueError]
    ([extrasaction='raise']). *)
Definition writerow (fieldnames : list string) (row : reader_row) : result unit :=
  if bool_decide (restkey row = None)
     && bool_decide (dom (cells row) ⊆ list_to_set (C := gset string) fieldnames)
  then Ok tt
  else Raise ValueError.

(** The script's counters (lines 33-38) and the rows written.  A name and a
    method can be [None], the cell missing from a short line. *)
Record state : Type := {
  rows_total : nat;
  rows_default : nat;
  rows_output : nat;
  planet_names : gset (option string);
  discovery_methods : gmap (option string) nat;
  discovery_years : list Z;
  written : list reader_row;
}.

Definition initial : state :=
  {| rows_total := 0; rows_default := 0; rows_output := 0;
     planet_names := ∅; discovery_methods := ∅; discovery_years := [];
     written := [] |}.

(** Lines 74-79, for [year = row.get('disc_year')]. *)
Definition track_year (year : option string) (years : list Z) : result (list Z) :=
  if str_truthy year then
    match f ← py_float (default "" year); int_of_float f with
    | Ok y => Ok (years ++ [y])
    | Raise ValueError => Ok years
    | Raise e => Raise e
    end
  else Ok years.

(** The body of the loop of lines 55-79. *)
Definition filter_row (fieldnames : list string) (st : state) (row : reader_row)
  : result state :=
  let total := S (rows_total st) in
  (* Filter: default_flag = 1 *)
  if negb (bool_decide (get row "default_flag" = Some "1")) then
    Ok {| rows_total := total; rows_default := rows_default st;
          rows_output := rows_output st; planet_names := planet_names st;
          discovery_methods := discovery_methods st;
          discovery_years := discovery_years st; written := written st |}
  else
  let defaults := S (rows_default st) in
  (* Filter: not controversial *)
  if bool_decide (get row "pl_controv_flag" = Some "1") then
    Ok {| rows_total := total; rows_default := defaults;
          rows_output := rows_output st; planet_names := planet_names st;
          discovery_methods := discovery_methods st;
          discovery_years := discovery_years st; written := written st |}
  else
  (* Write row *)
  _ ← writerow fieldnames row;
  let out := written st ++ [row] in
  let output := S (rows_output st) in
  (* Track stats *)
  match cells row !! "pl_name" with
  | None => Raise (KeyError "pl_name")
  | Some pl_name =>
      years ← track_year (get row "disc_year") (discovery_years st);
      Ok {| rows_total := total; rows_default := defaults; rows_output := output;
            planet_names := {[pl_name]} ∪ planet_names st;
            discovery_methods :=
              counter_incr (default (Some "Unknown") (cells row !! "discoverymethod"))
                           (discovery_methods st);
            discovery_years := years; written := out |}
  end.

(** Lines 87-89: the duplicate check, which only prints. *)
Definition duplicate_check (st : state) : list ExtractDefaults.message :=
  if negb (rows_output st =? size (planet_names st))%nat
  then [ExtractDefaults.Warning_row_count (rows_output st) (size (planet_names st))]
  else [].

(** The script on the header and the lines of the raw catalog. *)
Definition extract_defaults (fieldnames : list string) (lines : list (list string))
  : result (state * list ExtractDefaults.message) :=
  st ← for_rows (filter_row fieldnames) initial (DictReader fieldnames lines);
  Ok (st, duplicate_check st).

End WithRuntime.
End ExtractDefaultsCsv.

(** ** Step 2: [02-select-and-clean.py] *)

Module SelectAndClean.

(** Column mapping: archive name -> output name (lines 29-51). *)
Definition COLUMN_MAP : list (string * string) :=
  [ ("pl_name", "name"); ("hostname", "hostStar"); ("pl_orbper", "period");
    ("pl_orbsmax", "separation"); ("pl_rade", "radius"); ("pl_bmasse", "mass");
    ("pl_bmassprov", "massProvenance"); ("discoverymethod", "detectionMethod");
    ("disc_year", "discoveryYear"); ("disc_facility", "facility");
    ("pl_eqt", "temperature"); ("pl_dens", "density");
    ("pl_orbeccen", "eccentricity"); ("pl_insol", "insolation");
    ("st_spectype", "starSpectralType"); ("st_teff", "starTemperature");
    ("st_rad", "starRadius"); ("st_mass", "starMass"); ("sy_dist", "distance");
    ("ra", "ra"); ("dec", "dec") ].

(** Detection method mapping (lines 55-67). *)
Definition DETECTION_METHOD_MAP : gmap string string :=
  list_to_map
  [ ("Transit", "transit");
    ("Radial Velocity", "radial-velocity");
    ("Microlensing", "microlensing");
    ("Imaging", "direct-imaging");
    ("Astrometry", "astrometry");
    ("Transit Timing Variations", "transit-other");
    ("Eclipse Timing Variations", "other");
    ("Pulsar Timing", "other");
    ("Orbital Brightness Modulation", "other");
    ("Pulsation Timing Variations", "other");
    ("Disk Kinematics", "other") ].

(** Kepler/K2 facilities (line 70). *)
Definition KEPLER_FACILITIES : list string := ["Kepler"; "K2"; "Kepler/K2"].

(** The header of [step2-cleaned.csv] (line 168). *)
Definition output_fields : list string :=
  map snd COLUMN_MAP ++ ["planetType"].

(** Lines 93-101.  Either argument may be [None]. *)
Definition map_detection_method (method facility : option string) : string :=
  if bool_decide (method = Some "Transit") then
    (* Check if Kepler/K2 *)
    if str_truthy facility
       && existsb (fun k => str_contains k (default "" facility)) KEPLER_FACILITIES
    then "transit-kepler"
    else "transit-other"
  else
    match method with
    | Some m => default "other" (DETECTION_METHOD_MAP !! m)
    | None => "other"
    end.

(** [v < c], [v > c], [v >= c] for [v] a float or complex number and [c] a
    real constant: ordering a complex number is a [TypeError]. *)
Definition num_lt (v : pynum) (c : float) : result bool :=
  match v with
  | PFloat f => Ok (f <? c)%float
  | PComplex _ _ => Raise TypeError
  end.

Definition num_gt (v : pynum) (c : float) : result bool :=
  match v with
  | PFloat f => Ok (c <? f)%float
  | PComplex _ _ => Raise TypeError
  end.

Definition num_ge (v : pynum) (c : float) : result bool :=
  match v with
  | PFloat f => Ok (c <=? f)%float
  | PComplex _ _ => Raise TypeError
  end.

(** Python's [a and b] on conditions: [b] is evaluated only when [a] is true. *)
Definition and_then (a : bool) (b : result bool) : result bool :=
  if a then b else Ok false.

(** [period and period < c]. *)
Definition period_below (period : option float) (c : float) : bool :=
  match period with
  | Some p => float_truthy p && (p <? c)%float
  | None => false
  end.

Section WithRuntime.
Context {RT : Runtime}.

(** Lines 73-81: safely parse a float, returning [None] for empty/invalid
    values. *)
Definition parse_float (value : option string) : option float :=
  match value with
  | None => None
  | Some s =>
      if String.eqb s "" || String.eqb s "nan" then None
      else
        match py_float s with
        | Ok f => if is_nan f then None else Some f
        | Raise _ => None
        end
  end.

(** Lines 84-90: semi-major axis from period using Kepler's third law. *)
Definition calculate_separation (period_days : option float) (star_mass_solar : float)
  : result (option pynum) :=
  match period_days with
  | None => Ok None
  | Some p =>
      (* a^3 = (P/365.25)^2 * M_star (in AU, days, solar masses) *)
      let period_years := (p / 365.25)%float in
      sq ← float_pow period_years 2;
      a ← num_pow (num_mul sq star_mass_solar) (1 / 3)%float;
      Ok (Some a)
  end.

(** Lines 104-152: classify planet type based on mass, radius, and period. *)
Definition classify_planet (mass radius period : option float) : result string :=
  (* If we have neither mass nor radius, can't classify *)
  if bool_decide (mass = None) && bool_decide (radius = None) then Ok "unknown" else
  (* Use mass if available, otherwise estimate from radius *)
  let m : option pynum := PFloat <$> mass in
  r ← (if opt_truthy radius then Ok (PFloat <$> radius)
       else
         match mass with
         | Some ms =>
             if float_truthy ms && (ms <? 10)%float
             then v ← float_pow ms 0.28; Ok (Some v)
             else Ok None
         | None => Ok None
         end);
  m ← match m, r with
      | None, Some rv =>
          (* Estimate mass from radius (rough) *)
          small ← num_lt rv 1.5;
          if small : bool then v ← num_pow rv 3.3; Ok (Some v)
          else v ← num_pow rv 2.1; Ok (Some (num_mul v 2))
      | _, _ => Ok m
      end;
  match m with
  | None => Ok "unknown"
  | Some m =>
      (* Ultra-short period: P < 1 day and small *)
      usp ← and_then (period_below period 1) (num_lt m 10);
      if usp : bool then Ok "ultra-short-period" else
      (* Hot Jupiter: massive + short period *)
      massive ← num_gt m 100;
      if massive && period_below period 10 then Ok "hot-jupiter" else
      (* Cold Jupiter: massive + long period *)
      if massive : bool then Ok "cold-jupiter" else
      (* Neptune-like: 10-50 Earth masses *)
      ge10 ← num_ge m 10;
      lt50 ← and_then ge10 (num_lt m 50);
      if lt50 : bool then Ok "neptune-like" else
      (* Sub-Neptune: by radius 2-4 Earth radii *)
      sub ← match r with
            | Some rv =>
                if num_truthy rv
                then ge2 ← num_ge rv 2; and_then ge2 (num_lt rv 4)
                else Ok false
            | None => Ok false
            end;
      if sub : bool then Ok "sub-neptune" else
      (* Super-Earth: 2-10 Earth masses, smaller radius *)
      ge2 ← num_ge m 2;
      lt10 ← and_then ge2 (num_lt m 10);
      if lt10 : bool then Ok "super-earth" else
      (* Rocky: < 2 Earth masses *)
      lt2 ← num_lt m 2;
      if lt2 : bool then Ok "rocky" else
      Ok "sub-neptune"  (* Default *)
  end.


(** The [out_row] dictionary of lines 215-238, one field per output column.
    A numeric column holds a number or [None]. *)
Record clean_record : Type := {
  name : string;
  hostStar : string;
  period : option float;
  separation : option pynum;
  radius : option float;
  mass : option float;
  massProvenance : string;
  detectionMethod : string;
  discoveryYear : string;
  facility : string;
  temperature : option float;
  density : option float;
  eccentricity : option float;
  insolation : option float;
  starSpectralType : string;
  starTemperature : option float;
  starRadius : option float;
  starMass : option float;
  distance : option float;
  ra : option float;
  dec : option float;
  planetType : string;
}.

(** The [stats] dictionary (lines 158-164). *)
Record stats : Type := {
  total : nat;
  missing_period : nat;
  missing_mass : nat;
  missing_radius : nat;
  calculated_separation : nat;
}.

(** What the loop of lines 177-240 carries: the counters and the rows handed
    to [writer.writerow], in the order written. *)
Record state : Type := {
  st_stats : stats;
  detection_methods : gmap string nat;
  planet_types : gmap string nat;
  written : list clean_record;
}.

Definition initial : state :=
  {| st_stats := {| total := 0; missing_period := 0; missing_mass := 0;
                    missing_radius := 0; calculated_separation := 0 |};
     detection_methods := ∅; planet_types := ∅; written := [] |}.

(** [x or 1.0] for [x] a float or [None]. *)
Definition or_one (x : option float) : float :=
  match x with
  | Some f => if float_truthy f then f else 1%float
  | None => 1%float
  end.

(** The body of the loop of lines 177-240. *)
Definition clean_row (st : state) (row : gmap string string) : result state :=
  let s := st_stats st in
  let total' := S (total s) in
  (* Parse numeric fields *)
  let period := parse_float (row !! "pl_orbper") in
  let mass := parse_float (row !! "pl_bmasse") in
  let radius := parse_float (row !! "pl_rade") in
  let separation := parse_float (row !! "pl_orbsmax") in
  let star_mass := parse_float (row !! "st_mass") in
  (* Skip planets without period (can't visualize) *)
  if bool_decide (period = None) then
    Ok {| st_stats := {| total := total'; missing_period := S (missing_period s);
                         missing_mass := missing_mass s;
                         missing_radius := missing_radius s;
                         calculated_separation := calculated_separation s |};
          detection_methods := detection_methods st;
          planet_types := planet_types st; written := written st |}
  else
  (* Calculate separation if missing *)
  sep ← match separation with
        | None => calculate_separation period (or_one star_mass)
        | Some a => Ok (Some (PFloat a))
        end;
  let calculated' :=
    bump (bool_decide (separation = None)
          && match sep with Some a => num_truthy a | None => false end)
         (calculated_separation s) in
  let missing_mass' := bump (bool_decide (mass = None)) (missing_mass s) in
  let missing_radius' := bump (bool_decide (radius = None)) (missing_radius s) in
  (* Map detection method *)
  let method :=
    map_detection_method (Some (default "" (row !! "discoverymethod")))
                         (Some (default "" (row !! "disc_facility"))) in
  (* Classify planet type *)
  planet_type ← classify_planet mass radius period;
  (* Build output row *)
  let out_row :=
    {| name := default "" (row !! "pl_name");
       hostStar := default "" (row !! "hostname");
       period := period;
       separation := sep;
       radius := radius;
       mass := mass;
       massProvenance := default "" (row !! "pl_bmassprov");
       detectionMethod := method;
       discoveryYear := default "" (row !! "disc_year");
       facility := default "" (row !! "disc_facility");
       temperature := parse_float (row !! "pl_eqt");
       density := parse_float (row !! "pl_dens");
       eccentricity := parse_float (row !! "pl_orbeccen");
       insolation := parse_float (row !! "pl_insol");
       starSpectralType := default "" (row !! "st_spectype");
       starTemperature := parse_float (row !! "st_teff");
       starRadius := parse_float (row !! "st_rad");
       starMass := star_mass;
       distance := parse_float (row !! "sy_dist");
       ra := parse_float (row !! "ra");
       dec := parse_float (row !! "dec");
       planetType := planet_type |} in
  Ok {| st_stats := {| total := total'; missing_period := missing_period s;
                       missing_mass := missing_mass';
                       missing_radius := missing_radius';
                       calculated_separation := calculated' |};
        detection_methods := counter_incr method (detection_methods st);
        planet_types := counter_incr planet_type (planet_types st);
        written := written st ++ [out_row] |}.

(** The script on the rows of [step1-defaults-only.csv]. *)
Definition select_and_clean (rows : list (gmap string string)) : result state :=
  for_rows clean_row initial rows.

(** A cell as [csv.writer] writes it: [None] as the empty text, a number by
    [str]. *)
Definition float_cell (x : option float) : string :=
  match x with
  | None => ""
  | Some f => str_of_float f
  end.

Definition num_cell (x : option pynum) : string :=
  match x with
  | None => ""
  | Some v => str_of_num v
  end.

(** The row of [step2-cleaned.csv] written for [out_row], as
    [csv.DictReader] reads it back in step 3. *)
Definition csv_row (c : clean_record) : gmap string string :=
  list_to_map
  [ ("name", name c); ("hostStar", hostStar c);
    ("period", float_cell (period c)); ("separation", num_cell (separation c));
    ("radius", float_cell (radius c)); ("mass", float_cell (mass c));
    ("massProvenance", massProvenance c); ("detectionMethod", detectionMethod c);
    ("discoveryYear", discoveryYear c); ("facility", facility c);
    ("temperature", float_cell (temperature c)); ("density", float_cell (density c));
    ("eccentricity", float_cell (eccentricity c));
    ("insolation", float_cell (insolation c));
    ("starSpectralType", starSpectralType c);
    ("starTemperature", float_cell (starTemperature c));
    ("starRadius", float_cell (starRadius c)); ("starMass", float_cell (starMass c));
    ("distance", float_cell (distance c)); ("ra", float_cell (ra c));
    ("dec", float_cell (dec c)); ("planetType", planetType c) ].

End WithRuntime.
End SelectAndClean.

(** ** Step 3: [03-enrich-narrative.py] *)

Module EnrichNarrative.

(** The second argument of [parse_value]. *)
Inductive field_type : Type := FString | FFloat | FInt.

Definition py_type (t : field_type) : Type :=
  match t with
  | FString => string
  | FFloat => float
  | FInt => Z
  end.

(** Field types for parsing (lines 53-69). *)
Definition FIELD_TYPES : list (string * field_type) :=
  [ ("period", FFloat); ("separation", FFloat); ("radius", FFloat); ("mass", FFloat);
    ("discoveryYear", FInt); ("temperature", FFloat); ("density", FFloat);
    ("eccentricity", FFloat); ("insolation", FFloat); ("starTemperature", FFloat);
    ("starRadius", FFloat); ("starMass", FFloat); ("distance", FFloat);
    ("ra", FFloat); ("dec", FFloat) ].

(** The string fields of lines 108-109. *)
Definition STRING_FIELDS : list string :=
  ["massProvenance"; "detectionMethod"; "facility"; "starSpectralType"; "planetType"].

(** The [_observed] dictionary (lines 114-120). *)
Record observed : Type := {
  obs_period : bool;
  obs_mass : bool;
  obs_radius : bool;
  obs_temperature : bool;
  obs_separation : bool;
}.

(** An entry of [notable-planets.json]: each key may be missing. *)
Record narrative_entry : Type := {
  entry_isNotable : option bool;
  entry_notableReason : option string;
  entry_description : option string;
  entry_sources : option (list string);
}.

(** The [_narrative] dictionary (lines 126-131). *)
Record narrative : Type := {
  isNotable : bool;
  notableReason : option string;
  description : option string;
  sources : list string;
}.

(** The planet object of lines 95-133.  A field holds [None] when the
    object has [None] under that key, or has no such key: every later read
    is a [.get], which does not tell the two apart. *)
Record planet : Type := {
  id : string;
  name : string;
  hostStar : string;
  isSolarSystem : bool;
  period : option float;
  separation : option float;
  radius : option float;
  mass : option float;
  discoveryYear : option Z;
  temperature : option float;
  density : option float;
  eccentricity : option float;
  insolation : option float;
  starTemperature : option float;
  starRadius : option float;
  starMass : option float;
  distance : option float;
  ra : option float;
  dec : option float;
  massProvenance : option string;
  detectionMethod : option string;
  facility : option string;
  starSpectralType : option string;
  planetType : option string;
  _observed : observed;
  _narrative : option narrative;
}.

(** The sort key of line 138: [(p.get('discoveryYear') or 9999, p['name'])]. *)
Definition sort_key (p : planet) : Z * string :=
  (match discoveryYear p with
   | Some y => if (y =? 0)%Z then 9999%Z else y
   | None => 9999%Z
   end,
   name p).

(** [a < b] on such tuples: the first components decide unless they are
    equal; strings compare by code point. *)
Definition key_lt (a b : Z * string) : bool :=
  if (a.1 =? b.1)%Z then String.ltb a.2 b.2 else (a.1 <? b.1)%Z.

Section WithRuntime.
Context {RT : Runtime}.

(** Lines 30-44: parse a CSV value to the appropriate type. *)
Definition parse_value (value : option string) (t : field_type)
  : result (option (py_type t)) :=
  match value with
  | None => Ok None
  | Some s =>
      if String.eqb s "" || String.eqb s "None" then Ok None
      else
        match t return result (option (py_type t)) with
        | FFloat =>
            match py_float s with
            | Ok f => Ok (Some f)
            | Raise ValueError | Raise TypeError => Ok None
            | Raise e => Raise e
            end
        | FInt =>
            match f ← py_float s; int_of_float f with
            | Ok z => Ok (Some z)
            | Raise ValueError | Raise TypeError => Ok None
            | Raise e => Raise e
            end
        | FString => Ok (Some s)
        end
  end.

(** Lines 47-49: a stable ID from the planet name. *)
Definition generate_id (name : string) : string :=
  String.append "exo-"
    (str_replace "+"%char "plus" (str_replace " "%char "-" (str_lower name))).

(** Lines 103-105, for one field of [FIELD_TYPES]:
    [if field in row: planet[field] = parse_value(row[field], field_type)]. *)
Definition numeric_field (row : gmap string string) (field : string) (t : field_type)
  : result (option (py_type t)) :=
  match row !! field with
  | Some v => parse_value (Some v) t
  | None => Ok None
  end.

(** Lines 108-111, for one field:
    [if field in row: planet[field] = row[field] if row[field] else None]. *)
Definition string_field (row : gmap string string) (field : string) : option string :=
  match row !! field with
  | Some v => if str_truthy (Some v) then Some v else None
  | None => None
  end.

(** [row[key]]. *)
Definition getitem (row : gmap string string) (key : string) : result string :=
  match row !! key with
  | Some v => Ok v
  | None => Raise (KeyError key)
  end.

(** Lines 92-133: the planet object built from one row of
    [step2-cleaned.csv]. *)
Definition build_planet (narrative_data : gmap string narrative_entry)
  (row : gmap string string) : result planet :=
  name ← getitem row "name";
  hostStar ← getitem row "hostStar";
  (* Add numeric fields *)
  period ← numeric_field row "period" FFloat;
  separation ← numeric_field row "separation" FFloat;
  radius ← numeric_field row "radius" FFloat;
  mass ← numeric_field row "mass" FFloat;
  discoveryYear ← numeric_field row "discoveryYear" FInt;
  temperature ← numeric_field row "temperature" FFloat;
  density ← numeric_field row "density" FFloat;
  eccentricity ← numeric_field row "eccentricity" FFloat;
  insolation ← numeric_field row "insolation" FFloat;
  starTemperature ← numeric_field row "starTemperature" FFloat;
  starRadius ← numeric_field row "starRadius" FFloat;
  starMass ← numeric_field row "starMass" FFloat;
  distance ← numeric_field row "distance" FFloat;
  ra ← numeric_field row "ra" FFloat;
  dec ← numeric_field row "dec" FFloat;
  Ok {| id := generate_id name;
        name := name;
        hostStar := hostStar;
        isSolarSystem := false;
        period := period; separation := separation; radius := radius;
        mass := mass; discoveryYear := discoveryYear;
        temperature := temperature; density := density;
        eccentricity := eccentricity; insolation := insolation;
        starTemperature := starTemperature; starRadius := starRadius;
        starMass := starMass; distance := distance; ra := ra; dec := dec;
        (* Add string fields *)
        massProvenance := string_field row "massProvenance";
        detectionMethod := string_field row "detectionMethod";
        facility := string_field row "facility";
        starSpectralType := string_field row "starSpectralType";
        planetType := string_field row "planetType";
        (* Track which fields are observed *)
        _observed :=
          {| obs_period := bool_decide (period ≠ None);
             obs_mass := bool_decide (mass ≠ None);
             obs_radius := bool_decide (radius ≠ None);
             obs_temperature := bool_decide (temperature ≠ None);
             obs_separation :=
               bool_decide (row !! "separation" ≠ None)
               && negb (String.eqb (default "" (row !! "separation")) "") |};
        (* Add narrative content if available *)
        _narrative :=
          match narrative_data !! name with
          | Some entry =>
              Some {| isNotable := default false (entry_isNotable entry);
                      notableReason := entry_notableReason entry;
                      description := entry_description entry;
                      sources := default [] (entry_sources entry) |}
          | None => None
          end |}.

(** What the loop of lines 91-135 carries. *)
Record state : Type := {
  planets : list planet;
  notable_count : nat;
}.

Definition enrich_row (narrative_data : gmap string narrative_entry)
  (st : state) (row : gmap string string) : result state :=
  p ← build_planet narrative_data row;
  Ok {| planets := planets st ++ [p];
        notable_count :=
          if bool_decide (_narrative p ≠ None) then S (notable_count st)
          else notable_count st |}.

(** The script: the loop, then the sort of line 138.  The result is the
    [planets] list and the [notableCount] of [planets-enriched.json]. *)
Definition enrich_narrative (narrative_data : gmap string narrative_entry)
  (rows : list (gmap string string)) : result state :=
  st ← for_rows (enrich_row narrative_data) {| planets := []; notable_count := 0 |} rows;
  Ok {| planets := py_sort key_lt sort_key (planets st);
        notable_count := notable_count st |}.

End WithRuntime.
End EnrichNarrative.

(** ** Step 4: [04-generate-final.py]

    [json.dump] followed by [json.load] gives back the planet objects of
    step 3 (numbers, strings, [None] and booleans are written and read
    without loss), so the script runs on the list step 3 produced. *)

Module GenerateFinal.
Import EnrichNarrative.

(** The [stats] dictionary (lines 39-49). *)
Record stats : Type := {
  total : nat;
  with_mass : nat;
  with_radius : nat;
  with_temperature : nat;
  with_narrative : nat;
  detection_methods : gmap (option string) nat;
  planet_types : gmap (option string) nat;
  discovery_years : gmap (option Z) nat;
  facilities : gmap string nat;
}.

(** What the loop of lines 54-87 carries. *)
Record state : Type := {
  st_stats : stats;
  valid_planets : list planet;
  issues : list string;
}.

Definition initial (planets : list planet) : state :=
  {| st_stats := {| total := length planets; with_mass := 0; with_radius := 0;
                    with_temperature := 0; with_narrative := 0;
                    detection_methods := ∅; planet_types := ∅;
                    discovery_years := ∅; facilities := ∅ |};
     valid_planets := []; issues := [] |}.

(** Lines 76-84: simplify facility names. *)
Definition simplify_facility (facility : string) : string :=
  if str_contains "Kepler" facility then "Kepler"
  else if str_contains "K2" facility then "K2"
  else if str_contains "TESS" facility then "TESS"
  else if str_contains "HARPS" facility then "HARPS"
  else facility.

(** The body of the loop of lines 54-87. *)
Definition validate_planet (st : state) (p : planet) : state :=
  (* Required fields check *)
  if negb (opt_truthy (period p)) then
    {| st_stats := st_stats st; valid_planets := valid_planets st;
       issues := issues st ++ [String.append (name p) ": missing period"] |}
  else
    let s := st_stats st in
    (* Count statistics *)
    {| st_stats :=
         {| total := total s;
            with_mass := bump (opt_truthy (mass p)) (with_mass s);
            with_radius := bump (opt_truthy (radius p)) (with_radius s);
            with_temperature := bump (opt_truthy (temperature p)) (with_temperature s);
            with_narrative := bump (bool_decide (_narrative p ≠ None)) (with_narrative s);
            detection_methods := counter_incr (detectionMethod p) (detection_methods s);
            planet_types := counter_incr (planetType p) (planet_types s);
            discovery_years := counter_incr (discoveryYear p) (discovery_years s);
            facilities :=
              if str_truthy (facility p)
              then counter_incr (simplify_facility (default "" (facility p)))
                                (facilities s)
              else facilities s |};
       valid_planets := valid_planets st ++ [p];
       issues := issues st |}.

(** The script up to line 87: the validated planets of [exoplanets.json],
    the issues listed in [STATS.md], and the statistics. *)
Definition generate_final (planets : list planet) : state :=
  fold_left validate_planet planets (initial planets).

Import PyFormat PyCounter.

(** *** The files written (lines 89-186)

    Every planet object read from [planets-enriched.json] has the keys
    [detectionMethod], [planetType], [discoveryYear] and [facility]: step 2
    writes these columns in every row and step 3 copies every column it
    finds.  So the defaults of the [.get] calls of lines 70-74 are never
    used, and a field that is [None] here is a key holding [None]. *)

(** The [metadata] of [exoplanets.json] (lines 91-100).  [processedDate] is
    the day the script runs, as [strftime('%Y-%m-%d')] prints it. *)
Record metadata : Type := {
  source : string;
  sourceUrl : string;
  dataTable : string;
  downloadDate : string;
  processedDate : string;
  pipelineVersion : string;
  planetCount : nat;
  citation : string;
}.

Definition output_metadata (today : string) (st : state) : metadata :=
  {| source := "NASA Exoplanet Archive";
     sourceUrl := "https://exoplanetarchive.ipac.caltech.edu/";
     dataTable := "Planetary Systems (PS)";
     downloadDate := "2025-12-26";
     processedDate := today;
     pipelineVersion := "1.0.0";
     planetCount := length (valid_planets st);
     citation := "NASA Exoplanet Archive, operated by Caltech under contract with NASA" |}.

(** The four [Counter]s of [stats], with the order of their keys. *)
Record tables : Type := {
  methods_seen : list (option string * nat);
  types_seen : list (option string * nat);
  years_seen : list (option Z * nat);
  facilities_seen : list (string * nat);
}.

(** Lines 56-58 and 70-85 of the loop, on these counters. *)
Definition tally_planet (t : tables) (p : planet) : tables :=
  if negb (opt_truthy (period p)) then t
  else
    {| methods_seen := ordered_add (detectionMethod p) 1 (methods_seen t);
       types_seen := ordered_add (planetType p) 1 (types_seen t);
       years_seen := ordered_add (discoveryYear p) 1 (years_seen t);
       facilities_seen :=
         if str_truthy (facility p)
         then ordered_add (simplify_facility (default "" (facility p))) 1
                          (facilities_seen t)
         else facilities_seen t |}.

Definition tally (planets : list planet) : tables :=
  fold_left tally_planet planets
    {| methods_seen := []; types_seen := []; years_seen := []; facilities_seen := [] |}.

(** The end of a line. *)
Definition nl : string := String "010" EmptyString.

(** Lines of text, each with its end of line. *)
Fixpoint unlines (ls : list string) : string :=
  match ls with
  | [] => ""
  | l :: ls' => String.append l (String.append nl (unlines ls'))
  end.

(** [f"{k}"] for a text or [None]. *)
Definition label (k : option string) : string := default "None" k.

(** [f"{100 * count / total:.1f}"]. *)
Definition percent (count total : nat) : result string :=
  x ← int_true_div (100 * Z.of_nat count) (Z.of_nat total);
  Ok (format_f1 x).

(** Lines 132-134 and 143-145: one row of a table with percentages. *)
Definition percent_row (total : nat) (md : string) (row : option string * nat)
  : result string :=
  pct ← percent row.2 total;
  Ok (String.append md
        (unlines [String.append "| " (String.append (label row.1)
                   (String.append " | " (String.append (format_commas (Z.of_nat row.2))
                     (String.append " | " (String.append pct "% |")))))])).

(** Lines 154-155. *)
Definition facility_row (md : string) (row : string * nat) : string :=
  String.append md
    (unlines [String.append "| " (String.append row.1
               (String.append " | " (String.append (format_commas (Z.of_nat row.2)) " |")))]).

(** Lines 164-168: the counts by decade. *)
Definition decade_counts (years : list (option Z * nat)) : list (Z * nat) :=
  fold_left (fun dc (yc : option Z * nat) =>
               match yc.1 with
               | Some year => ordered_add (year / 10 * 10)%Z yc.2 dc
               | None => dc
               end)
            years [].

(** Line 170: [sorted(decade_counts.keys())]. *)
Definition decades (dc : list (Z * nat)) : list Z :=
  py_sort Z.ltb (fun d => d) (map fst dc).

(** Line 171. *)
Definition decade_row (dc : list (Z * nat)) (md : string) (decade : Z) : string :=
  String.append md
    (unlines [String.append "| " (String.append (str_of_int decade)
               (String.append "s | "
                 (String.append (format_commas (Z.of_nat (count_of decade dc))) " |")))]).

(** Lines 173-183. *)
Definition issues_section (md : string) (issues : list string) : string :=
  match issues with
  | [] => md
  | _ =>
      let md :=
        String.append md
          (unlines [""; "## Data Issues"; "";
                    String.append (str_of_int (Z.of_nat (length issues)))
                                  " planets excluded:";
                    ""]) in
      let md :=
        fold_left (fun md issue => String.append md (unlines [String.append "- " issue]))
                  (firstn 20 issues) md in
      if (20 <? length issues)%nat
      then String.append md
             (unlines [String.append "- ... and "
                         (String.append (str_of_int (Z.of_nat (length issues) - 20)) " more")])
      else md
  end.

(** Lines 112-183: the text of [STATS.md].  [generated] is the time the
    script runs, as [strftime('%Y-%m-%d %H:%M:%S')] prints it. *)
Definition stats_report (generated : string) (planets : list planet) : result string :=
  let st := generate_final planets in
  let stats := st_stats st in
  let t := tally planets in
  pct_mass ← percent (with_mass stats) (total stats);
  pct_radius ← percent (with_radius stats) (total stats);
  pct_temperature ← percent (with_temperature stats) (total stats);
  let md :=
    unlines
      [ "# Exoplanet Dataset Statistics";
        "";
        String.append "Generated: " generated;
        "";
        "## Overview";
        "";
        "| Metric | Count |";
        "|--------|-------|";
        String.append "| Total planets | "
          (String.append (format_commas (Z.of_nat (total stats))) " |");
        String.append "| With mass measurement | "
          (String.append (format_commas (Z.of_nat (with_mass stats)))
             (String.append " (" (String.append pct_mass "%) |")));
        String.append "| With radius measurement | "
          (String.append (format_commas (Z.of_nat (with_radius stats)))
             (String.append " (" (String.append pct_radius "%) |")));
        String.append "| With temperature estimate | "
          (String.append (format_commas (Z.of_nat (with_temperature stats)))
             (String.append " (" (String.append pct_temperature "%) |")));
        String.append "| With narrative description | "
          (String.append (format_commas (Z.of_nat (with_narrative stats))) " |");
        "";
        "## Detection Methods";
        "";
        "| Method | Count | Percentage |";
        "|--------|-------|------------|" ] in
  md ← for_rows (percent_row (total stats)) md (most_common (methods_seen t));
  let md :=
    String.append md
      (unlines [""; "## Planet Types"; ""; "| Type | Count | Percentage |";
                "|------|-------|------------|"]) in
  md ← for_rows (percent_row (total stats)) md (most_common (types_seen t));
  let md :=
    String.append md
      (unlines [""; "## Top Discovery Facilities"; ""; "| Facility | Count |";
                "|----------|-------|"]) in
  let md := fold_left facility_row (most_common_n 10 (facilities_seen t)) md in
  let md :=
    String.append md
      (unlines [""; "## Discovery Timeline"; ""; "| Decade | Count |";
                "|--------|-------|"]) in
  let dc := decade_counts (years_seen t) in
  let md := fold_left (decade_row dc) (decades dc) md in
  Ok (issues_section md (issues st)).

(** Lines 89-186: what the script leaves behind.  [exoplanets.json] is
    written first, whatever happens afterwards; [STATS.md] is written when
    making its text did not raise. *)
Definition write_files (today generated : string) (planets : list planet)
  : (metadata * list planet) * result string :=
  let st := generate_final planets in
  ((output_metadata today st, valid_planets st), stats_report generated planets).

End GenerateFinal.

(** ** The pipeline

    Each script runs on the file the script before it wrote.  Step 1 hands
    the rows it kept to step 2 as they are; step 3 reads the rows of
    [step2-cleaned.csv]; step 4 reads the planet objects of
    [planets-enriched.json]. *)

Section PipelineRun.
Context {RT : Runtime}.

Definition pipeline (narrative_data : gmap string EnrichNarrative.narrative_entry)
  (raw : list (gmap string string)) : result GenerateFinal.state :=
  selected ← ExtractDefaults.extract_defaults raw;
  cleaned ← SelectAndClean.select_and_clean (ExtractDefaults.written selected.1);
  enriched ← EnrichNarrative.enrich_narrative narrative_data
                (map SelectAndClean.csv_row (SelectAndClean.written cleaned));
  Ok (GenerateFinal.generate_final (EnrichNarrative.planets enriched)).

End PipelineRun.

(** ** A reference runtime

    An executable instance of [Runtime], used to run the scripts on concrete
    inputs.  Text is read and printed as CPython does for ASCII input:
    [float] rounds the decimal to the nearest binary64 number, [repr] prints
    the shortest decimal that reads back as the same number.  The powers
    are computed in fixed point with [fx_bits] fractional bits and rounded
    to nearest once, which is what a correctly rounded C library returns. *)

Module RefRuntime.

Local Open Scope Z_scope.

(** *** Reading a float: [float(s)] *)

Definition is_digit (c : ascii) : bool :=
  let n := nat_of_ascii c in (48 <=? n)%nat && (n <=? 57)%nat.

Definition digit_value (c : ascii) : Z := Z.of_nat (nat_of_ascii c) - 48.

Definition is_space (c : ascii) : bool :=
  let n := nat_of_ascii c in
  ((9 <=? n)%nat && (n <=? 13)%nat) || ((28 <=? n)%nat && (n <=? 32)%nat).

Definition lower_ascii (c : ascii) : ascii :=
  let n := nat_of_ascii c in
  if (65 <=? n)%nat && (n <=? 90)%nat then ascii_of_nat (n + 32) else c.

Fixpoint lower (s : string) : string :=
  match s with
  | EmptyString => EmptyString
  | String c s' => String (lower_ascii c) (lower s')
  end.

Fixpoint lstrip (s : string) : string :=
  match s with
  | String c s' => if is_space c then lstrip s' else s
  | EmptyString => EmptyString
  end.

Fixpoint rstrip (s : string) : string :=
  match s with
  | EmptyString => EmptyString
  | String c s' =>
      match rstrip s' with
      | EmptyString => if is_space c then EmptyString else String c EmptyString
      | t => String c t
      end
  end.

(** The rest of a [digitpart] after its first digit: digits, each
    optionally preceded by one underscore.  Returns the number read so far,
    how many digits it has, and the text left. *)
Fixpoint digits_rest (acc : Z) (n : Z) (s : string) : Z * Z * string :=
  match s with
  | String c s' =>
      if is_digit c then digits_rest (acc * 10 + digit_value c) (n + 1) s'
      else if Ascii.eqb c "_" then
        match s' with
        | String d s'' =>
            if is_digit d then digits_rest (acc * 10 + digit_value d) (n + 1) s''
            else (acc, n, s)
        | EmptyString => (acc, n, s)
        end
      else (acc, n, s)
  | EmptyString => (acc, n, s)
  end.

(** [digitpart], continuing the number [acc] of [n] digits. *)
Definition digitpart (acc n : Z) (s : string) : option (Z * Z * string) :=
  match s with
  | String c s' =>
      if is_digit c then Some (digits_rest (acc * 10 + digit_value c) (n + 1) s')
      else None
  | EmptyString => None
  end.

(** [number]: the digits as one integer, the count of digits read, the
    count of those after the point, and the text left. *)
Definition number (s : string) : option (Z * Z * Z * string) :=
  match digitpart 0 0 s with
  | Some (ip, n, String "." rest) =>
      match digitpart ip n rest with
      | Some (m, n', rest') => Some (m, n', n' - n, rest')
      | None => Some (ip, n, 0, rest)
      end
  | Some (ip, n, rest) => Some (ip, n, 0, rest)
  | None =>
      match s with
      | String "." rest =>
          match digitpart 0 0 rest with
          | Some (m, n, rest') => Some (m, n, n, rest')
          | None => None
          end
      | _ => None
      end
  end.

(** An optional sign: whether it is a minus, and the text left. *)
Definition sign (s : string) : bool * string :=
  match s with
  | String "-" s' => (true, s')
  | String "+" s' => (false, s')
  | _ => (false, s)
  end.

(** [exponent], when the text left is not empty; [None] when it is not an
    exponent. *)
Definition exponent (s : string) : option Z :=
  match s with
  | EmptyString => Some 0
  | String c s' =>
      if Ascii.eqb (lower_ascii c) "e" then
        let '(neg, s'') := sign s' in
        match digitpart 0 0 s'' with
        | Some (e, _, EmptyString) => Some (if neg : bool then - e else e)
        | _ => None
        end
      else None
  end.

(** The binary64 number nearest to [m * 10^k] (ties to even), for [m > 0]. *)
Definition nearest_float (neg : bool) (m : positive) (k : Z) : float :=
  SF2Prim
    (if 0 <=? k
     then SFdiv prec emax (S754_finite neg (m * Z.to_pos (10 ^ k)) 0) (S754_finite false 1 0)
     else SFdiv prec emax (S754_finite neg m 0) (S754_finite false (Z.to_pos (10 ^ (- k))) 0)).

(** The float of a decimal with digits [m] ([n] of them) and exponent [k].
    A decimal at or above [10^400] is an infinity and one below [10^-400]
    a zero, whatever its digits. *)
Definition decimal_float (neg : bool) (m n k : Z) : float :=
  match m with
  | Z.pos p =>
      if 400 <? k then (if neg then neg_infinity else infinity)
      else if n + k <? - 400 then (if neg then (-0)%float else 0%float)
      else nearest_float neg p k
  | _ => if neg then (-0)%float else 0%float
  end.

Definition ref_float_of_string (s : string) : option float :=
  let '(neg, body) := sign (rstrip (lstrip s)) in
  let word := lower body in
  if String.eqb word "inf" || String.eqb word "infinity"
  then Some (if neg then neg_infinity else infinity)
  else if String.eqb word "nan" then Some nan
  else
    match number body with
    | Some (m, n, frac, rest) =>
        match exponent rest with
        | Some e => Some (decimal_float neg m n (e - frac))
        | None => None
        end
    | None => None
    end.


(** *** Printing a float: [repr(f)] *)

(** The decimal digits of [z >= 0]. *)
Fixpoint digits_acc (fuel : nat) (z : Z) (acc : string) : string :=
  match fuel with
  | O => acc
  | S fuel' =>
      let acc' := String (ascii_of_nat (Z.to_nat (48 + z mod 10))) acc in
      if z <? 10 then acc' else digits_acc fuel' (z / 10) acc'
  end.

Definition digits (z : Z) : string := digits_acc (S (Z.to_nat (Z.log2 z))) z "".

Fixpoint zeros (n : nat) : string :=
  match n with
  | O => ""
  | S n' => String "0" (zeros n')
  end.

(** [s] without the zeros at its end. *)
Fixpoint strip_zeros (s : string) : string :=
  match s with
  | EmptyString => EmptyString
  | String c s' =>
      match strip_zeros s' with
      | EmptyString => if Ascii.eqb c "0" then EmptyString else String c EmptyString
      | t => String c t
      end
  end.

(** Whether [10^E <= num / den]. *)
Definition pow10_le (E num den : Z) : bool :=
  if 0 <=? E then den * 10 ^ E <=? num else den <=? num * 10 ^ (- E).

(** The largest [E] with [10^E <= num / den], for positive [num] and [den]. *)
Definition floor_log10 (num den : Z) : Z :=
  let est := (Z.log2 num - Z.log2 den) * 30103 / 100000 in
  if pow10_le (est + 2) num den then est + 2
  else if pow10_le (est + 1) num den then est + 1
  else if pow10_le est num den then est
  else if pow10_le (est - 1) num den then est - 1
  else est - 2.

(** The decimal of [n] digits that reads back as [x = m * 2^e] and is
    nearest to it, when there is one: its digits as an integer [D] and the
    exponent [t] with value [D * 10^(-t)]. *)
Definition candidate (x : float) (m : positive) (e : Z) (n : Z) : option (Z * Z) :=
  let num := if 0 <=? e then Z.pos m * 2 ^ e else Z.pos m in
  let den := if 0 <=? e then 1 else 2 ^ (- e) in
  let t := n - 1 - floor_log10 num den in
  let num' := if 0 <=? t then num * 10 ^ t else num in
  let den' := if 0 <=? t then den else den * 10 ^ (- t) in
  let lo := num' / den' in
  let rem := num' mod den' in
  let hi := lo + 1 in
  let reads_back D :=
    match D with
    | Z.pos p => (nearest_float false p (- t) =? x)%float
    | _ => false
    end in
  let lo_first := (2 * rem <? den') || ((2 * rem =? den') && Z.even lo) in
  let '(first, second) := if lo_first then (lo, hi) else (hi, lo) in
  if reads_back first then Some (first, t)
  else if reads_back second then Some (second, t)
  else None.

(** The shortest such decimal, trying 1, 2, ... digits. *)
Fixpoint shortest (fuel : nat) (x : float) (m : positive) (e : Z) (n : Z)
  : option (Z * Z) :=
  match fuel with
  | O => None
  | S fuel' =>
      match candidate x m e n with
      | Some r => Some r
      | None => shortest fuel' x m e (n + 1)
      end
  end.

(** The number [0.ds * 10^decpt] laid out as [repr] does: with an exponent
    when [decpt <= -4] or [decpt > 16]; [dot0] asks for a [.0] after an
    integer. *)
Definition layout (ds : string) (decpt : Z) (dot0 : bool) : string :=
  let nd := Z.of_nat (String.length ds) in
  if (decpt <=? - 4) || (16 <? decpt) then
    let ex := decpt - 1 in
    let mant :=
      match ds with
      | String d EmptyString => ds
      | String d rest => String d (String "." rest)
      | EmptyString => ds
      end in
    let exd := digits (Z.abs ex) in
    String.append mant
      (String.append (if ex <? 0 then "e-" else "e+")
         (if Z.abs ex <? 10 then String "0" exd else exd))
  else if decpt <=? 0 then
    String.append "0." (String.append (zeros (Z.to_nat (- decpt))) ds)
  else if decpt <? nd then
    String.append (String.substring 0 (Z.to_nat decpt) ds)
      (String "." (String.substring (Z.to_nat decpt) (Z.to_nat (nd - decpt)) ds))
  else
    String.append ds
      (String.append (zeros (Z.to_nat (decpt - nd))) (if dot0 then ".0" else "")).

(** CPython's [PyOS_double_to_string(x, 'r', 0, flags)]: [dot0] is the flag
    [Py_DTSF_ADD_DOT_0], [plus] is [Py_DTSF_SIGN]. *)
Definition double_to_string (x : float) (dot0 plus : bool) : string :=
  let signed (neg : bool) (body : string) :=
    if neg then String "-" body else if plus then String "+" body else body in
  match Prim2SF x with
  | S754_nan => signed false "nan"
  | S754_infinity neg => signed neg "inf"
  | S754_zero neg => signed neg (layout "0" 1 dot0)
  | S754_finite neg m e =>
      match shortest 17 (abs x) m e 1 with
      | Some (D, t) =>
          let all := digits D in
          signed neg (layout (strip_zeros all) (Z.of_nat (String.length all) - t) dot0)
      | None => signed neg "?"
      end
  end.

Definition ref_str_of_float (x : float) : string := double_to_string x true false.

(** CPython's [complex_repr]. *)
Definition ref_str_of_complex (re im : float) : string :=
  match Prim2SF re with
  | S754_zero false => String.append (double_to_string im false false) "j"
  | _ =>
      String.append "("
        (String.append (double_to_string re false false)
           (String.append (double_to_string im false true) "j)"))
  end.


(** *** Powers, in fixed point

    A real [v] is held as the integer [floor (v * 2^fx_bits)]. *)

Definition fx_bits : Z := 256.
Definition fx_one : Z := 2 ^ fx_bits.
Definition fx_mul (a b : Z) : Z := a * b / fx_one.
Definition fx_div (a b : Z) : Z := a * fx_one / b.
Definition fx_sqrt (a : Z) : Z := Z.sqrt (a * fx_one).

(** The nearest float to a fixed-point number scaled by [2^k]. *)
Definition fx_to_float (v k : Z) : float :=
  SF2Prim (binary_normalize prec emax v (k - fx_bits) false).

(** A finite float as a fixed-point number. *)
Definition fx_of_float (x : float) : Z :=
  match Prim2SF x with
  | S754_finite s m e =>
      let a := if 0 <=? e + fx_bits then Z.pos m * 2 ^ (e + fx_bits)
               else Z.pos m / 2 ^ (- (e + fx_bits)) in
      if s then - a else a
  | _ => 0
  end.

(** [pw/d + pw*s2/(d+2) + pw*s2^2/(d+4) + ...], each term times [sg] more
    than the one before: the series of [atanh] ([sg = 1]) and [atan]
    ([sg = -1]). *)
Fixpoint odd_series (fuel : nat) (sg s2 pw d acc : Z) : Z :=
  match fuel with
  | O => acc
  | S fuel' =>
      if pw =? 0 then acc
      else odd_series fuel' sg s2 (sg * fx_mul pw s2) (d + 2) (acc + pw / d)
  end.

Definition fx_atanh (s : Z) : Z := odd_series 400 1 (fx_mul s s) s 1 0.

(** [ln 2 = 2 atanh (1/3)]. *)
Definition fx_ln2 : Z := 2 * fx_atanh (fx_one / 3).

(** [ln (m * 2^e)]: with [m * 2^e = f * 2^k] and [1 <= f < 2],
    [k ln 2 + 2 atanh ((f - 1) / (f + 1))]. *)
Definition fx_ln (m : positive) (e : Z) : Z :=
  let d := Z.log2 (Z.pos m) in
  let f := if d <=? fx_bits then Z.pos m * 2 ^ (fx_bits - d)
           else Z.pos m / 2 ^ (d - fx_bits) in
  (e + d) * fx_ln2 + 2 * fx_atanh (fx_div (f - fx_one) (f + fx_one)).

(** [term + term*r/i + term*r^2/(i(i+1)) + ...]: the series of [exp]. *)
Fixpoint exp_series (fuel : nat) (r term i acc : Z) : Z :=
  match fuel with
  | O => acc
  | S fuel' =>
      if term =? 0 then acc
      else exp_series fuel' r (fx_mul term r / i) (i + 1) (acc + term)
  end.

Definition fx_exp (r : Z) : Z := exp_series 400 r fx_one 1 0.

(** C's [pow x y] for [x] finite and positive and [y] finite and not zero:
    [exp (y ln x)], rounded to nearest. *)
Definition ref_libm_pow (x y : float) : float :=
  match Prim2SF x, Prim2SF y with
  | S754_finite false mx ex, S754_finite sy my ey =>
      let a := Z.pos my * fx_ln mx ex in
      let t0 := if 0 <=? ey then a * 2 ^ ey else a / 2 ^ (- ey) in
      let t := if sy then - t0 else t0 in
      let k := t / fx_ln2 in
      if 5000 <? k then infinity
      else if k <? - 5000 then 0%float
      else fx_to_float (fx_exp (t - k * fx_ln2)) k
  | _, _ => nan
  end.

(** [x - x^3/3! + ...] and [1 - x^2/2! + ...]: [term] is the first term and
    [i] its degree. *)
Fixpoint trig_series (fuel : nat) (r2 term i acc : Z) : Z :=
  match fuel with
  | O => acc
  | S fuel' =>
      if term =? 0 then acc
      else trig_series fuel' r2 (- (fx_mul term r2 / ((i + 1) * (i + 2)))) (i + 2)
                       (acc + term)
  end.

Definition fx_sin (r : Z) : Z := trig_series 400 (fx_mul r r) r 1 0.
Definition fx_cos (r : Z) : Z := trig_series 400 (fx_mul r r) fx_one 0 0.

(** [atan q] for [0 <= q <= 1]: [atan q = 2 atan (q / (1 + sqrt (1 + q^2)))],
    four times, then the series. *)
Definition halve_tan (q : Z) : Z :=
  fx_div q (fx_one + fx_sqrt (fx_one + fx_mul q q)).

Definition fx_atan (q : Z) : Z :=
  let q4 := halve_tan (halve_tan (halve_tan (halve_tan q))) in
  16 * odd_series 400 (- 1) (fx_mul q4 q4) q4 1 0.

Definition fx_pi : Z := 4 * fx_atan fx_one.

(** [sin] and [cos] of a float, the argument taken modulo [2 pi]. *)
Definition ref_sin (x : float) : float :=
  if (abs x <? 0x1p-120)%float then x
  else fx_to_float (fx_sin (fx_of_float x mod (2 * fx_pi))) 0.

Definition ref_cos (x : float) : float :=
  if (abs x <? 0x1p-120)%float then 1%float
  else fx_to_float (fx_cos (fx_of_float x mod (2 * fx_pi))) 0.

(** The absolute value of a finite float as [m * 2^e]. *)
Definition magnitude (x : float) : Z * Z :=
  match Prim2SF x with
  | S754_finite _ m e => (Z.pos m, e)
  | _ => (0, 0)
  end.

Definition sign_bit (x : float) : bool :=
  match Prim2SF x with
  | S754_zero s | S754_infinity s | S754_finite s _ _ => s
  | S754_nan => false
  end.

(** C's [atan2 y x] for finite arguments. *)
Definition ref_atan2 (y x : float) : float :=
  let '(my, ey) := magnitude y in
  let '(mx, ex) := magnitude x in
  let ratio (ma ea mb eb : Z) :=
    let sh := ea - eb + fx_bits in
    if 0 <=? sh then ma * 2 ^ sh / mb else ma / (mb * 2 ^ (- sh)) in
  let acute :=
    if my =? 0 then 0
    else if mx =? 0 then fx_pi / 2
    else if ratio my ey mx ex <=? fx_one then fx_atan (ratio my ey mx ex)
    else fx_pi / 2 - fx_atan (ratio mx ex my ey) in
  let angle := if sign_bit x then fx_pi - acute else acute in
  if sign_bit y then (- fx_to_float angle 0)%float else fx_to_float angle 0.

(** C's [hypot x y] for finite arguments: the square root of the exact sum
    of squares, with a last bit that records an inexact root. *)
Definition ref_hypot (x y : float) : float :=
  let '(mx, ex) := magnitude x in
  let '(my, ey) := magnitude y in
  let e := Z.min ex ey in
  let s := (mx * 2 ^ (ex - e)) ^ 2 + (my * 2 ^ (ey - e)) ^ 2 in
  let r := Z.sqrt (s * 2 ^ 128) in
  SF2Prim (binary_normalize prec emax
             (if r * r =? s * 2 ^ 128 then 2 * r else 2 * r + 1) (e - 65) false).

(** C's [pow x y] for [x >= 0] and [y] finite and not zero. *)
Definition c_pow (x y : float) : float :=
  if (x =? 1)%float then 1%float
  else if is_infinity x then (if (0 <? y)%float then infinity else 0%float)
  else if (x =? 0)%float then (if (0 <? y)%float then 0%float else infinity)
  else ref_libm_pow x y.

(** CPython's [complex_pow] for a real exponent, by the polar form (for an
    integral exponent of size at most 100 CPython multiplies instead, which
    may differ in the last place). *)
Definition ref_complex_pow (re im w : float) : result (float * float) :=
  if (w =? 0)%float then Ok (1%float, 0%float)
  else if (re =? 0)%float && (im =? 0)%float then
    if (w <? 0)%float then Raise ZeroDivisionError else Ok (0%float, 0%float)
  else
    let vabs := ref_hypot re im in
    let len := c_pow vabs w in
    let phase := (ref_atan2 im re * w)%float in
    let r := ((len * ref_cos phase)%float, (len * ref_sin phase)%float) in
    if is_infinity r.1 || is_infinity r.2 then Raise OverflowError else Ok r.

(** The reference runtime.  [str.lower] is the ASCII one. *)
Definition ref : Runtime :=
  {| float_of_string := ref_float_of_string;
     str_of_float := ref_str_of_float;
     str_of_complex := ref_str_of_complex;
     libm_pow := ref_libm_pow;
     complex_pow := ref_complex_pow;
     str_lower := lower |}.

End RefRuntime.

(** * The specification's vocabulary *)

(** The Selector's two filters, as the specification words them: the
    canonical-default flag is the text "1" and the controversy flag is not
    the text "1". *)
Definition is_default (row : gmap string string) : bool :=
  bool_decide (row !! "default_flag" = Some "1").

Definition is_controversial (row : gmap string string) : bool :=
  bool_decide (row !! "pl_controv_flag" = Some "1").

Definition survives (row : gmap string string) : bool :=
  is_default row && negb (is_controversial row).

(** The entity names of rows. *)
Definition names_of (rows : list (gmap string string)) : list string :=
  omap (fun row => row !! "pl_name") rows.

Section SelectorInput.
Context {RT : Runtime}.

(** A raw row the Selector's bookkeeping accepts: if it survives, it has a
    [pl_name] column and its discovery year is not an infinity (the one
    float [int] refuses with an exception the script does not catch). *)
Definition bookkeeping_ok (row : gmap string string) : bool :=
  negb (survives row)
  || (bool_decide (is_Some (row !! "pl_name"))
      && match ExtractDefaults.track_year row [] with
         | Ok _ => true
         | Raise _ => false
         end).

End SelectorInput.

(** * Step 1: the Selector *)

Section Selector.
Context {RT : Runtime}.
Import ExtractDefaults.

Lemma track_year_any row years years' ys :
  track_year row years = Ok ys -> exists ys', track_year row years' = Ok ys'.
Proof.
  unfold track_year. destruct (str_truthy _); [|eauto].
  destruct (_ ≫= _) as [y|[]]; try discriminate; eauto.
Qed.

(** What one turn of the loop does to the counters and to the output. *)
Lemma filter_row_inv st row st' :
  filter_row st row = Ok st' ->
  rows_total st' = S (rows_total st)
  /\ rows_default st' = bump (is_default row) (rows_default st)
  /\ rows_output st' = bump (survives row) (rows_output st)
  /\ written st' = written st ++ List.filter survives [row]
  /\ planet_names st' = list_to_set (names_of (List.filter survives [row])) ∪ planet_names st.
Proof.
  unfold filter_row, survives, is_default, is_controversial, names_of. cbn [List.filter].
  destruct (bool_decide (row !! "default_flag" = Some "1")); cbn.
  2:{ intros Heq; injection Heq as <-; cbn. rewrite app_nil_r. repeat split; set_solver. }
  destruct (bool_decide (row !! "pl_controv_flag" = Some "1")); cbn.
  { intros Heq; injection Heq as <-; cbn. rewrite app_nil_r. repeat split; set_solver. }
  destruct (row !! "pl_name") as [nm|] eqn:Hnm; [|discriminate].
  destruct (track_year row (discovery_years st)) as [ys|]; [|discriminate].
  intros Heq; injection Heq as <-; cbn. repeat split; set_solver.
Qed.

Lemma filter_row_ok st row :
  bookkeeping_ok row = true -> exists st', filter_row st row = Ok st'.
Proof.
  unfold bookkeeping_ok, survives, is_default, is_controversial, filter_row.
  destruct (bool_decide (row !! "default_flag" = Some "1")); cbn; [|eauto].
  destruct (bool_decide (row !! "pl_controv_flag" = Some "1")); cbn; [eauto|].
  intros [Hn Hy]%andb_prop.
  apply bool_decide_eq_true in Hn as [nm ->].
  destruct (track_year row []) as [ys|] eqn:Hys; [|discriminate].
  destruct (track_year_any row [] (discovery_years st) ys Hys) as [ys' ->].
  cbn. eauto.
Qed.

Lemma names_of_cons row rows :
  list_to_set (C := gset string) (names_of (row :: rows))
  = list_to_set (names_of [row]) ∪ list_to_set (names_of rows).
Proof.
  rewrite <- list_to_set_app_L. f_equal.
  unfold names_of. cbn. destruct (row !! "pl_name"); reflexivity.
Qed.

(** The loop invariant: counters and output after the rows seen so far. *)
Lemma for_rows_filter_inv rows : forall st st',
  for_rows filter_row st rows = Ok st' ->
  rows_total st' = (rows_total st + length rows)%nat
  /\ rows_default st' = (rows_default st + length (List.filter is_default rows))%nat
  /\ rows_output st' = (rows_output st + length (List.filter survives rows))%nat
  /\ written st' = written st ++ List.filter survives rows
  /\ planet_names st' = list_to_set (names_of (List.filter survives rows)) ∪ planet_names st.
Proof.
  induction rows as [|row rows IH]; intros st st'; cbn [for_rows].
  - intros Heq; injection Heq as <-. cbn. rewrite app_nil_r.
    repeat split; try lia. set_solver.
  - destruct (filter_row st row) as [st1|] eqn:Hrow; [|discriminate].
    cbn [mbind result_bind].
    intros Hrest. apply IH in Hrest as (Ht & Hd & Ho & Hw & Hn).
    apply filter_row_inv in Hrow as (Ht1 & Hd1 & Ho1 & Hw1 & Hn1).
    rewrite Ht, Hd, Ho, Hw, Hn, Ht1, Hd1, Ho1, Hw1, Hn1.
    unfold bump. cbn [List.filter].
    destruct (is_default row), (survives row); cbn [length app];
      rewrite <- ?app_assoc; try rewrite (names_of_cons row (List.filter survives rows));
      cbn [app];
      change (list_to_set (C := gset string) (names_of [])) with (∅ : gset string);
      generalize (list_to_set (C := gset string) (names_of (List.filter survives rows)));
      generalize (list_to_set (C := gset string) (names_of [row]));
      generalize (planet_names st); intros X Y Z;
      clear; repeat split; try lia; set_solver.
Qed.

Lemma for_rows_filter_ok rows : forall st,
  Forall (fun row => bookkeeping_ok row = true) rows ->
  exists st', for_rows filter_row st rows = Ok st'.
Proof.
  induction rows as [|row rows IH]; intros st Hall; cbn [for_rows]; [eauto|].
  inversion Hall as [|? ? Hrow Hrest]; subst.
  destruct (filter_row_ok st row Hrow) as [st1 ->]. cbn. auto.
Qed.


Lemma filter_sublist {A : Type} (f : A -> bool) (l : list A) :
  sublist (List.filter f l) l.
Proof.
  induction l as [|x l IH]; cbn; [constructor|].
  destruct (f x); now constructor.
Qed.

Lemma survives_iff row :
  survives row = true <->
  row !! "default_flag" = Some "1" /\ row !! "pl_controv_flag" <> Some "1".
Proof.
  unfold survives, is_default, is_controversial.
  rewrite andb_true_iff, negb_true_iff, bool_decide_eq_true, bool_decide_eq_false.
  reflexivity.
Qed.

(** The whole script on rows its bookkeeping accepts. *)
Lemma extract_defaults_result rows :
  Forall (fun row => bookkeeping_ok row = true) rows ->
  exists st,
    extract_defaults rows = Ok (st, duplicate_check st)
    /\ rows_default st = length (List.filter is_default rows)
    /\ rows_output st = length (List.filter survives rows)
    /\ written st = List.filter survives rows
    /\ planet_names st = list_to_set (names_of (List.filter survives rows)).
Proof.
  intros Hall. unfold extract_defaults.
  destruct (for_rows_filter_ok rows initial Hall) as [st Hst]. rewrite Hst.
  exists st. split; [reflexivity|].
  apply for_rows_filter_inv in Hst as (_ & Hd & Ho & Hw & Hn).
  cbn in Hd, Ho, Hw, Hn. rewrite Hd, Ho, Hw, Hn. repeat split.
  rewrite (right_id_L ∅ (∪)). reflexivity.
Qed.

(** C1.  For every raw catalog row (of a catalog whose rows the script's
    bookkeeping accepts), the row is in the Selector's output if and only
    if its canonical-default flag is the text "1" and its controversy flag
    is not the text "1"; the output is the input with the other rows
    removed, so the surviving rows keep their relative order. *)
Theorem selector_keeps_default_rows_in_order (rows : list (gmap string string)) :
  Forall (fun row => bookkeeping_ok row = true) rows ->
  exists st msgs,
    extract_defaults rows = Ok (st, msgs)
    /\ written st = List.filter survives rows
    /\ (forall row,
          In row (written st) <->
          In row rows /\ row !! "default_flag" = Some "1"
          /\ row !! "pl_controv_flag" <> Some "1")
    /\ sublist (written st) rows.
Proof.
  intros Hall.
  destruct (extract_defaults_result rows Hall) as (st & Hrun & _ & _ & Hw & _).
  exists st, (duplicate_check st). split; [exact Hrun|].
  split; [exact Hw|]. rewrite Hw. split.
  - intros row. rewrite filter_In, survives_iff. reflexivity.
  - apply filter_sublist.
Qed.

(** C8, as the code has it.  The Selector prints its integrity warning if
    and only if the count of rows it wrote (default flag "1" and not
    controversial) differs from the count of distinct entity names among
    them; the count of rows matching the default flag plays no part.  With
    or without the warning the script ends normally, and its output is the
    rows that passed the filter. *)
Theorem selector_warning_compares_written_rows (rows : list (gmap string string)) :
  Forall (fun row => bookkeeping_ok row = true) rows ->
  exists st msgs,
    extract_defaults rows = Ok (st, msgs)
    /\ (msgs <> [] <->
        length (List.filter survives rows)
        <> size (list_to_set (C := gset string) (names_of (List.filter survives rows))))
    /\ (msgs = [] \/ msgs = [Warning_row_count (rows_output st) (size (planet_names st))])
    /\ written st = List.filter survives rows.
Proof.
  intros Hall.
  destruct (extract_defaults_result rows Hall) as (st & Hrun & _ & Ho & Hw & Hn).
  exists st, (duplicate_check st). split; [exact Hrun|].
  unfold duplicate_check. rewrite <- Ho, <- Hn.
  destruct (Nat.eqb_spec (rows_output st) (size (planet_names st))) as [Heq|Hne]; cbn.
  - repeat split; auto; intros H; contradiction.
  - repeat split; auto; intros H; discriminate.
Qed.

End Selector.

(** A small raw catalog: a default row, an alternative parameter set, a
    controversial default row, and a second default row for the first
    planet. *)
Definition raw_example : list (gmap string string) :=
  [ list_to_map [("pl_name", "Kepler-22 b"); ("default_flag", "1");
                 ("pl_controv_flag", "0"); ("discoverymethod", "Transit");
                 ("disc_year", "2011")];
    list_to_map [("pl_name", "Kepler-22 b"); ("default_flag", "0");
                 ("pl_controv_flag", "0"); ("disc_year", "2011")];
    list_to_map [("pl_name", "Kepler-452 b"); ("default_flag", "1");
                 ("pl_controv_flag", "1"); ("disc_year", "2015")];
    list_to_map [("pl_name", "Kepler-22 b"); ("default_flag", "1");
                 ("pl_controv_flag", "0"); ("disc_year", "")] ].

Lemma raw_example_ok :
  Forall (fun row => bookkeeping_ok (RT := RefRuntime.ref) row = true) raw_example.
Proof. repeat constructor. Qed.

(** C1 on [raw_example]. *)
Lemma selector_keeps_default_rows_in_order_witness :
  Forall (fun row => bookkeeping_ok (RT := RefRuntime.ref) row = true) raw_example
  /\ exists st msgs,
       ExtractDefaults.extract_defaults (RT := RefRuntime.ref) raw_example = Ok (st, msgs)
       /\ ExtractDefaults.written st = List.filter survives raw_example
       /\ (forall row,
             In row (ExtractDefaults.written st) <->
             In row raw_example /\ row !! "default_flag" = Some "1"
             /\ row !! "pl_controv_flag" <> Some "1")
       /\ sublist (ExtractDefaults.written st) raw_example.
Proof.
  split; [exact raw_example_ok|].
  apply (selector_keeps_default_rows_in_order (RT := RefRuntime.ref) raw_example).
  exact raw_example_ok.
Defined.

(** C8 on [raw_example]. *)
Lemma selector_warning_compares_written_rows_witness :
  Forall (fun row => bookkeeping_ok (RT := RefRuntime.ref) row = true) raw_example
  /\ exists st msgs,
       ExtractDefaults.extract_defaults (RT := RefRuntime.ref) raw_example = Ok (st, msgs)
       /\ (msgs <> [] <->
           length (List.filter survives raw_example)
           <> size (list_to_set (C := gset string)
                      (names_of (List.filter survives raw_example))))
       /\ (msgs = [] \/
           msgs = [ExtractDefaults.Warning_row_count (ExtractDefaults.rows_output st)
                     (size (ExtractDefaults.planet_names st))])
       /\ ExtractDefaults.written st = List.filter survives raw_example.
Proof.
  split; [exact raw_example_ok|].
  apply (selector_warning_compares_written_rows (RT := RefRuntime.ref) raw_example).
  exact raw_example_ok.
Defined.

(** On [raw_example] the script writes the first and the last row and warns
    that two rows name one planet. *)
Example extract_defaults_raw_example :
  (r ← ExtractDefaults.extract_defaults (RT := RefRuntime.ref) raw_example;
   Ok (names_of (ExtractDefaults.written r.1), ExtractDefaults.rows_default r.1, r.2))
  = Ok (["Kepler-22 b"; "Kepler-22 b"], 3%nat, [ExtractDefaults.Warning_row_count 2 1]).
Proof. vm_compute. reflexivity. Qed.

(** C8 as the claim words it fails.  Two default rows for one planet, the
    second controversial: two rows match the default flag and there is one
    distinct identity (among the default rows, and among the rows written),
    yet no warning is printed, since one row is written. *)
Definition two_default_rows : list (gmap string string) :=
  [ list_to_map [("pl_name", "Kepler-452 b"); ("default_flag", "1");
                 ("pl_controv_flag", "0")];
    list_to_map [("pl_name", "Kepler-452 b"); ("default_flag", "1");
                 ("pl_controv_flag", "1")] ].

Lemma selector_warning_ignores_default_count :
  (r ← ExtractDefaults.extract_defaults (RT := RefRuntime.ref) two_default_rows;
   Ok (ExtractDefaults.rows_default r.1,
       size (ExtractDefaults.planet_names r.1),
       size (list_to_set (C := gset string)
               (names_of (List.filter is_default two_default_rows))),
       r.2))
  = Ok (2%nat, 1%nat, 1%nat, []).
Proof. vm_compute. reflexivity. Qed.

(** * Step 2: the Normalizer/Classifier *)

Section NormalizerInput.
Context {RT : Runtime}.
Import SelectAndClean.

(** The row's period, as the script parses it. *)
Definition period_of (row : gmap string string) : option float :=
  parse_float (row !! "pl_orbper").

Definition has_period (row : gmap string string) : bool :=
  bool_decide (period_of row <> None).

(** The separation of lines 192-196: the observed one, or else the one
    derived from the period. *)
Definition separation_of (row : gmap string string) : result (option pynum) :=
  match parse_float (row !! "pl_orbsmax") with
  | None =>
      calculate_separation (period_of row) (or_one (parse_float (row !! "st_mass")))
  | Some a => Ok (Some (PFloat a))
  end.

(** The planet type of line 211. *)
Definition type_of (row : gmap string string) : result string :=
  classify_planet (parse_float (row !! "pl_bmasse")) (parse_float (row !! "pl_rade"))
                  (period_of row).

(** The specification's formula for a derived separation:
    [(period_years^2 * starMass)^(1/3)] with
    [period_years = period_days / 365.25], written with Python's operators
    [**] and [*]; [kepler_formula] below gives it in the C library's
    terms. *)
Definition kepler_separation (period_days star_mass : float) : result pynum :=
  let period_years := (period_days / 365.25)%float in
  squared ← float_pow period_years 2;
  num_pow (num_mul squared star_mass) (1 / 3)%float.

(** C's [pow(x, y)] as the formula needs it: on a base that is not negative,
    with a positive exponent that is not an odd integer (2 and 1/3).  Its
    values at a NaN, at infinity, at zero and at one are those of the C
    standard (Annex F); CPython decides them itself and asks the library
    for the others. *)
Definition std_pow (x y : float) : float :=
  if is_nan x then x
  else if is_infinity x then x
  else if (x =? 0)%float then 0%float
  else if (x =? 1)%float then 1%float
  else libm_pow x y.

(** Python's range check on it: an infinite power of a finite base is an
    [OverflowError]. *)
Definition checked_pow (x y : float) : result float :=
  let r := std_pow x y in
  if is_infinity r && negb (is_infinity x) then Raise OverflowError else Ok r.

(** The star mass of the formula: the host star's mass when it is known and
    not zero, and 1.0 otherwise. *)
Definition star_mass_or_one (star_mass : option float) : float :=
  match star_mass with
  | Some m => if (m =? 0)%float then 1%float else m
  | None => 1%float
  end.

(** The formula [(period_years^2 * starMass)^(1/3)] with
    [period_years = period_days / 365.25], in the C library's terms: the
    square is that of the size of [period_years]; the product is the
    floats' product; of a product that is negative and finite Python takes
    the cube root as a complex number, of any other the root is C's [pow]
    of its size. *)
Definition kepler_formula (period_days star_mass : float) : result pynum :=
  let period_years := (period_days / 365.25)%float in
  squared ← checked_pow (abs period_years) 2;
  let product := (squared * star_mass)%float in
  if (product <? 0)%float && negb (is_infinity product)
  then z ← complex_pow product 0 (1 / 3); Ok (PComplex z.1 z.2)
  else root ← checked_pow (abs product) (1 / 3); Ok (PFloat root).

(** [c] is the record written for [row]. *)
Definition written_for (row : gmap string string) (c : clean_record) : Prop :=
  period c = period_of row
  /\ separation_of row = Ok (separation c)
  /\ type_of row = Ok (planetType c)
  /\ name c = default "" (row !! "pl_name")
  /\ hostStar c = default "" (row !! "hostname")
  /\ discoveryYear c = default "" (row !! "disc_year")
  /\ mass c = parse_float (row !! "pl_bmasse")
  /\ radius c = parse_float (row !! "pl_rade")
  /\ temperature c = parse_float (row !! "pl_eqt").

End NormalizerInput.

Section Normalizer.
Context {RT : Runtime}.
Import SelectAndClean.

(** A row without a period is skipped and counted, whatever else it holds. *)
Lemma clean_row_skip st row :
  period_of row = None ->
  clean_row st row =
  Ok {| st_stats :=
          {| total := S (total (st_stats st));
             missing_period := S (missing_period (st_stats st));
             missing_mass := missing_mass (st_stats st);
             missing_radius := missing_radius (st_stats st);
             calculated_separation := calculated_separation (st_stats st) |};
        detection_methods := detection_methods st;
        planet_types := planet_types st;
        written := written st |}.
Proof.
  unfold period_of, clean_row. intros ->. reflexivity.
Qed.

(** A row with a period is written, unless deriving the separation or
    classifying raises. *)
Lemma clean_row_write st row sep ty :
  has_period row = true ->
  separation_of row = Ok sep ->
  type_of row = Ok ty ->
  exists st' c,
    clean_row st row = Ok st'
    /\ written st' = written st ++ [c]
    /\ written_for row c
    /\ total (st_stats st') = S (total (st_stats st))
    /\ missing_period (st_stats st') = missing_period (st_stats st).
Proof.
  unfold written_for, has_period, separation_of, type_of, period_of, clean_row.
  intros Hp%bool_decide_eq_true Hsep Hty.
  destruct (parse_float (row !! "pl_orbper")) as [p|] eqn:Hper; [|contradiction].
  cbn [bool_decide decide_rel]. rewrite bool_decide_eq_false_2 by discriminate.
  destruct (parse_float (row !! "pl_orbsmax")) as [a|] eqn:Ha.
  - injection Hsep as <-. cbn [mbind result_bind]. rewrite Hty. cbn [mbind result_bind].
    eexists _, _. split; [reflexivity|]. cbn. repeat split; reflexivity.
  - rewrite Hsep. cbn [mbind result_bind]. rewrite Hty. cbn [mbind result_bind].
    eexists _, _. split; [reflexivity|]. cbn. repeat split; try reflexivity.
Qed.

(** What one turn of the loop can have done. *)
Lemma clean_row_inv st row st' :
  clean_row st row = Ok st' ->
  total (st_stats st') = S (total (st_stats st))
  /\ ((has_period row = false
       /\ written st' = written st
       /\ missing_period (st_stats st') = S (missing_period (st_stats st)))
      \/ (has_period row = true
          /\ missing_period (st_stats st') = missing_period (st_stats st)
          /\ exists c, written st' = written st ++ [c] /\ written_for row c)).
Proof.
  intros Hrun. destruct (has_period row) eqn:Hp.
  - destruct (separation_of row) as [sep|e] eqn:Hsep.
    + destruct (type_of row) as [ty|e] eqn:Hty.
      * destruct (clean_row_write st row sep ty Hp Hsep Hty)
          as (st1 & c & Hrun1 & Hw & Hc & Ht & Hm).
        rewrite Hrun in Hrun1. injection Hrun1 as <-.
        split; [exact Ht|]. right. eauto.
      * exfalso. revert Hrun Hp Hsep Hty.
        unfold has_period, separation_of, type_of, period_of, clean_row.
        intros Hrun Hp%bool_decide_eq_true Hsep Hty.
        rewrite bool_decide_eq_false_2 in Hrun by exact Hp.
        destruct (parse_float (row !! "pl_orbsmax")).
        -- cbn [mbind result_bind] in Hrun. rewrite Hty in Hrun. discriminate.
        -- rewrite Hsep in Hrun. cbn [mbind result_bind] in Hrun.
           rewrite Hty in Hrun. discriminate.
    + exfalso. revert Hrun Hp Hsep.
      unfold has_period, separation_of, period_of, clean_row.
      intros Hrun Hp%bool_decide_eq_true Hsep.
      rewrite bool_decide_eq_false_2 in Hrun by exact Hp.
      destruct (parse_float (row !! "pl_orbsmax")); [discriminate|].
      rewrite Hsep in Hrun. discriminate.
  - apply bool_decide_eq_false in Hp. apply dec_stable in Hp.
    rewrite (clean_row_skip st row Hp) in Hrun. injection Hrun as <-. cbn.
    split; [reflexivity|]. left. auto.
Qed.

(** The loop invariant. *)
Lemma for_rows_clean_inv rows : forall st st',
  for_rows clean_row st rows = Ok st' ->
  total (st_stats st') = (total (st_stats st) + length rows)%nat
  /\ missing_period (st_stats st')
     = (missing_period (st_stats st)
        + length (List.filter (fun row => negb (has_period row)) rows))%nat
  /\ exists cs,
       written st' = written st ++ cs
       /\ Forall2 written_for (List.filter has_period rows) cs.
Proof.
  induction rows as [|row rows IH]; intros st st'; cbn [for_rows].
  - intros Heq; injection Heq as <-. cbn. repeat split; try lia.
    exists []. rewrite app_nil_r. split; [reflexivity|constructor].
  - destruct (clean_row st row) as [st1|] eqn:Hrow; [|discriminate].
    cbn [mbind result_bind]. intros Hrest.
    apply IH in Hrest as (Ht & Hm & cs & Hw & Hcs).
    apply clean_row_inv in Hrow as (Ht1 & [(Hp & Hw1 & Hm1)|(Hp & Hm1 & c & Hw1 & Hc)]);
      cbn [List.filter]; rewrite Hp; cbn [negb length].
    + rewrite Ht, Hm, Ht1, Hm1. repeat split; try lia.
      exists cs. rewrite Hw, Hw1. auto.
    + rewrite Ht, Hm, Ht1, Hm1. repeat split; try lia.
      exists (c :: cs). rewrite Hw, Hw1, <- app_assoc. split; [reflexivity|].
      constructor; assumption.
Qed.

End Normalizer.

Section NormalizerClaims.
Context {RT : Runtime}.
Import SelectAndClean.

(** C2.  Every record the Normalizer/Classifier writes has its period
    present; every row whose period parses as absent is skipped, whatever
    the row holds otherwise, and adds one to the "missing period" counter,
    so the records written are those of the rows with a period, in order,
    and the counter ends at the number of rows without one. *)
Theorem clean_records_have_a_period (rows : list (gmap string string)) (st : state) :
  select_and_clean rows = Ok st ->
  Forall (fun c => period c <> None) (written st)
  /\ Forall2 written_for (List.filter has_period rows) (written st)
  /\ missing_period (st_stats st)
     = length (List.filter (fun row => negb (has_period row)) rows)
  /\ (forall st0 row,
        period_of row = None ->
        exists st1,
          clean_row st0 row = Ok st1
          /\ written st1 = written st0
          /\ missing_period (st_stats st1) = S (missing_period (st_stats st0))).
Proof.
  unfold select_and_clean. intros Hrun.
  apply for_rows_clean_inv in Hrun as (_ & Hm & cs & Hw & Hcs).
  cbn in Hw, Hm. subst cs. repeat split.
  - assert (Hall : Forall (fun row => has_period row = true) (List.filter has_period rows)).
    { apply List.Forall_forall. intros row [_ Hrow]%filter_In. exact Hrow. }
    clear Hm. induction Hcs as [|row c rows' cs Hc _ IH]; constructor.
    + destruct Hc as (Hp & _). inversion Hall as [|? ? Hrow _]; subst.
      unfold has_period in Hrow. apply bool_decide_eq_true in Hrow. congruence.
    + apply IH. inversion Hall; assumption.
  - exact Hcs.
  - exact Hm.
  - intros st0 row Hnone. eexists. split; [apply clean_row_skip; exact Hnone|].
    cbn. split; reflexivity.
Qed.


(** C9.  The detection-method mapping takes the method and the facility.
    With the method "Transit" the facility decides: "Kepler" gives
    [transit-kepler], "TESS" gives [transit-other].  "Radial Velocity"
    gives [radial-velocity] and "Pulsar Timing" gives [other], whatever
    the facility (a text or [None]); indeed the facility is looked at for
    no method but "Transit". *)
Theorem detection_method_mapping :
  map_detection_method (Some "Transit") (Some "Kepler") = "transit-kepler"
  /\ map_detection_method (Some "Transit") (Some "TESS") = "transit-other"
  /\ (forall facility,
        map_detection_method (Some "Radial Velocity") facility = "radial-velocity")
  /\ (forall facility, map_detection_method (Some "Pulsar Timing") facility = "other")
  /\ (forall method facility facility',
        method <> Some "Transit" ->
        map_detection_method method facility = map_detection_method method facility').
Proof.
  split; [reflexivity|]. split; [reflexivity|].
  split; [intros facility; reflexivity|].
  split; [intros facility; reflexivity|].
  intros method facility facility' Hm. unfold map_detection_method.
  rewrite bool_decide_eq_false_2 by exact Hm. reflexivity.
Qed.

(** The separation of a row that has none in the catalog is
    [calculate_separation] of its period, which is the specification's
    formula. *)
Lemma calculate_separation_kepler p star_mass :
  calculate_separation (Some p) star_mass
  = (a ← kepler_separation p star_mass; Ok (Some a)).
Proof.
  unfold calculate_separation, kepler_separation.
  destruct (float_pow (p / 365.25)%float 2) as [sq|e]; [|reflexivity].
  cbn [mbind result_bind]. reflexivity.
Qed.

(** [star_mass or 1.0] is the star's mass when it is known and not zero. *)
Lemma or_one_default star_mass :
  star_mass = None \/ opt_truthy star_mass = true ->
  or_one star_mass = default 1%float star_mass.
Proof.
  intros [->|H]; [reflexivity|].
  destruct star_mass as [m|]; [|discriminate]. cbn in *. rewrite H. reflexivity.
Qed.

(** A star mass of zero is replaced by 1.0 as well. *)
Example star_mass_zero_counts_as_unknown :
  or_one (Some 0%float) = 1%float /\ or_one (Some (-0)%float) = 1%float.
Proof. split; reflexivity. Qed.

(** Floats and their absolute value. *)

Lemma SFcompare_finite_refl s m e :
  SFcompare (S754_finite s m e) (S754_finite s m e) = Some Eq.
Proof.
  destruct s; cbn [SFcompare]; rewrite Z.compare_refl, Pos.compare_cont_refl;
    reflexivity.
Qed.

Lemma is_nan_Prim2SF x : is_nan x = true <-> Prim2SF x = S754_nan.
Proof.
  unfold is_nan. rewrite FloatAxioms.eqb_spec. unfold SFeqb.
  destruct (Prim2SF x) as [s|s| |s m e].
  - destruct s; cbn; split; discriminate.
  - destruct s; cbn; split; discriminate.
  - cbn. split; reflexivity.
  - rewrite SFcompare_finite_refl. cbn. split; discriminate.
Qed.

Lemma Prim2SF_inj x y : Prim2SF x = Prim2SF y -> x = y.
Proof.
  intros H. rewrite <- (FloatAxioms.SF2Prim_Prim2SF x), <- (FloatAxioms.SF2Prim_Prim2SF y), H.
  reflexivity.
Qed.

Lemma abs_of_nan x : is_nan x = true -> abs x = x.
Proof.
  intros H%is_nan_Prim2SF. apply Prim2SF_inj.
  rewrite FloatAxioms.abs_spec, H. reflexivity.
Qed.

Lemma is_nan_abs x : is_nan (abs x) = is_nan x.
Proof.
  unfold is_nan. rewrite !FloatAxioms.eqb_spec, FloatAxioms.abs_spec. unfold SFeqb.
  destruct (Prim2SF x) as [s|s| |s m e]; try (destruct s; reflexivity); try reflexivity.
  cbn [SFabs]. rewrite !SFcompare_finite_refl. reflexivity.
Qed.

Lemma is_infinity_abs x : is_infinity (abs x) = is_infinity x.
Proof.
  unfold is_infinity. rewrite !FloatAxioms.eqb_spec, !FloatAxioms.abs_spec.
  destruct (Prim2SF x) as [s|s| |s m e]; reflexivity.
Qed.

Lemma eqb_zero_abs x : (abs x =? 0)%float = (x =? 0)%float.
Proof.
  rewrite !FloatAxioms.eqb_spec, FloatAxioms.abs_spec.
  change (Prim2SF 0) with (S754_zero false).
  destruct (Prim2SF x) as [s|s| |s m e]; try (destruct s; reflexivity); reflexivity.
Qed.

Lemma nan_not_infinity x : is_nan x = true -> is_infinity x = false.
Proof.
  intros H%is_nan_Prim2SF. unfold is_infinity.
  rewrite FloatAxioms.eqb_spec, FloatAxioms.abs_spec, H. reflexivity.
Qed.

Lemma nan_not_below_zero x : is_nan x = true -> (x <? 0)%float = false.
Proof.
  intros H%is_nan_Prim2SF. rewrite FloatAxioms.ltb_spec, H. reflexivity.
Qed.

Lemma zero_not_below_zero x : (x =? 0)%float = true -> (x <? 0)%float = false.
Proof.
  rewrite FloatAxioms.eqb_spec, FloatAxioms.ltb_spec.
  change (Prim2SF 0) with (S754_zero false).
  destruct (Prim2SF x) as [s|s| |s m e]; try (destruct s; cbn; congruence); cbn; congruence.
Qed.

(** Python's [y ** 2] is the checked square of the size of [y]. *)
Lemma float_pow_square y :
  float_pow y 2 = (s ← checked_pow (abs y) 2; Ok (PFloat s)).
Proof.
  unfold float_pow, checked_pow, std_pow.
  change ((2 =? 0)%float) with false. change (is_nan 2) with false.
  change (is_infinity 2) with false. change ((0 <? 2)%float) with true.
  change ((2 <? 0)%float) with false.
  change (float_is_odd_integer 2) with false. change (float_is_integer 2) with true.
  cbn [negb]. rewrite andb_false_r.
  rewrite is_nan_abs, is_infinity_abs, eqb_zero_abs.
  destruct (is_nan y) eqn:Hnan.
  { rewrite (abs_of_nan y Hnan), (nan_not_infinity y Hnan). reflexivity. }
  destruct (is_infinity y) eqn:Hinf.
  { rewrite is_infinity_abs, Hinf. reflexivity. }
  destruct (y =? 0)%float eqn:Hz; [reflexivity|].
  destruct (abs y =? 1)%float eqn:H1; [reflexivity|].
  cbn [negb]. rewrite andb_true_r.
  destruct (is_infinity (libm_pow (abs y) 2)); reflexivity.
Qed.

(** Python's [x ** (1/3)]: complex for a negative finite [x], and the
    checked cube root of the size of [x] otherwise. *)
Lemma float_pow_cube_root x :
  float_pow x (1 / 3)
  = if (x <? 0)%float && negb (is_infinity x)
    then z ← complex_pow x 0 (1 / 3); Ok (PComplex z.1 z.2)
    else root ← checked_pow (abs x) (1 / 3); Ok (PFloat root).
Proof.
  unfold float_pow, checked_pow, std_pow.
  change ((1 / 3 =? 0)%float) with false. change (is_nan (1 / 3)) with false.
  change (is_infinity (1 / 3)) with false. change ((0 <? 1 / 3)%float) with true.
  change ((1 / 3 <? 0)%float) with false.
  change (float_is_odd_integer (1 / 3)) with false.
  change (float_is_integer (1 / 3)) with false.
  cbn [negb]. rewrite !andb_false_r, andb_true_r.
  rewrite is_nan_abs, is_infinity_abs, eqb_zero_abs.
  destruct (is_nan x) eqn:Hnan.
  { rewrite (nan_not_below_zero x Hnan), (abs_of_nan x Hnan), (nan_not_infinity x Hnan).
    reflexivity. }
  destruct (is_infinity x) eqn:Hinf.
  { rewrite andb_false_r, is_infinity_abs, Hinf. reflexivity. }
  cbn [negb]. rewrite andb_true_r.
  destruct (x =? 0)%float eqn:Hz.
  { rewrite (zero_not_below_zero x Hz). reflexivity. }
  destruct (x <? 0)%float eqn:Hneg; [reflexivity|].
  destruct (abs x =? 1)%float eqn:H1; [reflexivity|].
  cbn [negb]. rewrite andb_true_r.
  destruct (is_infinity (libm_pow (abs x) (1 / 3))); reflexivity.
Qed.

(** The code's derivation is the formula. *)
Lemma calculate_separation_formula p star_mass :
  calculate_separation (Some p) star_mass
  = (a ← kepler_formula p star_mass; Ok (Some a)).
Proof.
  unfold calculate_separation, kepler_formula.
  rewrite float_pow_square.
  destruct (checked_pow (abs (p / 365.25)) 2) as [s|e]; [|reflexivity].
  cbn [mbind result_bind num_mul num_pow].
  rewrite float_pow_cube_root.
  destruct ((s * star_mass <? 0)%float && negb (is_infinity (s * star_mass))).
  - destruct (complex_pow (s * star_mass) 0 (1 / 3)) as [z|e]; reflexivity.
  - destruct (checked_pow (abs (s * star_mass)) (1 / 3)) as [r|e]; reflexivity.
Qed.

(** So the formula written with Python's operators is the formula in the C
    library's terms. *)
Lemma kepler_separation_formula p star_mass :
  kepler_separation p star_mass = kepler_formula p star_mass.
Proof.
  pose proof (calculate_separation_formula p star_mass) as H.
  rewrite calculate_separation_kepler in H.
  destruct (kepler_separation p star_mass), (kepler_formula p star_mass);
    cbn in H; congruence.
Qed.

(** [star_mass or 1.0] is the star mass of the formula. *)
Lemma or_one_star_mass star_mass : or_one star_mass = star_mass_or_one star_mass.
Proof.
  unfold or_one, star_mass_or_one, float_truthy.
  destruct star_mass as [m|]; [|reflexivity]. destruct (m =? 0)%float; reflexivity.
Qed.

(** C4, as the code has it.  For a row with no separation and with a
    period [p], the separation the script derives is the formula
    [(period_years^2 * starMass)^(1/3)] with [period_years = p / 365.25],
    where [starMass] is the host star's mass when that is known and not
    zero, and 1.0 otherwise, so also for a star mass given as zero.  The
    formula is taken in the C library's terms, [kepler_formula].  When the
    formula raises, the script stops with that exception; when it gives a
    number, the script writes a record with that separation, unless the
    classifier raises.  And for a period of 365.25 days and a star mass of
    1.0 the formula gives exactly 1.0, whatever the C library's [pow]. *)
Theorem separation_derived_by_kepler (st : state) (row : gmap string string) (p : float) :
  parse_float (row !! "pl_orbsmax") = None ->
  period_of row = Some p ->
  match kepler_formula p (star_mass_or_one (parse_float (row !! "st_mass"))) with
  | Raise e => clean_row st row = Raise e
  | Ok a =>
      match type_of row with
      | Raise e => clean_row st row = Raise e
      | Ok _ =>
          exists st' c,
            clean_row st row = Ok st'
            /\ written st' = written st ++ [c]
            /\ separation c = Some a
      end
  end
  /\ kepler_formula 365.25 1 = Ok (PFloat 1).
Proof.
  intros Hsep Hper. split; [|reflexivity].
  unfold period_of in Hper. unfold type_of, period_of, clean_row.
  rewrite Hsep, Hper, bool_decide_eq_false_2 by discriminate.
  rewrite calculate_separation_formula, or_one_star_mass.
  destruct (kepler_formula p _) as [a|e]; [|reflexivity].
  cbn [mbind result_bind].
  destruct (classify_planet _ _ (Some p)) as [ty|e]; [|reflexivity].
  cbn [mbind result_bind]. eexists _, _. split; [reflexivity|]. split; reflexivity.
Qed.

(** C3, as the code has it.  For a radius of 3 and no mass the classifier
    first estimates the mass, [3 ** 2.1 * 2]; with a C library whose
    [pow(3, 2.1)] is the correctly rounded power or a neighbour of it,
    that is about 20.09, the rule for 10 <= mass < 50 applies, and the
    answer is [neptune-like]: the radius rule comes after it. *)
Theorem radius_three_is_neptune_like :
  In (libm_pow 3 2.1)
     [0x1.417187852199cp+3; 0x1.417187852199dp+3; 0x1.417187852199ep+3]%float ->
  classify_planet None (Some 3%float) (Some 50%float) = Ok "neptune-like"
  /\ exists m,
       (v ← float_pow 3 2.1; Ok (num_mul v 2)) = Ok (PFloat m)
       /\ (10 <=? m)%float = true /\ (m <? 50)%float = true.
Proof.
  intros H. split.
  - vm_compute.
    destruct H as [H|[H|[H|[]]]]; vm_compute in H; rewrite <- H; vm_compute; reflexivity.
  - destruct H as [H|[H|[H|[]]]].
    + exists (0x1.417187852199cp+3 * 2)%float.
      split; [|split; vm_compute; reflexivity].
      vm_compute. vm_compute in H. rewrite <- H. vm_compute. reflexivity.
    + exists (0x1.417187852199dp+3 * 2)%float.
      split; [|split; vm_compute; reflexivity].
      vm_compute. vm_compute in H. rewrite <- H. vm_compute. reflexivity.
    + exists (0x1.417187852199ep+3 * 2)%float.
      split; [|split; vm_compute; reflexivity].
      vm_compute. vm_compute in H. rewrite <- H. vm_compute. reflexivity.
Qed.

End NormalizerClaims.

(** *** The Normalizer/Classifier on the reference runtime *)

(** Rows as step 1 hands them over: a transiting planet of 2.38 Earth radii, a row without
    a period, a planet on a one-year orbit whose separation and star mass
    are not given, and a row whose period is the number zero. *)
Definition catalog_example : list (gmap string string) :=
  [ list_to_map [("pl_name", "Kepler-22 b"); ("hostname", "Kepler-22");
                 ("pl_orbper", "289.8623"); ("pl_orbsmax", "0.849");
                 ("pl_rade", "2.38"); ("pl_bmasse", ""); ("st_mass", "0.97");
                 ("discoverymethod", "Transit"); ("disc_facility", "Kepler");
                 ("disc_year", "2011")];
    list_to_map [("pl_name", "OGLE-2016-BLG-1928L b"); ("hostname", "OGLE-2016-BLG-1928L");
                 ("pl_orbper", ""); ("pl_orbsmax", ""); ("pl_bmasse", "0.3");
                 ("discoverymethod", "Microlensing"); ("disc_year", "2020")];
    list_to_map [("pl_name", "Twin b"); ("hostname", "Twin");
                 ("pl_orbper", "365.25"); ("pl_orbsmax", ""); ("pl_rade", "");
                 ("pl_bmasse", "1.0"); ("st_mass", "");
                 ("discoverymethod", "Radial Velocity"); ("disc_year", "1995")];
    list_to_map [("pl_name", "Null b"); ("hostname", "Null");
                 ("pl_orbper", "0"); ("pl_orbsmax", "0.05"); ("pl_rade", "1.2");
                 ("pl_bmasse", ""); ("discoverymethod", "Transit");
                 ("disc_facility", "TESS"); ("disc_year", "2021")] ].

(** The state step 2 ends in on [catalog_example]. *)
Definition catalog_example_state : SelectAndClean.state :=
  value_or SelectAndClean.initial
    (SelectAndClean.select_and_clean (RT := RefRuntime.ref) catalog_example).

Lemma catalog_example_run :
  SelectAndClean.select_and_clean (RT := RefRuntime.ref) catalog_example
  = Ok catalog_example_state.
Proof. vm_compute. reflexivity. Qed.

(** What step 2 writes for [catalog_example]: three records, each with its
    period, the second with the separation derived from it. *)
Example select_and_clean_catalog_example :
  map (fun c => (SelectAndClean.name c, SelectAndClean.period c,
                 SelectAndClean.separation c, SelectAndClean.planetType c))
      (SelectAndClean.written catalog_example_state)
  = [ ("Kepler-22 b", Some 289.8623%float, Some (PFloat 0.849%float), "neptune-like");
      ("Twin b", Some 365.25%float, Some (PFloat 1%float), "rocky");
      ("Null b", Some 0%float, Some (PFloat 0.05%float), "rocky") ]
  /\ SelectAndClean.missing_period (SelectAndClean.st_stats catalog_example_state) = 1%nat.
Proof. vm_compute. split; reflexivity. Qed.

(** C2 on [catalog_example]. *)
Lemma clean_records_have_a_period_witness :
  SelectAndClean.select_and_clean (RT := RefRuntime.ref) catalog_example
  = Ok catalog_example_state
  /\ Forall (fun c => SelectAndClean.period c <> None)
            (SelectAndClean.written catalog_example_state)
  /\ Forall2 (written_for (RT := RefRuntime.ref))
             (List.filter (has_period (RT := RefRuntime.ref)) catalog_example)
             (SelectAndClean.written catalog_example_state)
  /\ SelectAndClean.missing_period (SelectAndClean.st_stats catalog_example_state)
     = length (List.filter (fun row => negb (has_period (RT := RefRuntime.ref) row))
                           catalog_example)
  /\ (forall st0 row,
        period_of (RT := RefRuntime.ref) row = None ->
        exists st1,
          SelectAndClean.clean_row (RT := RefRuntime.ref) st0 row = Ok st1
          /\ SelectAndClean.written st1 = SelectAndClean.written st0
          /\ SelectAndClean.missing_period (SelectAndClean.st_stats st1)
             = S (SelectAndClean.missing_period (SelectAndClean.st_stats st0))).
Proof.
  split; [exact catalog_example_run|].
  exact (clean_records_have_a_period (RT := RefRuntime.ref) catalog_example
           catalog_example_state catalog_example_run).
Defined.

(** The third row of [catalog_example], on a one-year orbit. *)
Definition twin_row : gmap string string :=
  list_to_map [("pl_name", "Twin b"); ("hostname", "Twin");
               ("pl_orbper", "365.25"); ("pl_orbsmax", ""); ("pl_rade", "");
               ("pl_bmasse", "1.0"); ("st_mass", "");
               ("discoverymethod", "Radial Velocity"); ("disc_year", "1995")].

Definition twin_state : SelectAndClean.state :=
  value_or SelectAndClean.initial
    (SelectAndClean.clean_row (RT := RefRuntime.ref) SelectAndClean.initial twin_row).

Lemma twin_row_run :
  SelectAndClean.clean_row (RT := RefRuntime.ref) SelectAndClean.initial twin_row
  = Ok twin_state.
Proof. vm_compute. reflexivity. Qed.

(** A planet on a two-year orbit around a star of two solar masses, its
    separation not given. *)
Definition heavy_star_row : gmap string string :=
  list_to_map [("pl_name", "Heavy b"); ("hostname", "Heavy");
               ("pl_orbper", "730.5"); ("pl_orbsmax", ""); ("pl_rade", "");
               ("pl_bmasse", "1.0"); ("st_mass", "2");
               ("discoverymethod", "Radial Velocity"); ("disc_year", "2001")].

(** The same orbit, with a star mass given as the number zero. *)
Definition zero_star_row : gmap string string :=
  list_to_map [("pl_name", "Heavy b"); ("hostname", "Heavy");
               ("pl_orbper", "730.5"); ("pl_orbsmax", ""); ("pl_rade", "");
               ("pl_bmasse", "1.0"); ("st_mass", "0");
               ("discoverymethod", "Radial Velocity"); ("disc_year", "2001")].

Definition zero_star_state : SelectAndClean.state :=
  value_or SelectAndClean.initial
    (SelectAndClean.clean_row (RT := RefRuntime.ref) SelectAndClean.initial zero_star_row).

(** C4 on [heavy_star_row]: the square of two years, times two solar
    masses, is eight, and its cube root is two. *)
Lemma separation_derived_by_kepler_witness :
  SelectAndClean.parse_float (RT := RefRuntime.ref) (heavy_star_row !! "pl_orbsmax") = None
  /\ period_of (RT := RefRuntime.ref) heavy_star_row = Some 730.5%float
  /\ kepler_formula (RT := RefRuntime.ref) 730.5
       (star_mass_or_one
          (SelectAndClean.parse_float (RT := RefRuntime.ref) (heavy_star_row !! "st_mass")))
     = Ok (PFloat 2)
  /\ (exists st' c,
        SelectAndClean.clean_row (RT := RefRuntime.ref) SelectAndClean.initial heavy_star_row
        = Ok st'
        /\ SelectAndClean.written st' = SelectAndClean.written SelectAndClean.initial ++ [c]
        /\ SelectAndClean.separation c = Some (PFloat 2))
  /\ kepler_formula (RT := RefRuntime.ref) 365.25 1 = Ok (PFloat 1).
Proof.
  assert (Hsep : SelectAndClean.parse_float (RT := RefRuntime.ref)
                   (heavy_star_row !! "pl_orbsmax") = None)
    by (vm_compute; reflexivity).
  assert (Hper : period_of (RT := RefRuntime.ref) heavy_star_row = Some 730.5%float)
    by (vm_compute; reflexivity).
  assert (Hf : kepler_formula (RT := RefRuntime.ref) 730.5
                 (star_mass_or_one
                    (SelectAndClean.parse_float (RT := RefRuntime.ref)
                       (heavy_star_row !! "st_mass")))
               = Ok (PFloat 2))
    by (vm_compute; reflexivity).
  assert (Hty : type_of (RT := RefRuntime.ref) heavy_star_row = Ok "rocky")
    by (vm_compute; reflexivity).
  destruct (separation_derived_by_kepler (RT := RefRuntime.ref)
              SelectAndClean.initial heavy_star_row 730.5 Hsep Hper) as [H H1].
  rewrite Hf, Hty in H.
  split; [exact Hsep|]. split; [exact Hper|]. split; [exact Hf|].
  split; [exact H|exact H1].
Defined.

(** C4 as the claim words it fails: of [zero_star_row] the star mass is
    known, it is the number zero, and the separation written is the cube
    root of four, the formula taken with one solar mass; with the known mass
    the formula gives zero. *)
Lemma zero_star_mass_is_replaced_by_one :
  SelectAndClean.parse_float (RT := RefRuntime.ref) (zero_star_row !! "pl_orbsmax") = None
  /\ period_of (RT := RefRuntime.ref) zero_star_row = Some 730.5%float
  /\ SelectAndClean.parse_float (RT := RefRuntime.ref) (zero_star_row !! "st_mass")
     = Some 0%float
  /\ SelectAndClean.clean_row (RT := RefRuntime.ref) SelectAndClean.initial zero_star_row
     = Ok zero_star_state
  /\ map SelectAndClean.separation (SelectAndClean.written zero_star_state)
     = [Some (PFloat 1.5874010519681994)]
  /\ kepler_formula (RT := RefRuntime.ref) 730.5
       (default 1%float
          (SelectAndClean.parse_float (RT := RefRuntime.ref) (zero_star_row !! "st_mass")))
     = Ok (PFloat 0)
  /\ kepler_formula (RT := RefRuntime.ref) 730.5 1 = Ok (PFloat 1.5874010519681994).
Proof. vm_compute. repeat split; reflexivity. Qed.

(** The formula on the reference runtime: a regular orbit, a star of
    negative mass (a complex root), a negative period (its square is that of
    its size), a square out of range, and an infinite period. *)
Example kepler_formula_values :
  kepler_formula (RT := RefRuntime.ref) 1000 0.5 = Ok (PFloat 1.5533280508358926)
  /\ kepler_formula (RT := RefRuntime.ref) 730.5 (-2)
     = Ok (PComplex 1.0000000000000002 1.7320508075688772)
  /\ kepler_formula (RT := RefRuntime.ref) (-730.5) 2 = Ok (PFloat 2)
  /\ kepler_formula (RT := RefRuntime.ref) 1e200 2 = Raise OverflowError
  /\ kepler_formula (RT := RefRuntime.ref) infinity 2 = Ok (PFloat infinity).
Proof. vm_compute. repeat split; reflexivity. Qed.

(** C3: the reference [pow(3, 2.1)] is the correctly rounded power. *)
Lemma radius_three_is_neptune_like_witness :
  In (libm_pow (Runtime := RefRuntime.ref) 3 2.1)
     [0x1.417187852199cp+3; 0x1.417187852199dp+3; 0x1.417187852199ep+3]%float
  /\ SelectAndClean.classify_planet (RT := RefRuntime.ref)
       None (Some 3%float) (Some 50%float) = Ok "neptune-like"
  /\ exists m,
       (v ← float_pow (RT := RefRuntime.ref) 3 2.1; Ok (num_mul v 2)) = Ok (PFloat m)
       /\ (10 <=? m)%float = true /\ (m <? 50)%float = true.
Proof.
  assert (H : In (libm_pow (Runtime := RefRuntime.ref) 3 2.1)
                [0x1.417187852199cp+3; 0x1.417187852199dp+3;
                 0x1.417187852199ep+3]%float).
  { right. left. vm_compute. reflexivity. }
  split; [exact H|].
  exact (radius_three_is_neptune_like (RT := RefRuntime.ref) H).
Defined.

(** C3 as the claim words it fails: for mass absent, radius 3 and period 50
    the classifier does not answer [sub-neptune]. *)
Lemma radius_three_is_not_sub_neptune :
  (ty ← SelectAndClean.classify_planet (RT := RefRuntime.ref)
          None (Some 3%float) (Some 50%float);
   Ok (String.eqb ty "sub-neptune", ty))
  = Ok (false, "neptune-like").
Proof. vm_compute. reflexivity. Qed.

(** The estimated mass there, and the classifier's answers for a few radii
    when the mass is absent: the radius rule answers only for radii from 2
    to about 2.15. *)
Example radius_only_classification :
  (v ← float_pow (RT := RefRuntime.ref) 3 2.1; Ok (num_mul v 2))
  = Ok (PFloat 20.09021713261028%float)
  /\ map (fun r => SelectAndClean.classify_planet (RT := RefRuntime.ref)
                     None (Some r) (Some 50%float))
         [1; 1.4; 2; 2.1; 2.2; 3.9; 4; 6; 8]%float
     = map Ok ["rocky"; "super-earth"; "sub-neptune"; "sub-neptune"; "neptune-like";
               "neptune-like"; "neptune-like"; "sub-neptune"; "cold-jupiter"].
Proof. vm_compute. split; reflexivity. Qed.

(** * Step 3: the Enricher *)

(** ** Python's sort *)

Section Sort.
Context {A K : Type} (lt : K -> K -> bool) (key : A -> K).

(** [a] may stand before [b]: the key of [b] is not smaller. *)
Definition not_after (a b : A) : Prop := lt (key b) (key a) = false.

Hypothesis lt_asym : forall x y, lt x y = true -> lt y x = false.
Hypothesis not_lt_trans :
  forall x y z, lt y x = false -> lt z y = false -> lt z x = false.

Lemma sort_insert_perm x l : Permutation (sort_insert lt key x l) (x :: l).
Proof.
  induction l as [|y l IH]; cbn; [reflexivity|].
  destruct (lt (key y) (key x)); [|reflexivity].
  rewrite IH. apply perm_swap.
Qed.

Lemma py_sort_perm l : Permutation (py_sort lt key l) l.
Proof.
  induction l as [|x l IH]; cbn; [reflexivity|].
  change (foldr (sort_insert lt key) [] l) with (py_sort lt key l).
  rewrite sort_insert_perm, IH. reflexivity.
Qed.

Lemma sort_insert_sorted x l :
  StronglySorted not_after l -> StronglySorted not_after (sort_insert lt key x l).
Proof.
  induction 1 as [|y l Hl IH Hy]; cbn; [repeat constructor|].
  destruct (lt (key y) (key x)) eqn:Hyx.
  - constructor; [exact IH|].
    rewrite sort_insert_perm. constructor; [|exact Hy].
    apply lt_asym. exact Hyx.
  - constructor; [constructor; assumption|].
    constructor; [exact Hyx|].
    eapply List.Forall_impl; [|exact Hy]. intros z Hz. unfold not_after in *.
    eapply not_lt_trans; eassumption.
Qed.

Lemma py_sort_sorted l : StronglySorted not_after (py_sort lt key l).
Proof.
  induction l as [|x l IH]; cbn; [constructor|].
  apply sort_insert_sorted. exact IH.
Qed.

(** The sort is stable: elements whose keys are not told apart from [k]
    keep their order. *)
Definition same_key (k : K) (a : A) : bool :=
  negb (lt (key a) k) && negb (lt k (key a)).

Lemma sort_insert_stable k x l :
  List.filter (same_key k) (sort_insert lt key x l)
  = List.filter (same_key k) (x :: l).
Proof.
  induction l as [|y l IH]; [reflexivity|].
  cbn [sort_insert]. destruct (lt (key y) (key x)) eqn:Hyx; [|reflexivity].
  cbn [List.filter] in *. rewrite IH.
  destruct (same_key k x) eqn:Hx; [|reflexivity].
  destruct (same_key k y) eqn:Hy; [|reflexivity].
  exfalso. unfold same_key in Hx, Hy.
  apply andb_prop in Hx as [Hx1 Hx2]. apply andb_prop in Hy as [Hy1 Hy2].
  apply negb_true_iff in Hx1, Hx2, Hy1, Hy2.
  rewrite (not_lt_trans (key x) k (key y) Hx2 Hy1) in Hyx. discriminate.
Qed.

Lemma py_sort_stable k l :
  List.filter (same_key k) (py_sort lt key l) = List.filter (same_key k) l.
Proof.
  induction l as [|x l IH]; [reflexivity|].
  cbn [py_sort foldr]. rewrite sort_insert_stable. cbn [List.filter].
  change (foldr (sort_insert lt key) [] l) with (py_sort lt key l).
  rewrite IH. reflexivity.
Qed.

End Sort.

(** ** The order of the sort keys *)

Lemma string_compare_refl s : String.compare s s = Eq.
Proof.
  induction s as [|c s IH]; cbn; [reflexivity|].
  unfold Ascii.compare. rewrite N.compare_refl. exact IH.
Qed.

Lemma string_compare_lt_trans a : forall b c,
  String.compare a b = Lt -> String.compare b c = Lt -> String.compare a c = Lt.
Proof.
  induction a as [|x a IH]; intros [|y b] [|z c]; cbn; try congruence.
  unfold Ascii.compare.
  destruct (N.compare_spec (N_of_ascii x) (N_of_ascii y)) as [Hxy|Hxy|Hxy];
    try discriminate;
    destruct (N.compare_spec (N_of_ascii y) (N_of_ascii z)) as [Hyz|Hyz|Hyz];
    try discriminate; intros Hab Hbc.
  - rewrite Hxy, Hyz, N.compare_refl. eauto.
  - rewrite Hxy. apply N.compare_lt_iff in Hyz. rewrite Hyz. reflexivity.
  - rewrite <- Hyz. apply N.compare_lt_iff in Hxy. rewrite Hxy. reflexivity.
  - assert (H : (N_of_ascii x < N_of_ascii z)%N) by lia.
    apply N.compare_lt_iff in H. rewrite H. reflexivity.
Qed.

Lemma string_ltb_asym a b : String.ltb a b = true -> String.ltb b a = false.
Proof.
  unfold String.ltb. rewrite (String.compare_antisym b a).
  destruct (String.compare a b); cbn; congruence.
Qed.

(** [a <= b] and [b <= c] give [a <= c], said with [<]. *)
Lemma string_not_ltb_trans a b c :
  String.ltb b a = false -> String.ltb c b = false -> String.ltb c a = false.
Proof.
  unfold String.ltb. intros Hba Hcb.
  destruct (String.compare c a) eqn:Hca; try reflexivity. exfalso.
  destruct (String.compare b a) eqn:Hba'; try discriminate.
  - apply String.compare_eq_iff in Hba'. subst b. rewrite Hca in Hcb. discriminate.
  - destruct (String.compare c b) eqn:Hcb'; try discriminate.
    + apply String.compare_eq_iff in Hcb'. subst c. congruence.
    + rewrite String.compare_antisym in Hba'. rewrite String.compare_antisym in Hcb'.
      destruct (String.compare a b) eqn:Hab; try discriminate.
      destruct (String.compare b c) eqn:Hbc; try discriminate.
      pose proof (string_compare_lt_trans a b c Hab Hbc) as Hac.
      rewrite String.compare_antisym, Hac in Hca. discriminate.
Qed.

Lemma string_not_ltb_leb a b : String.ltb b a = false -> String.leb a b = true.
Proof.
  unfold String.ltb, String.leb. rewrite (String.compare_antisym a b).
  destruct (String.compare b a); cbn; congruence.
Qed.

Import EnrichNarrative.

Lemma key_lt_asym x y : key_lt x y = true -> key_lt y x = false.
Proof.
  unfold key_lt. destruct (Z.eqb_spec x.1 y.1) as [E|E].
  - rewrite E, Z.eqb_refl. apply string_ltb_asym.
  - destruct (Z.eqb_spec y.1 x.1) as [E'|E']; [congruence|]. lia.
Qed.

Lemma key_not_lt_trans x y z :
  key_lt y x = false -> key_lt z y = false -> key_lt z x = false.
Proof.
  unfold key_lt.
  destruct (Z.eqb_spec y.1 x.1) as [E1|E1], (Z.eqb_spec z.1 y.1) as [E2|E2],
    (Z.eqb_spec z.1 x.1) as [E3|E3]; try lia; try congruence.
  apply string_not_ltb_trans.
Qed.

(** ** The Enricher's output *)

(** The order the specification asks of the output: by discovery year
    ascending, a record without a year after every record with one, and
    by name (ascending, by code point) among records at one position. *)
Definition spec_before (a b : planet) : Prop :=
  match discoveryYear a, discoveryYear b with
  | Some ya, Some yb =>
      (ya < yb)%Z \/ (ya = yb /\ String.leb (name a) (name b) = true)
  | Some _, None => True
  | None, Some _ => False
  | None, None => String.leb (name a) (name b) = true
  end.

(** A discovery year that the sentinel 9999 of the sort key leaves in
    place: not zero and below 9999. *)
Definition year_in_range (p : planet) : Prop :=
  forall y, discoveryYear p = Some y -> y <> 0%Z /\ (y < 9999)%Z.

Lemma not_after_spec_before a b :
  year_in_range a -> year_in_range b ->
  not_after key_lt sort_key a b -> spec_before a b.
Proof.
  unfold year_in_range, not_after, spec_before, key_lt, sort_key. intros Ha Hb. cbn.
  destruct (discoveryYear a) as [ya|], (discoveryYear b) as [yb|].
  - destruct (Ha ya eq_refl) as [Ha0 _], (Hb yb eq_refl) as [Hb0 _].
    rewrite <- Z.eqb_neq in Ha0, Hb0. rewrite Ha0, Hb0.
    destruct (Z.eqb_spec yb ya) as [E|E].
    + intros H. right. split; [congruence|]. apply string_not_ltb_leb. exact H.
    + intros H. left. lia.
  - trivial.
  - destruct (Hb yb eq_refl) as [Hb0 Hb1].
    rewrite <- Z.eqb_neq in Hb0. rewrite Hb0.
    destruct (Z.eqb_spec yb 9999) as [E|E]; [lia|]. intros H. lia.
  - rewrite Z.eqb_refl. apply string_not_ltb_leb.
Qed.

Lemma StronglySorted_impl_in {A : Type} (R R' : A -> A -> Prop) (l : list A) :
  (forall a b, In a l -> In b l -> R a b -> R' a b) ->
  StronglySorted R l -> StronglySorted R' l.
Proof.
  intros Himp Hs. induction Hs as [|a l Hl IH Ha]; constructor.
  - apply IH. intros x y Hx Hy. apply Himp; right; assumption.
  - apply List.Forall_forall. intros b Hb. apply Himp; [left; reflexivity|right; exact Hb|].
    rewrite List.Forall_forall in Ha. apply Ha. exact Hb.
Qed.

Section Enricher.
Context {RT : Runtime}.

Lemma enrich_row_inv nd st row st' :
  enrich_row nd st row = Ok st' ->
  exists p, build_planet nd row = Ok p /\ planets st' = planets st ++ [p].
Proof.
  unfold enrich_row. destruct (build_planet nd row) as [p|]; [|discriminate].
  cbn [mbind result_bind]. intros Heq; injection Heq as <-. eauto.
Qed.

(** The loop builds one planet per row, in order. *)
Lemma for_rows_enrich_inv nd rows : forall st st',
  for_rows (enrich_row nd) st rows = Ok st' ->
  exists built,
    planets st' = planets st ++ built
    /\ Forall2 (fun row p => build_planet nd row = Ok p) rows built.
Proof.
  induction rows as [|row rows IH]; intros st st'; cbn [for_rows].
  - intros Heq; injection Heq as <-. exists []. rewrite app_nil_r. split; constructor.
  - destruct (enrich_row nd st row) as [st1|] eqn:Hrow; [|discriminate].
    cbn [mbind result_bind]. intros Hrest.
    apply IH in Hrest as (built & Hw & Hb).
    apply enrich_row_inv in Hrow as (p & Hp & Hw1).
    exists (p :: built). rewrite Hw, Hw1, <- app_assoc. split; [reflexivity|].
    constructor; assumption.
Qed.

(** C6, as the code has it.  The Enricher's output is the planets built
    from the rows, rearranged so that the keys (discovery year, or 9999
    when the year is unknown or zero; then name) ascend.  Hence, when every
    known year is non-zero and below 9999, the output is in ascending year
    order, with every record of unknown year after all records with a
    known year and records at one position in ascending name order. *)
Theorem enricher_sorts_by_year_then_name nd rows st :
  enrich_narrative nd rows = Ok st ->
  (exists built,
      Forall2 (fun row p => build_planet nd row = Ok p) rows built
      /\ Permutation (planets st) built)
  /\ StronglySorted (not_after key_lt sort_key) (planets st)
  /\ (Forall year_in_range (planets st) -> StronglySorted spec_before (planets st)).
Proof.
  unfold enrich_narrative. intros Hrun.
  destruct (for_rows (enrich_row nd) _ rows) as [st1|] eqn:Hloop; [|discriminate].
  cbn [mbind result_bind] in Hrun. injection Hrun as <-. cbn [planets].
  apply for_rows_enrich_inv in Hloop as (built & Hw & Hb). cbn in Hw. subst built.
  assert (Hsorted : StronglySorted (not_after key_lt sort_key)
                      (py_sort key_lt sort_key (planets st1))).
  { apply py_sort_sorted; [exact key_lt_asym|exact key_not_lt_trans]. }
  split; [|split].
  - exists (planets st1). split; [exact Hb|]. apply py_sort_perm.
  - exact Hsorted.
  - intros Hrange. rewrite List.Forall_forall in Hrange.
    eapply StronglySorted_impl_in; [|exact Hsorted].
    intros a b Ha Hb'. apply not_after_spec_before; auto.
Qed.

End Enricher.

(** *** The sort on the reference runtime *)

(** Rows of [step2-cleaned.csv] with the years and names of the
    specification's example. *)
Definition years_example : list (gmap string string) :=
  [ list_to_map [("name", "Beta"); ("hostStar", "b"); ("discoveryYear", "2010")];
    list_to_map [("name", "Alpha"); ("hostStar", "a"); ("discoveryYear", "")];
    list_to_map [("name", "Gamma"); ("hostStar", "c"); ("discoveryYear", "1995")];
    list_to_map [("name", "Alpha2"); ("hostStar", "a2"); ("discoveryYear", "2010")] ].

Definition years_example_state : EnrichNarrative.state :=
  value_or {| planets := []; notable_count := 0 |}
    (enrich_narrative (RT := RefRuntime.ref) ∅ years_example).

Lemma years_example_run :
  enrich_narrative (RT := RefRuntime.ref) ∅ years_example = Ok years_example_state.
Proof. vm_compute. reflexivity. Qed.

Example enrich_years_example :
  map (fun p => (discoveryYear p, name p)) (planets years_example_state)
  = [(Some 1995%Z, "Gamma"); (Some 2010%Z, "Alpha2"); (Some 2010%Z, "Beta");
     (None, "Alpha")].
Proof. vm_compute. reflexivity. Qed.

(** C6 on [years_example]. *)
Lemma enricher_sorts_by_year_then_name_witness :
  enrich_narrative (RT := RefRuntime.ref) ∅ years_example = Ok years_example_state
  /\ (exists built,
        Forall2 (fun row p => build_planet (RT := RefRuntime.ref) ∅ row = Ok p)
                years_example built
        /\ Permutation (planets years_example_state) built)
  /\ StronglySorted (not_after key_lt sort_key) (planets years_example_state)
  /\ (Forall year_in_range (planets years_example_state) ->
      StronglySorted spec_before (planets years_example_state)).
Proof.
  split; [exact years_example_run|].
  exact (enricher_sorts_by_year_then_name (RT := RefRuntime.ref) ∅ years_example
           years_example_state years_example_run).
Defined.

(** C6 as the claim words it fails.  A planet without a year and a planet
    discovered in the year 10000: the output has the one of unknown year
    first. *)
Lemma unknown_year_before_a_known_year :
  (st ← enrich_narrative (RT := RefRuntime.ref) ∅
          [ list_to_map [("name", "A"); ("hostStar", "a"); ("discoveryYear", "")];
            list_to_map [("name", "B"); ("hostStar", "b"); ("discoveryYear", "10000")] ];
   Ok (map (fun p => (discoveryYear p, name p)) (planets st)))
  = Ok [(None, "A"); (Some 10000%Z, "B")].
Proof. vm_compute. reflexivity. Qed.

(** * Step 4: the Finalizer *)

(** The specification's words for the records the Finalizer refuses: the
    period is absent or equal to 0. *)
Definition period_missing (p : planet) : bool :=
  match period p with
  | None => true
  | Some f => (f =? 0)%float
  end.

(** The issue recorded for a refused record: entity name plus reason. *)
Definition issue_of (p : planet) : string := String.append (name p) ": missing period".

Section Finalizer.
Import GenerateFinal.

Lemma validate_planet_lists st p :
  valid_planets (validate_planet st p)
  = valid_planets st ++ List.filter (fun p => negb (period_missing p)) [p]
  /\ issues (validate_planet st p)
     = issues st ++ map issue_of (List.filter period_missing [p]).
Proof.
  unfold validate_planet, period_missing, opt_truthy, float_truthy, issue_of.
  cbn [List.filter]. destruct (period p) as [f|]; cbn.
  - destruct (f =? 0)%float; cbn; rewrite ?app_nil_r; split; reflexivity.
  - rewrite app_nil_r. split; reflexivity.
Qed.

Lemma fold_validate_lists planets : forall st,
  valid_planets (fold_left validate_planet planets st)
  = valid_planets st ++ List.filter (fun p => negb (period_missing p)) planets
  /\ issues (fold_left validate_planet planets st)
     = issues st ++ map issue_of (List.filter period_missing planets).
Proof.
  induction planets as [|p planets IH]; intros st; cbn [fold_left].
  - cbn. rewrite !app_nil_r. split; reflexivity.
  - destruct (IH (validate_planet st p)) as [Hv Hi].
    destruct (validate_planet_lists st p) as [Hv1 Hi1].
    rewrite Hv, Hi, Hv1, Hi1. cbn [List.filter].
    destruct (period_missing p); cbn; rewrite <- ?app_assoc, ?app_nil_r; split; reflexivity.
Qed.

Lemma generate_final_lists planets :
  valid_planets (generate_final planets)
  = List.filter (fun p => negb (period_missing p)) planets
  /\ issues (generate_final planets)
     = map issue_of (List.filter period_missing planets).
Proof.
  unfold generate_final.
  destruct (fold_validate_lists planets (initial planets)) as [Hv Hi].
  cbn in Hv, Hi. rewrite Hv, Hi. split; reflexivity.
Qed.

(** C7.  The Finalizer's validated list is the input without the records
    whose period is absent or equal to 0, in order; its issues list has
    one entry for each of those records, in order, made of the entity name
    and the reason; so a record with such a period is not in the validated
    list, and every other record is. *)
Theorem finalizer_excludes_missing_periods (planets : list planet) :
  valid_planets (generate_final planets)
  = List.filter (fun p => negb (period_missing p)) planets
  /\ issues (generate_final planets)
     = map issue_of (List.filter period_missing planets)
  /\ (forall p,
        In p planets ->
        if period_missing p
        then ~ In p (valid_planets (generate_final planets))
             /\ In (issue_of p) (issues (generate_final planets))
        else In p (valid_planets (generate_final planets))).
Proof.
  destruct (generate_final_lists planets) as [Hv Hi].
  rewrite Hv, Hi. split; [reflexivity|]. split; [reflexivity|].
  intros p Hp. destruct (period_missing p) eqn:Hm.
  - split.
    + rewrite filter_In, Hm. intros [_ H]. discriminate.
    + apply in_map. apply filter_In. auto.
  - apply filter_In. rewrite Hm. auto.
Qed.

End Finalizer.

(** * From step 2 to step 4 *)

Section Pipeline.
Context {RT : Runtime}.
Import SelectAndClean.

(** The cells step 3 reads back from a row step 2 wrote. *)
Lemma csv_row_lookup c :
  csv_row c !! "name" = Some (SelectAndClean.name c)
  /\ csv_row c !! "hostStar" = Some (SelectAndClean.hostStar c)
  /\ csv_row c !! "period" = Some (float_cell (SelectAndClean.period c))
  /\ csv_row c !! "separation" = Some (num_cell (SelectAndClean.separation c))
  /\ csv_row c !! "discoveryYear" = Some (SelectAndClean.discoveryYear c).
Proof. repeat split; reflexivity. Qed.


Ltac step_bind H :=
  match type of H with
  | (?m ≫= _) = Ok _ =>
      let E := fresh "E" in
      destruct m eqn:E; cbn [mbind result_bind] in H; [|discriminate H]
  end.

(** What a planet object holds of the row it was built from. *)
Lemma build_planet_inv nd row p :
  build_planet nd row = Ok p ->
  row !! "name" = Some (EnrichNarrative.name p)
  /\ numeric_field row "period" FFloat = Ok (EnrichNarrative.period p)
  /\ numeric_field row "discoveryYear" FInt = Ok (EnrichNarrative.discoveryYear p)
  /\ obs_separation (_observed p)
     = bool_decide (row !! "separation" <> None)
       && negb (String.eqb (default "" (row !! "separation")) "").
Proof.
  unfold build_planet, getitem. intros H.
  destruct (row !! "name") as [nm|]; [|discriminate H].
  destruct (row !! "hostStar") as [hs|]; [|discriminate H].
  cbn [mbind result_bind] in H.
  repeat step_bind H. injection H as <-. cbn. repeat split; reflexivity.
Qed.


(** The record of a written row, from the states before and after. *)
Lemma clean_row_written st row st' c :
  clean_row st row = Ok st' ->
  written st' = written st ++ [c] ->
  has_period row = true /\ written_for row c.
Proof.
  intros Hrun Hw.
  apply clean_row_inv in Hrun as (_ & [(_ & Hw1 & _)|(Hp & _ & c' & Hw1 & Hc)]).
  - rewrite Hw1 in Hw. apply (f_equal length) in Hw.
    rewrite length_app in Hw. cbn in Hw. lia.
  - rewrite Hw1 in Hw. apply app_inj_tail in Hw as [_ ->]. auto.
Qed.

(** A row that is written has a separation, observed or derived. *)
Lemma written_separation_present row c :
  has_period row = true -> written_for row c ->
  exists a, SelectAndClean.separation c = Some a.
Proof.
  unfold has_period, written_for, separation_of.
  intros Hp%bool_decide_eq_true (_ & Hs & _).
  destruct (parse_float (row !! "pl_orbsmax")) as [a|].
  - injection Hs as <-. eauto.
  - destruct (period_of row) as [p|]; [|contradiction].
    rewrite calculate_separation_kepler in Hs.
    destruct (kepler_separation p _) as [a|]; [|discriminate].
    cbn in Hs. injection Hs as <-. eauto.
Qed.

(** C5: what the code does.  Take a row of the catalog with no separation
    ([pl_orbsmax] parses as absent) that step 2 writes as the record [c],
    so that the separation of [c] is the one derived from the period; let
    step 3 build the planet object [p] from the row of [c].  Then the
    provenance map of [p] has [true] for separation: the derived value is
    marked as observed.  (A number's text is never empty.) *)
Theorem derived_separation_is_marked_observed st st' row c nd p :
  (forall v, str_of_num v <> "") ->
  parse_float (row !! "pl_orbsmax") = None ->
  clean_row st row = Ok st' ->
  written st' = written st ++ [c] ->
  build_planet nd (csv_row c) = Ok p ->
  obs_separation (_observed p) = true
  /\ exists days star_mass a,
       period_of row = Some days
       /\ kepler_separation days star_mass = Ok a
       /\ SelectAndClean.separation c = Some a.
Proof.
  intros Hstr Hnone Hrun Hw Hbuild.
  destruct (clean_row_written st row st' c Hrun Hw) as [Hp Hc].
  split.
  - destruct (written_separation_present row c Hp Hc) as [a Ha].
    apply build_planet_inv in Hbuild as (_ & _ & _ & ->).
    destruct (csv_row_lookup c) as (_ & _ & _ & -> & _). rewrite Ha. cbn.
    destruct (String.eqb_spec (str_of_num a) "") as [E|E]; [|reflexivity].
    exfalso. exact (Hstr a E).
  - destruct Hc as (_ & Hs & _). unfold separation_of in Hs. rewrite Hnone in Hs.
    unfold has_period in Hp. apply bool_decide_eq_true in Hp.
    destruct (period_of row) as [days|]; [|contradiction].
    rewrite calculate_separation_kepler in Hs.
    destruct (kepler_separation days _) as [a|] eqn:Hk; [|discriminate].
    cbn in Hs. injection Hs as <-.
    eexists _, _, _. split; [reflexivity|]. split; [exact Hk|reflexivity].
Qed.






End Pipeline.

(** *** The pipeline on the reference runtime *)

Lemma append_nonempty_l a b : a <> "" -> String.append a b <> "".
Proof. destruct a; [congruence|discriminate]. Qed.

Lemma append_nonempty_r a b : b <> "" -> String.append a b <> "".
Proof. destruct a; [trivial|discriminate]. Qed.

Lemma layout_nonempty ds decpt : RefRuntime.layout ds decpt true <> "".
Proof.
  unfold RefRuntime.layout.
  destruct ((decpt <=? -4)%Z || (16 <? decpt)%Z).
  - apply append_nonempty_r, append_nonempty_l. destruct (_ <? 0)%Z; discriminate.
  - destruct (decpt <=? 0)%Z; [apply append_nonempty_l; discriminate|].
    destruct (decpt <? _)%Z.
    + apply append_nonempty_r. discriminate.
    + apply append_nonempty_r, append_nonempty_r. discriminate.
Qed.

(** The reference runtime never prints a number as the empty text. *)
Lemma ref_str_of_num_nonempty v : str_of_num (RT := RefRuntime.ref) v <> "".
Proof.
  destruct v as [f|re im]; cbn.
  - unfold RefRuntime.ref_str_of_float, RefRuntime.double_to_string.
    destruct (Prim2SF f) as [s|s| |s m e].
    + destruct s; [discriminate|apply layout_nonempty].
    + destruct s; discriminate.
    + discriminate.
    + destruct (RefRuntime.shortest _ _ _ _ _) as [[D t]|].
      * destruct s; [discriminate|apply layout_nonempty].
      * destruct s; discriminate.
  - unfold RefRuntime.ref_str_of_complex.
    destruct (Prim2SF re) as [[]|?| |? ? ?];
      first [apply append_nonempty_l; discriminate | apply append_nonempty_r; discriminate].
Qed.

(** C5 on [twin_row], whose separation the catalog does not give. *)
Lemma derived_separation_is_marked_observed_witness :
  SelectAndClean.parse_float (RT := RefRuntime.ref) (twin_row !! "pl_orbsmax") = None
  /\ exists c p,
       SelectAndClean.written twin_state = [c]
       /\ build_planet (RT := RefRuntime.ref) ∅ (SelectAndClean.csv_row (RT := RefRuntime.ref) c)
          = Ok p
       /\ obs_separation (_observed p) = true
       /\ exists days star_mass a,
            period_of (RT := RefRuntime.ref) twin_row = Some days
            /\ kepler_separation (RT := RefRuntime.ref) days star_mass = Ok a
            /\ SelectAndClean.separation c = Some a.
Proof.
  split; [vm_compute; reflexivity|].
  destruct (SelectAndClean.written twin_state) as [|c [|c' rest]] eqn:Hw;
    [vm_compute in Hw; discriminate Hw| |vm_compute in Hw; discriminate Hw].
  destruct (build_planet (RT := RefRuntime.ref) ∅
              (SelectAndClean.csv_row (RT := RefRuntime.ref) c)) as [p|e] eqn:Hp.
  - exists c, p. split; [reflexivity|]. split; [exact Hp|].
    apply (derived_separation_is_marked_observed (RT := RefRuntime.ref)
             SelectAndClean.initial twin_state twin_row c ∅ p).
    + exact ref_str_of_num_nonempty.
    + vm_compute. reflexivity.
    + exact twin_row_run.
    + exact Hw.
    + exact Hp.
  - exfalso. vm_compute in Hw. injection Hw as <-. vm_compute in Hp. discriminate Hp.
Defined.



(** The four steps on [catalog_example] (with no narrative): what the
    provenance map says of each separation, and what the Finalizer keeps
    and reports.  "Twin b" has no separation in the catalog, and its
    derived separation is marked observed; "Null b", of period zero, is
    reported. *)
Example pipeline_catalog_example :
  (enriched ← enrich_narrative (RT := RefRuntime.ref) ∅
                (map (SelectAndClean.csv_row (RT := RefRuntime.ref))
                     (SelectAndClean.written catalog_example_state));
   let final := GenerateFinal.generate_final (planets enriched) in
   Ok (map (fun p => (name p, separation p, obs_separation (_observed p)))
           (planets enriched),
       map name (GenerateFinal.valid_planets final),
       GenerateFinal.issues final))
  = Ok ([ ("Twin b", Some 1%float, true);
          ("Kepler-22 b", Some 0.849%float, true);
          ("Null b", Some 0.05%float, true) ],
        ["Twin b"; "Kepler-22 b"],
        ["Null b: missing period"]).
Proof. vm_compute. reflexivity. Qed.

(** *** The exceptions behind the hypotheses

    The inputs on which the scripts stop with an exception are odd ones: a
    catalog without the [pl_name] column or with an infinite discovery year
    (step 1), a negative mass without a radius, a negative radius or a radius
    beyond 10^146 without a mass (step 2), an infinite discovery year
    (step 3). *)
Example extract_defaults_exceptions :
  ExtractDefaults.extract_defaults (RT := RefRuntime.ref)
    [list_to_map [("default_flag", "1"); ("pl_controv_flag", "0")]]
  = Raise (KeyError "pl_name")
  /\ ExtractDefaults.extract_defaults (RT := RefRuntime.ref)
       [list_to_map [("pl_name", "X b"); ("default_flag", "1"); ("disc_year", "inf")]]
     = Raise OverflowError.
Proof. vm_compute. split; reflexivity. Qed.

Example classify_planet_exceptions :
  SelectAndClean.classify_planet (RT := RefRuntime.ref)
    (Some (-1)%float) None (Some 50%float) = Raise TypeError
  /\ SelectAndClean.classify_planet (RT := RefRuntime.ref)
       None (Some (-1)%float) (Some 50%float) = Raise TypeError
  /\ SelectAndClean.classify_planet (RT := RefRuntime.ref)
       None (Some 1e147%float) (Some 50%float) = Raise OverflowError
  /\ SelectAndClean.classify_planet (RT := RefRuntime.ref)
       (Some (-1)%float) None (Some 0.5%float) = Ok "ultra-short-period".
Proof. vm_compute. repeat split; reflexivity. Qed.

Example build_planet_exception :
  (p ← build_planet (RT := RefRuntime.ref) ∅
         (list_to_map [("name", "X b"); ("hostStar", "X"); ("discoveryYear", "inf")]);
   Ok (name p))
  = Raise OverflowError.
Proof. vm_compute. reflexivity. Qed.

(** * Further properties of the scripts *)

(** ** Counters *)

(** What [c[k] += 1] does to the count of any key. *)
Lemma counter_incr_lookup `{Countable K} (k k' : K) (c : gmap K nat) :
  default 0%nat (counter_incr k c !! k')
  = bump (bool_decide (k = k')) (default 0%nat (c !! k')).
Proof.
  unfold counter_incr, bump. destruct (decide (k = k')) as [->|Hne].
  - rewrite lookup_insert_eq, bool_decide_eq_true_2 by reflexivity. reflexivity.
  - rewrite lookup_insert_ne, bool_decide_eq_false_2 by assumption. reflexivity.
Qed.

(** A set made from a list has at most as many members as the list, and as
    many exactly when the list has no repetition. *)
Lemma size_list_to_set_le (l : list string) :
  (size (list_to_set (C := gset string) l) <= length l)%nat
  /\ (size (list_to_set (C := gset string) l) = length l <-> NoDup l).
Proof.
  induction l as [|x l [IHle IHeq]]; cbn [list_to_set foldr length].
  - rewrite size_empty. split; [lia|]. split; [constructor|reflexivity].
  - destruct (decide (x ∈ l)) as [Hin|Hnin].
    + assert (E : {[x]} ∪ list_to_set (C := gset string) l = list_to_set l) by set_solver.
      rewrite E. split; [lia|]. split; [lia|].
      intros Hnd. apply NoDup_cons in Hnd as [Hx _]. contradiction.
    + rewrite size_union by set_solver. rewrite size_singleton.
      split; [lia|]. rewrite NoDup_cons. split.
      * intros Hs. split; [exact Hnin|]. apply IHeq. lia.
      * intros [_ Hnd]. apply IHeq in Hnd. lia.
Qed.

(** ** Step 1: what stops the script, and what its counters hold *)

Lemma is_infinity_not_nan f : is_infinity f = true -> is_nan f = false.
Proof.
  unfold is_infinity, is_nan.
  rewrite !FloatAxioms.eqb_spec, FloatAxioms.abs_spec.
  destruct (Prim2SF f) as [s|s| |s m e]; cbn; try discriminate; intros _;
    try destruct s; reflexivity.
Qed.

Section SelectorMore.
Context {RT : Runtime}.
Import ExtractDefaults.

(** The discovery year of a row reads as an infinite number. *)
Definition year_is_infinite (row : gmap string string) : Prop :=
  exists s f, row !! "disc_year" = Some s /\ s <> ""
              /\ float_of_string s = Some f /\ is_infinity f = true.

(** The method a row is counted under (line 73). *)
Definition method_of (row : gmap string string) : string :=
  default "Unknown" (row !! "discoverymethod").

(** [track_year] raises for an infinite year, with [OverflowError], and for
    nothing else. *)
Lemma track_year_raises row years e :
  track_year row years = Raise e <-> e = OverflowError /\ year_is_infinite row.
Proof.
  unfold track_year, year_is_infinite, py_float, int_of_float, str_truthy.
  destruct (row !! "disc_year") as [s|] eqn:Hs.
  2:{ split; [discriminate|]. intros (_ & s & f & Hs' & _). discriminate. }
  destruct (String.eqb_spec s "") as [->|Hne].
  { split; [discriminate|]. intros (_ & s & f & [= <-] & Hne & _). contradiction. }
  assert (Ht : match s with "" => false | _ => true end = true)
    by (destruct s; [contradiction|reflexivity]).
  rewrite Ht. change (default "" (Some s)) with s. clear Ht.
  destruct (float_of_string s) as [f|] eqn:Hf; cbn [mbind result_bind].
  2:{ split; [discriminate|]. intros (_ & s' & f & [= <-] & _ & Hf' & _). congruence. }
  destruct (is_nan f) eqn:Hnan.
  { split; [discriminate|]. intros (_ & s' & f' & [= <-] & _ & Hf' & Hinf).
    rewrite Hf in Hf'. injection Hf' as <-.
    apply is_infinity_not_nan in Hinf. congruence. }
  destruct (is_infinity f) eqn:Hinf.
  - split.
    + intros [= <-]. split; [reflexivity|]. exists s, f. auto.
    + intros [-> _]. reflexivity.
  - split; [discriminate|]. intros (_ & s' & f' & [= <-] & _ & Hf' & Hinf').
    congruence.
Qed.

(** One turn of the loop raises on a surviving row without a name (a
    [KeyError]) or with an infinite year (an [OverflowError]), and on no
    other row. *)
Lemma filter_row_raises st row e :
  filter_row st row = Raise e <->
  survives row = true
  /\ ((row !! "pl_name" = None /\ e = KeyError "pl_name")
      \/ (is_Some (row !! "pl_name") /\ e = OverflowError /\ year_is_infinite row)).
Proof.
  unfold filter_row, survives, is_default, is_controversial.
  destruct (bool_decide (row !! "default_flag" = Some "1")); cbn.
  2:{ split; [discriminate|]. intros [? _]. discriminate. }
  destruct (bool_decide (row !! "pl_controv_flag" = Some "1")); cbn.
  { split; [discriminate|]. intros [? _]. discriminate. }
  destruct (row !! "pl_name") as [nm|] eqn:Hnm.
  - destruct (track_year row (discovery_years st)) as [ys|e'] eqn:Hy; cbn.
    + split; [discriminate|]. intros [_ [[? _]|(_ & -> & Hinf)]]; [discriminate|].
      assert (Hr : track_year row (discovery_years st) = Raise OverflowError)
        by (apply track_year_raises; auto).
      congruence.
    + apply track_year_raises in Hy as [-> Hinf]. split.
      * intros [= <-]. split; [reflexivity|]. right. split; [eauto|]. auto.
      * intros [_ [[? _]|(_ & -> & _)]]; [discriminate|reflexivity].
  - split.
    + intros [= <-]. split; [reflexivity|]. left. auto.
    + intros [_ [[_ ->]|([? ?] & _)]]; [reflexivity|discriminate].
Qed.

(** The method counter after one turn of the loop. *)
Lemma filter_row_methods st row st' :
  filter_row st row = Ok st' ->
  discovery_methods st'
  = (if survives row then counter_incr (method_of row) (discovery_methods st)
     else discovery_methods st)
  /\ (survives row = true -> is_Some (row !! "pl_name")).
Proof.
  unfold filter_row, survives, is_default, is_controversial, method_of.
  destruct (bool_decide (row !! "default_flag" = Some "1")); cbn.
  2:{ intros [= <-]. cbn. split; [reflexivity|discriminate]. }
  destruct (bool_decide (row !! "pl_controv_flag" = Some "1")); cbn.
  { intros [= <-]. cbn. split; [reflexivity|discriminate]. }
  destruct (row !! "pl_name") as [nm|]; [|discriminate].
  destruct (track_year row (discovery_years st)) as [ys|]; [|discriminate].
  intros [= <-]. cbn. split; [reflexivity|eauto].
Qed.

Lemma for_rows_filter_methods rows : forall st st' m,
  for_rows filter_row st rows = Ok st' ->
  default 0%nat (discovery_methods st' !! m)
  = (default 0%nat (discovery_methods st !! m)
     + length (List.filter (fun row => bool_decide (method_of row = m))
                           (List.filter survives rows)))%nat
  /\ length (names_of (List.filter survives rows)) = length (List.filter survives rows).
Proof.
  induction rows as [|row rows IH]; intros st st' m; cbn [for_rows].
  - intros [= <-]. cbn. split; [lia|reflexivity].
  - destruct (filter_row st row) as [st1|] eqn:Hrow; [|discriminate].
    cbn [mbind result_bind]. intros Hrest.
    destruct (IH _ _ m Hrest) as [IHm IHn].
    apply filter_row_methods in Hrow as [Hm Hname].
    rewrite IHm, Hm. cbn [List.filter]. destruct (survives row); [|auto].
    destruct (Hname eq_refl) as [nm Hnm].
    rewrite counter_incr_lookup. cbn [List.filter]. unfold bump. split.
    + destruct (bool_decide (method_of row = m)); cbn [length]; lia.
    + unfold names_of in *. cbn. rewrite Hnm. cbn. rewrite IHn. reflexivity.
Qed.

(** X1.  When the Selector ends normally, its counters hold what their
    names say: [rows_total] is the number of rows read, [rows_default] the
    number of rows whose default flag is "1", [rows_output] the number of
    rows written; so [rows_output <= rows_default <= rows_total]; and the
    set of planet names has at most [rows_output] members. *)
Theorem selector_counters (rows : list (gmap string string)) st msgs :
  extract_defaults rows = Ok (st, msgs) ->
  rows_total st = length rows
  /\ rows_default st = length (List.filter is_default rows)
  /\ rows_output st = length (written st)
  /\ (rows_output st <= rows_default st <= rows_total st)%nat
  /\ (size (planet_names st) <= rows_output st)%nat.
Proof.
  unfold extract_defaults.
  destruct (for_rows filter_row initial rows) as [st0|] eqn:Hloop; [|discriminate].
  cbn [mbind result_bind]. intros [= <- _].
  destruct (for_rows_filter_methods rows _ _ "" Hloop) as [_ Hlen].
  apply for_rows_filter_inv in Hloop as (Ht & Hd & Ho & Hw & Hn).
  cbn in Ht, Hd, Ho, Hw, Hn. rewrite Ht, Hd, Ho, Hw, Hn.
  rewrite (right_id_L ∅ (∪)).
  assert (H1 : (length (List.filter survives rows)
                <= length (List.filter is_default rows))%nat).
  { clear. induction rows as [|row rows IH]; cbn; [lia|].
    unfold survives at 1. destruct (is_default row); cbn; [|exact IH].
    destruct (negb _); cbn; lia. }
  pose proof (List.filter_length_le is_default rows) as H2.
  destruct (size_list_to_set_le (names_of (List.filter survives rows))) as [H3 _].
  repeat split; try lia.
Qed.



Lemma for_rows_filter_raises rows : forall st e,
  for_rows filter_row st rows = Raise e ->
  exists row, In row rows /\ survives row = true
    /\ ((row !! "pl_name" = None /\ e = KeyError "pl_name")
        \/ (is_Some (row !! "pl_name") /\ e = OverflowError /\ year_is_infinite row)).
Proof.
  induction rows as [|row rows IH]; intros st e; cbn [for_rows]; [discriminate|].
  destruct (filter_row st row) as [st1|e1] eqn:Hrow; cbn [mbind result_bind].
  - intros Hrest. destruct (IH _ _ Hrest) as (r & Hin & H). exists r. split; [right; exact Hin|exact H].
  - intros [= <-]. apply filter_row_raises in Hrow as [Hs H].
    exists row. split; [left; reflexivity|]. auto.
Qed.

Lemma for_rows_filter_runs rows : forall st,
  (exists st', for_rows filter_row st rows = Ok st') <->
  Forall (fun row => survives row = true ->
                     is_Some (row !! "pl_name") /\ ~ year_is_infinite row) rows.
Proof.
  induction rows as [|row rows IH]; intros st; cbn [for_rows].
  - split; [constructor|eauto].
  - destruct (filter_row st row) as [st1|e] eqn:Hrow; cbn [mbind result_bind].
    + rewrite IH. split.
      * intros Hall. constructor; [|exact Hall]. intros Hs. split.
        -- apply filter_row_methods in Hrow as [_ Hn]. auto.
        -- intros Hinf. destruct (row !! "pl_name") as [nm|] eqn:Hnm.
           ++ assert (Hr : filter_row st row = Raise OverflowError).
              { apply filter_row_raises. split; [exact Hs|]. right.
                rewrite Hnm. split; [eauto|]. auto. }
              congruence.
           ++ assert (Hr : filter_row st row = Raise (KeyError "pl_name")).
              { apply filter_row_raises. split; [exact Hs|]. left. auto. }
              congruence.
      * intros Hall. inversion Hall; assumption.
    + split; [intros [? ?]; discriminate|].
      intros Hall. inversion Hall as [|? ? Hok _]; subst. exfalso.
      apply filter_row_raises in Hrow as [Hs H]. destruct (Hok Hs) as [Hn Hinf].
      destruct H as [[Hnone _]|(_ & _ & Hi)]; [|contradiction].
      rewrite Hnone in Hn. destruct Hn; discriminate.
Qed.

End SelectorMore.

(** ** Step 1 on the lines of the file: what stops the script *)

Section SelectorLines.
Context {RT : Runtime}.
Import ExtractDefaultsCsv.

(** The row passes the two filters of lines 59 and 64. *)
Definition passes (row : reader_row) : bool :=
  bool_decide (get row "default_flag" = Some "1")
  && negb (bool_decide (get row "pl_controv_flag" = Some "1")).

(** The discovery year of the row reads as an infinite number. *)
Definition year_reads_infinite (row : reader_row) : Prop :=
  exists s f, get row "disc_year" = Some s /\ s <> ""
              /\ float_of_string s = Some f /\ is_infinity f = true.

(** The reader's row has the header's names for keys, whatever the line. *)
Lemma dom_zip_cells fieldnames : forall line d,
  dom (zip_cells fieldnames line d) = dom d ∪ list_to_set (C := gset string) fieldnames.
Proof.
  induction fieldnames as [|k ks IH]; intros line d; cbn [zip_cells].
  - cbn. set_solver.
  - destruct line as [|c cs]; rewrite IH, dom_insert_L; cbn; set_solver.
Qed.

Lemma next_row_has_column fieldnames line k :
  is_Some (cells (next_row fieldnames line) !! k) <-> In k fieldnames.
Proof.
  rewrite <- elem_of_dom. cbn [next_row cells]. rewrite dom_zip_cells, dom_empty_L.
  rewrite (left_id_L ∅ (∪)), elem_of_list_to_set. apply list_elem_of_In.
Qed.

(** The writer refuses the reader's row exactly for a line that has more
    cells than the header has names. *)
Lemma writerow_next_row fieldnames line :
  writerow fieldnames (next_row fieldnames line)
  = if (length fieldnames <? length line)%nat then Raise ValueError else Ok tt.
Proof.
  unfold writerow. cbn [next_row cells restkey].
  rewrite dom_zip_cells, dom_empty_L, (left_id_L ∅ (∪)).
  rewrite (bool_decide_eq_true_2 (_ ⊆ _)) by reflexivity.
  destruct (length fieldnames <? length line)%nat; reflexivity.
Qed.

(** [track_year] raises for an infinite year, with [OverflowError], and for
    nothing else. *)
Lemma track_year_raises_on year years e :
  track_year year years = Raise e
  <-> e = OverflowError
      /\ exists s f, year = Some s /\ s <> ""
                     /\ float_of_string s = Some f /\ is_infinity f = true.
Proof.
  unfold track_year, py_float, int_of_float, str_truthy.
  destruct year as [s|].
  2:{ split; [discriminate|]. intros (_ & s & f & Hs' & _). discriminate. }
  destruct (String.eqb_spec s "") as [->|Hne].
  { split; [discriminate|]. intros (_ & s & f & [= <-] & Hne & _). contradiction. }
  assert (Ht : match s with "" => false | _ => true end = true)
    by (destruct s; [contradiction|reflexivity]).
  rewrite Ht. change (default "" (Some s)) with s. clear Ht.
  destruct (float_of_string s) as [f|] eqn:Hf; cbn [mbind result_bind].
  2:{ split; [discriminate|]. intros (_ & s' & f & [= <-] & _ & Hf' & _). congruence. }
  destruct (is_nan f) eqn:Hnan.
  { split; [discriminate|]. intros (_ & s' & f' & [= <-] & _ & Hf' & Hinf).
    rewrite Hf in Hf'. injection Hf' as <-.
    apply is_infinity_not_nan in Hinf. congruence. }
  destruct (is_infinity f) eqn:Hinf.
  - split.
    + intros [= <-]. split; [reflexivity|]. exists s, f. auto.
    + intros [-> _]. reflexivity.
  - split; [discriminate|]. intros (_ & s' & f' & [= <-] & _ & Hf' & Hinf').
    congruence.
Qed.

(** What stops one turn of the loop on the row of a line. *)
Definition stops_with (fieldnames line : list string) (e : exn) : Prop :=
  passes (next_row fieldnames line) = true
  /\ (((length fieldnames < length line)%nat /\ e = ValueError)
      \/ ((length line <= length fieldnames)%nat /\ ~ In "pl_name" fieldnames
          /\ e = KeyError "pl_name")
      \/ ((length line <= length fieldnames)%nat /\ In "pl_name" fieldnames
          /\ e = OverflowError /\ year_reads_infinite (next_row fieldnames line))).

Lemma filter_row_raises_on fieldnames st line e :
  filter_row fieldnames st (next_row fieldnames line) = Raise e
  <-> stops_with fieldnames line e.
Proof.
  unfold stops_with, filter_row, passes.
  destruct (bool_decide (get _ "default_flag" = Some "1")); cbn [negb andb].
  2:{ split; [discriminate|]. intros [? _]. discriminate. }
  destruct (bool_decide (get _ "pl_controv_flag" = Some "1")); cbn [negb].
  { split; [discriminate|]. intros [? _]. discriminate. }
  rewrite writerow_next_row.
  destruct (Nat.ltb_spec (length fieldnames) (length line)) as [Hlong|Hfits];
    cbn [mbind result_bind].
  { split.
    - intros [= <-]. split; [reflexivity|]. left. auto.
    - intros [_ [[_ ->]|[(? & _)|(? & _)]]]; [reflexivity|lia|lia]. }
  pose proof (next_row_has_column fieldnames line "pl_name") as Hcol.
  destruct (cells (next_row fieldnames line) !! "pl_name") as [nm|].
  - assert (Hin : In "pl_name" fieldnames) by (apply Hcol; eauto).
    destruct (track_year _ (discovery_years st)) as [ys|e'] eqn:Hy;
      cbn [mbind result_bind].
    + split; [discriminate|].
      intros [_ [[? _]|[(_ & Hno & _)|(_ & _ & -> & Hinf)]]]; [lia|contradiction|].
      assert (Hr : track_year (get (next_row fieldnames line) "disc_year")
                     (discovery_years st) = Raise OverflowError)
        by (apply track_year_raises_on; auto).
      congruence.
    + apply track_year_raises_on in Hy as [-> Hinf]. split.
      * intros [= <-]. split; [reflexivity|]. right. right. auto.
      * intros [_ [[? _]|[(_ & Hno & _)|(_ & _ & -> & _)]]];
          [lia|contradiction|reflexivity].
  - assert (Hno : ~ In "pl_name" fieldnames).
    { intros Hin. apply Hcol in Hin. destruct Hin; discriminate. }
    split.
    + intros [= <-]. split; [reflexivity|]. right. left. auto.
    + intros [_ [[? _]|[(_ & _ & ->)|(_ & Hin & _)]]]; [lia|reflexivity|contradiction].
Qed.

(** The loop: it stops on the first line that stops a turn. *)
Lemma for_rows_filter_lines fieldnames lines : forall st,
  match for_rows (filter_row fieldnames) st (DictReader fieldnames lines) with
  | Ok _ => Forall (fun line => line <> [] -> forall e, ~ stops_with fieldnames line e) lines
  | Raise e => exists before line after,
      lines = before ++ line :: after /\ line <> [] /\ stops_with fieldnames line e
      /\ Forall (fun l => l <> [] -> forall e', ~ stops_with fieldnames l e') before
  end.
Proof.
  unfold DictReader.
  induction lines as [|line lines IH]; intros st; cbn [List.filter map for_rows].
  - constructor.
  - destruct (decide (line = [])) as [->|Hne].
    + cbn [bool_decide decide_rel negb]. rewrite bool_decide_eq_true_2 by reflexivity.
      cbn [negb]. specialize (IH st).
      destruct (for_rows _ st _) as [st'|e].
      * constructor; [congruence|exact IH].
      * destruct IH as (before & l & after & -> & Hl & Hs & Hb).
        exists ([] :: before), l, after. split; [reflexivity|]. split; [exact Hl|].
        split; [exact Hs|]. constructor; [congruence|exact Hb].
    + rewrite bool_decide_eq_false_2 by exact Hne. cbn [negb map for_rows].
      destruct (filter_row fieldnames st (next_row fieldnames line)) as [st1|e] eqn:Hrow;
        cbn [mbind result_bind].
      * assert (Hok : forall e, ~ stops_with fieldnames line e).
        { intros e He. apply (filter_row_raises_on fieldnames st) in He. congruence. }
        specialize (IH st1). destruct (for_rows _ st1 _) as [st'|e].
        -- constructor; [auto|exact IH].
        -- destruct IH as (before & l & after & -> & Hl & Hs & Hb).
           exists (line :: before), l, after. split; [reflexivity|]. split; [exact Hl|].
           split; [exact Hs|]. constructor; [auto|exact Hb].
      * apply filter_row_raises_on in Hrow.
        exists [], line, lines. split; [reflexivity|]. split; [exact Hne|].
        split; [exact Hrow|constructor].
Qed.

(** A turn of the loop is not stopped exactly on these lines. *)
Lemma never_stops fieldnames line :
  (forall e, ~ stops_with fieldnames line e)
  <-> (passes (next_row fieldnames line) = true ->
       (length line <= length fieldnames)%nat /\ In "pl_name" fieldnames
       /\ ~ year_reads_infinite (next_row fieldnames line)).
Proof.
  unfold stops_with. split.
  - intros Hno Hp.
    destruct (Nat.ltb_spec (length fieldnames) (length line)) as [Hlong|Hfits].
    { exfalso. apply (Hno ValueError). auto. }
    split; [exact Hfits|].
    destruct (in_dec string_dec "pl_name" fieldnames) as [Hin|Hout].
    2:{ exfalso. apply (Hno (KeyError "pl_name")). split; [exact Hp|]. right. left. auto. }
    split; [exact Hin|]. intros Hinf. apply (Hno OverflowError).
    split; [exact Hp|]. right. right. auto.
  - intros Hok e [Hp H]. destruct (Hok Hp) as (Hfits & Hin & Hinf).
    destruct H as [[? _]|[(_ & Hout & _)|(_ & _ & _ & Hi)]]; [lia|contradiction|contradiction].
Qed.

(** X4.  Take the header and the lines of cells that [csv.reader] yields
    for the raw catalog.  The Selector ends normally exactly when every line
    that is not blank and passes the two filters has no more cells than the
    header has names, the header has the name [pl_name], and the line's
    discovery year does not read as an infinite number.  When it stops, it
    stops on the first line that is not so: with the writer's [ValueError]
    for a line with more cells than the header, else with [KeyError] for
    the missing column, else with [OverflowError] for the year. *)
Theorem selector_stops_on_long_line_missing_name_or_infinite_year
  (fieldnames : list string) (lines : list (list string)) :
  let well_read line :=
    line <> [] -> passes (next_row fieldnames line) = true ->
    (length line <= length fieldnames)%nat /\ In "pl_name" fieldnames
    /\ ~ year_reads_infinite (next_row fieldnames line) in
  ((exists r, extract_defaults fieldnames lines = Ok r) <-> Forall well_read lines)
  /\ (forall e,
        extract_defaults fieldnames lines = Raise e ->
        exists before line after,
          lines = before ++ line :: after
          /\ Forall well_read before
          /\ line <> []
          /\ passes (next_row fieldnames line) = true
          /\ (((length fieldnames < length line)%nat /\ e = ValueError)
              \/ ((length line <= length fieldnames)%nat /\ ~ In "pl_name" fieldnames
                  /\ e = KeyError "pl_name")
              \/ ((length line <= length fieldnames)%nat /\ In "pl_name" fieldnames
                  /\ e = OverflowError
                  /\ year_reads_infinite (next_row fieldnames line)))).
Proof.
  intros well_read.
  assert (Hwell : forall ls,
             Forall (fun l => l <> [] -> forall e, ~ stops_with fieldnames l e) ls
             <-> Forall well_read ls).
  { intros ls. rewrite !List.Forall_forall. unfold well_read.
    split; intros H l Hl Hne; apply never_stops; auto. }
  unfold extract_defaults.
  pose proof (for_rows_filter_lines fieldnames lines initial) as Hloop.
  destruct (for_rows _ initial _) as [st|e0]; cbn [mbind result_bind].
  - split; [|discriminate]. split; [intros _; apply Hwell; exact Hloop|eauto].
  - destruct Hloop as (before & line & after & -> & Hne & Hs & Hb). split.
    + split; [intros [? ?]; discriminate|]. intros Hall. exfalso.
      apply Hwell in Hall. apply Forall_app in Hall as [_ Hall].
      inversion Hall as [|? ? Hl _]; subst. exact (Hl Hne e0 Hs).
    + intros e [= <-]. destruct Hs as [Hp H].
      exists before, line, after. split; [reflexivity|].
      split; [apply Hwell; exact Hb|]. auto.
Qed.

End SelectorLines.

(** ** The two models of step 1 agree

    On a catalog whose lines all have as many cells as the header (or are
    blank), the loop on the reader's rows and the loop of [ExtractDefaults]
    on the rows as maps do the same. *)

Section SelectorModels.
Context {RT : Runtime}.
Import ExtractDefaultsCsv.

(** The reader's row as a map from column name to cell text. *)
Definition plain_row (row : reader_row) : gmap string string :=
  omap (fun cell : option string => cell) (cells row).

(** The two states hold the same. *)
Definition same_state (s : state) (s' : ExtractDefaults.state) : Prop :=
  rows_total s = ExtractDefaults.rows_total s'
  /\ rows_default s = ExtractDefaults.rows_default s'
  /\ rows_output s = ExtractDefaults.rows_output s'
  /\ planet_names s = set_map Some (ExtractDefaults.planet_names s')
  /\ discovery_methods s = kmap Some (ExtractDefaults.discovery_methods s')
  /\ discovery_years s = ExtractDefaults.discovery_years s'
  /\ map plain_row (written s) = ExtractDefaults.written s'.

Lemma get_plain_row row k : get row k = plain_row row !! k.
Proof.
  unfold get, plain_row. rewrite lookup_omap.
  destruct (cells row !! k) as [[c|]|]; reflexivity.
Qed.

(** A line with a cell for every name of the header leaves no name without
    one. *)
Lemma zip_cells_full fieldnames : forall line d k,
  (length fieldnames <= length line)%nat ->
  (forall k, d !! k <> Some None) ->
  zip_cells fieldnames line d !! k <> Some None.
Proof.
  induction fieldnames as [|f fs IH]; intros line d k Hlen Hd; cbn [zip_cells].
  - apply Hd.
  - destruct line as [|c cs]; cbn in Hlen; [lia|].
    apply IH; [lia|]. intros k'. destruct (decide (f = k')) as [->|Hne].
    + rewrite lookup_insert_eq. discriminate.
    + rewrite lookup_insert_ne by exact Hne. apply Hd.
Qed.

Lemma size_set_map_Some (X : gset string) :
  size (set_map (D := gset (option string)) Some X) = size X.
Proof.
  unfold set_map. rewrite size_list_to_set.
  - rewrite length_fmap. reflexivity.
  - apply NoDup_fmap_2; [apply _|apply NoDup_elements].
Qed.

(** One turn of the two loops on a line that fits the header. *)
Lemma filter_row_same fieldnames line s s' :
  length line = length fieldnames ->
  same_state s s' ->
  match filter_row fieldnames s (next_row fieldnames line),
        ExtractDefaults.filter_row s' (plain_row (next_row fieldnames line)) with
  | Ok t, Ok t' => same_state t t'
  | Raise e, Raise e' => e = e'
  | _, _ => False
  end.
Proof.
  intros Hlen (Ht & Hd & Ho & Hn & Hm & Hy & Hw).
  unfold filter_row, ExtractDefaults.filter_row.
  rewrite !get_plain_row, writerow_next_row.
  assert (Hfits : (length fieldnames <? length line)%nat = false)
    by (apply Nat.ltb_ge; lia).
  rewrite Hfits. clear Hfits.
  set (row := next_row fieldnames line).
  assert (Hfull : forall k, cells row !! k <> Some None).
  { intros k. apply zip_cells_full; [lia|]. intros k'. rewrite lookup_empty. discriminate. }
  destruct (bool_decide (plain_row row !! "default_flag" = Some "1")); cbn [negb].
  2:{ repeat split; cbn; congruence. }
  destruct (bool_decide (plain_row row !! "pl_controv_flag" = Some "1")).
  { repeat split; cbn; congruence. }
  cbn [mbind result_bind].
  assert (Hname : cells row !! "pl_name" = Some <$> (plain_row row !! "pl_name")).
  { unfold plain_row. rewrite lookup_omap. pose proof (Hfull "pl_name") as H.
    destruct (cells row !! "pl_name") as [[c|]|]; [reflexivity|contradiction|reflexivity]. }
  assert (Hmeth : default (Some "Unknown") (cells row !! "discoverymethod")
                  = Some (default "Unknown" (plain_row row !! "discoverymethod"))).
  { unfold plain_row. rewrite lookup_omap. pose proof (Hfull "discoverymethod") as H.
    destruct (cells row !! "discoverymethod") as [[c|]|];
      [reflexivity|contradiction|reflexivity]. }
  rewrite Hname, Hmeth.
  destruct (plain_row row !! "pl_name") as [nm|]; cbn [fmap option_fmap option_map];
    [|reflexivity].
  unfold track_year, ExtractDefaults.track_year. rewrite Hy.
  assert (Hnames : {[Some nm]} ∪ planet_names s
                    = set_map Some ({[nm]} ∪ ExtractDefaults.planet_names s')).
  { rewrite Hn, set_map_union_L, set_map_singleton_L. reflexivity. }
  assert (Hmethods : forall k,
             counter_incr (Some k) (discovery_methods s)
             = kmap Some (counter_incr k (ExtractDefaults.discovery_methods s'))).
  { intros k. rewrite Hm. unfold counter_incr.
    rewrite kmap_insert, lookup_kmap by apply _. reflexivity. }
  assert (Hout : map plain_row (written s ++ [row])
                 = ExtractDefaults.written s' ++ [plain_row row]).
  { rewrite map_app, Hw. reflexivity. }
  assert (Hsame : forall years,
             same_state
               {| rows_total := S (rows_total s); rows_default := S (rows_default s);
                  rows_output := S (rows_output s);
                  planet_names := {[Some nm]} ∪ planet_names s;
                  discovery_methods :=
                    counter_incr
                      (Some (default "Unknown" (plain_row row !! "discoverymethod")))
                      (discovery_methods s);
                  discovery_years := years; written := written s ++ [row] |}
               {| ExtractDefaults.rows_total := S (ExtractDefaults.rows_total s');
                  ExtractDefaults.rows_default := S (ExtractDefaults.rows_default s');
                  ExtractDefaults.rows_output := S (ExtractDefaults.rows_output s');
                  ExtractDefaults.planet_names := {[nm]} ∪ ExtractDefaults.planet_names s';
                  ExtractDefaults.discovery_methods :=
                    counter_incr (default "Unknown" (plain_row row !! "discoverymethod"))
                                 (ExtractDefaults.discovery_methods s');
                  ExtractDefaults.discovery_years := years;
                  ExtractDefaults.written :=
                    ExtractDefaults.written s' ++ [plain_row row] |}).
  { intros years. unfold same_state. cbn. rewrite Ht, Hd, Ho, Hnames, Hmethods, Hout.
    repeat split; reflexivity. }
  destruct (str_truthy (plain_row row !! "disc_year")); [|apply Hsame].
  destruct (f ← py_float (default "" (plain_row row !! "disc_year")); int_of_float f)
    as [y|[]]; cbn [mbind result_bind]; try reflexivity; apply Hsame.
Qed.

(** The two scripts on a catalog whose lines fit the header: the same
    counters, the same rows written, the same warning; or the same
    exception. *)
Lemma extract_defaults_same fieldnames lines :
  Forall (fun line => line = [] \/ length line = length fieldnames) lines ->
  match extract_defaults fieldnames lines,
        ExtractDefaults.extract_defaults (map plain_row (DictReader fieldnames lines)) with
  | Ok (s, msgs), Ok (s', msgs') => same_state s s' /\ msgs = msgs'
  | Raise e, Raise e' => e = e'
  | _, _ => False
  end.
Proof.
  intros Hall. unfold extract_defaults, ExtractDefaults.extract_defaults.
  assert (Hloop : forall s s', same_state s s' ->
            match for_rows (filter_row fieldnames) s (DictReader fieldnames lines),
                  for_rows ExtractDefaults.filter_row s'
                    (map plain_row (DictReader fieldnames lines)) with
            | Ok t, Ok t' => same_state t t'
            | Raise e, Raise e' => e = e'
            | _, _ => False
            end).
  { unfold DictReader. induction Hall as [|line lines Hline _ IH]; intros s s' Hs.
    - exact Hs.
    - cbn [List.filter]. destruct (decide (line = [])) as [->|Hne].
      + rewrite bool_decide_eq_true_2 by reflexivity. cbn [negb]. apply IH. exact Hs.
      + rewrite bool_decide_eq_false_2 by exact Hne. cbn [negb map for_rows].
        destruct Hline as [?|Hlen]; [contradiction|].
        pose proof (filter_row_same fieldnames line s s' Hlen Hs) as Hrow.
        destruct (filter_row fieldnames s (next_row fieldnames line)) as [t|e],
                 (ExtractDefaults.filter_row s' (plain_row (next_row fieldnames line)))
                   as [t'|e']; cbn [mbind result_bind]; try contradiction.
        * apply IH. exact Hrow.
        * exact Hrow. }
  assert (H0 : same_state initial ExtractDefaults.initial).
  { unfold same_state. cbn. rewrite set_map_empty, kmap_empty.
    repeat split; reflexivity. }
  specialize (Hloop _ _ H0).
  destruct (for_rows (filter_row fieldnames) initial _) as [t|e],
           (for_rows ExtractDefaults.filter_row ExtractDefaults.initial _) as [t'|e'];
    cbn [mbind result_bind]; try contradiction; [|exact Hloop].
  split; [exact Hloop|].
  destruct Hloop as (_ & _ & Ho & Hn & _).
  unfold duplicate_check, ExtractDefaults.duplicate_check.
  rewrite Ho, Hn, size_set_map_Some. reflexivity.
Qed.

End SelectorModels.

(** The script on the reference runtime, on a header of five names: a line
    that fits, a blank line, a short line (its year and its method are
    [None]), a long line that does not pass the filters, and a long line
    that does. *)
Definition ragged_header : list string :=
  ["pl_name"; "default_flag"; "pl_controv_flag"; "discoverymethod"; "disc_year"].

Definition ragged_lines : list (list string) :=
  [ ["51 Peg b"; "1"; "0"; "Radial Velocity"; "1995"];
    [];
    ["Short b"; "1"; "0"];
    ["Long b"; "0"; "0"; "Transit"; "2010"; "stray"];
    ["Long c"; "1"; "0"; "Transit"; "2011"; "stray"] ].

Example ragged_lines_stop_the_script :
  ExtractDefaultsCsv.extract_defaults (RT := RefRuntime.ref) ragged_header ragged_lines
  = Raise ValueError
  /\ (r ← ExtractDefaultsCsv.extract_defaults (RT := RefRuntime.ref) ragged_header
             (take 4 ragged_lines);
      Ok (ExtractDefaultsCsv.rows_total r.1, ExtractDefaultsCsv.rows_output r.1,
          elements (ExtractDefaultsCsv.planet_names r.1),
          ExtractDefaultsCsv.discovery_methods r.1 !! None,
          ExtractDefaultsCsv.discovery_methods r.1 !! Some "Radial Velocity",
          ExtractDefaultsCsv.discovery_years r.1, r.2))
     = Ok (3%nat, 2%nat, [Some "51 Peg b"; Some "Short b"],
           Some 1%nat, Some 1%nat, [1995%Z], [])
  /\ ExtractDefaultsCsv.extract_defaults (RT := RefRuntime.ref)
       ["hostname"; "default_flag"] [["Kepler-22"; "1"]]
     = Raise (KeyError "pl_name").
Proof. vm_compute. repeat split; reflexivity. Qed.

(** ** Step 2: the records written and the counters *)

Section NormalizerMore.
Context {RT : Runtime}.
Import SelectAndClean.

(** The method of line 204. *)
Definition mapped_method (row : gmap string string) : string :=
  map_detection_method (Some (default "" (row !! "discoverymethod")))
                       (Some (default "" (row !! "disc_facility"))).

(** The [out_row] of lines 215-238 for a row, given its separation and its
    planet type. *)
Definition out_row_of (row : gmap string string) (sep : option pynum) (ty : string)
  : clean_record :=
  {| name := default "" (row !! "pl_name");
     hostStar := default "" (row !! "hostname");
     period := parse_float (row !! "pl_orbper");
     separation := sep;
     radius := parse_float (row !! "pl_rade");
     mass := parse_float (row !! "pl_bmasse");
     massProvenance := default "" (row !! "pl_bmassprov");
     detectionMethod := mapped_method row;
     discoveryYear := default "" (row !! "disc_year");
     facility := default "" (row !! "disc_facility");
     temperature := parse_float (row !! "pl_eqt");
     density := parse_float (row !! "pl_dens");
     eccentricity := parse_float (row !! "pl_orbeccen");
     insolation := parse_float (row !! "pl_insol");
     starSpectralType := default "" (row !! "st_spectype");
     starTemperature := parse_float (row !! "st_teff");
     starRadius := parse_float (row !! "st_rad");
     starMass := parse_float (row !! "st_mass");
     distance := parse_float (row !! "sy_dist");
     ra := parse_float (row !! "ra");
     dec := parse_float (row !! "dec");
     planetType := ty |}.

(** Whether line 196 counts the separation of a row as calculated. *)
Definition counts_as_calculated (row : gmap string string) (sep : option pynum) : bool :=
  bool_decide (parse_float (row !! "pl_orbsmax") = None)
  && match sep with Some a => num_truthy a | None => false end.

(** One turn of the loop on a row with a period, in full. *)
Lemma clean_row_written_inv st row st' :
  clean_row st row = Ok st' ->
  has_period row = true ->
  exists sep ty,
    separation_of row = Ok sep /\ type_of row = Ok ty
    /\ written st' = written st ++ [out_row_of row sep ty]
    /\ missing_mass (st_stats st')
       = bump (bool_decide (parse_float (row !! "pl_bmasse") = None))
              (missing_mass (st_stats st))
    /\ missing_radius (st_stats st')
       = bump (bool_decide (parse_float (row !! "pl_rade") = None))
              (missing_radius (st_stats st))
    /\ calculated_separation (st_stats st')
       = bump (counts_as_calculated row sep) (calculated_separation (st_stats st))
    /\ detection_methods st' = counter_incr (mapped_method row) (detection_methods st)
    /\ planet_types st' = counter_incr ty (planet_types st).
Proof.
  unfold has_period, separation_of, type_of, period_of, clean_row, counts_as_calculated,
    out_row_of, mapped_method.
  intros Hrun Hp%bool_decide_eq_true.
  rewrite bool_decide_eq_false_2 in Hrun by exact Hp.
  destruct (parse_float (row !! "pl_orbsmax")) as [a|] eqn:Ha.
  - cbn [mbind result_bind] in Hrun.
    destruct (classify_planet _ _ _) as [ty|]; [|discriminate].
    cbn [mbind result_bind] in Hrun. injection Hrun as <-.
    eexists _, _. repeat split.
  - destruct (calculate_separation _ _) as [sep|]; [|discriminate].
    cbn [mbind result_bind] in Hrun.
    destruct (classify_planet _ _ _) as [ty|]; [|discriminate].
    cbn [mbind result_bind] in Hrun. injection Hrun as <-.
    eexists _, _. repeat split.
Qed.

(** One turn of the loop on a row without a period leaves all but two
    counters alone. *)
Lemma clean_row_skipped_inv st row st' :
  clean_row st row = Ok st' ->
  has_period row = false ->
  written st' = written st
  /\ missing_mass (st_stats st') = missing_mass (st_stats st)
  /\ missing_radius (st_stats st') = missing_radius (st_stats st)
  /\ calculated_separation (st_stats st') = calculated_separation (st_stats st)
  /\ detection_methods st' = detection_methods st
  /\ planet_types st' = planet_types st.
Proof.
  unfold has_period. intros Hrun Hp%bool_decide_eq_false. apply dec_stable in Hp.
  rewrite (clean_row_skip st row Hp) in Hrun. injection Hrun as <-. cbn.
  repeat split.
Qed.

(** The loop invariant for the records and for every counter. *)
Lemma for_rows_clean_full rows : forall st st',
  for_rows clean_row st rows = Ok st' ->
  exists cs,
    written st' = written st ++ cs
    /\ Forall2 (fun row c => exists sep ty,
                  separation_of row = Ok sep /\ type_of row = Ok ty
                  /\ c = out_row_of row sep ty)
               (List.filter has_period rows) cs
    /\ missing_mass (st_stats st')
       = (missing_mass (st_stats st)
          + length (List.filter (fun c => bool_decide (mass c = None)) cs))%nat
    /\ missing_radius (st_stats st')
       = (missing_radius (st_stats st)
          + length (List.filter (fun c => bool_decide (radius c = None)) cs))%nat
    /\ (calculated_separation (st_stats st')
        <= calculated_separation (st_stats st) + length cs)%nat
    /\ (forall m,
          default 0%nat (detection_methods st' !! m)
          = (default 0%nat (detection_methods st !! m)
             + length (List.filter (fun c => bool_decide (detectionMethod c = m)) cs))%nat)
    /\ (forall ty,
          default 0%nat (planet_types st' !! ty)
          = (default 0%nat (planet_types st !! ty)
             + length (List.filter (fun c => bool_decide (planetType c = ty)) cs))%nat).
Proof.
  induction rows as [|row rows IH]; intros st st'; cbn [for_rows].
  - intros [= <-]. exists []. rewrite app_nil_r. cbn.
    repeat split; try lia; try constructor; intros; lia.
  - destruct (clean_row st row) as [st1|] eqn:Hrow; [|discriminate].
    cbn [mbind result_bind]. intros Hrest.
    apply IH in Hrest as (cs & Hw & Hcs & Hmm & Hmr & Hcal & Hdm & Hpt).
    cbn [List.filter]. destruct (has_period row) eqn:Hp.
    + apply clean_row_written_inv in Hrow
        as (sep & ty & Hsep & Hty & Hw1 & Hmm1 & Hmr1 & Hcal1 & Hdm1 & Hpt1);
        [|exact Hp].
      exists (out_row_of row sep ty :: cs).
      rewrite Hw, Hw1, <- app_assoc. split; [reflexivity|].
      split; [constructor; [eauto|exact Hcs]|].
      rewrite Hmm, Hmr, Hmm1, Hmr1. rewrite Hcal1 in Hcal.
      cbn [List.filter mass radius out_row_of detectionMethod planetType].
      unfold bump in *.
      split; [destruct (bool_decide (parse_float (row !! "pl_bmasse") = None)); cbn; lia|].
      split; [destruct (bool_decide (parse_float (row !! "pl_rade") = None)); cbn; lia|].
      split; [destruct (counts_as_calculated row sep); cbn [length]; lia|].
      split.
      * intros m. rewrite Hdm, Hdm1, counter_incr_lookup. unfold bump.
        destruct (bool_decide (mapped_method row = m)); cbn [length]; lia.
      * intros ty'. rewrite Hpt, Hpt1, counter_incr_lookup. unfold bump.
        destruct (bool_decide (ty = ty')); cbn [length]; lia.
    + apply clean_row_skipped_inv in Hrow as (Hw1 & Hmm1 & Hmr1 & Hcal1 & Hdm1 & Hpt1);
        [|exact Hp].
      exists cs. rewrite Hw, Hw1, Hmm, Hmr, Hmm1, Hmr1. rewrite Hcal1 in Hcal.
      rewrite <- Hdm1, <- Hpt1. repeat split; auto.
Qed.

(** X5.  When the Normalizer/Classifier ends normally, its counters hold
    what the report prints them as: [total] is the number of rows read;
    the number of rows written is [total - missing_period], the figure
    printed as "Output rows"; [missing_mass] and [missing_radius] are the
    numbers of written records without a mass and without a radius (rows
    skipped for their period are not counted); and [calculated_separation]
    is at most the number of written records. *)
Theorem normalizer_counters (rows : list (gmap string string)) (st : state) :
  select_and_clean rows = Ok st ->
  total (st_stats st) = length rows
  /\ length (written st) = (total (st_stats st) - missing_period (st_stats st))%nat
  /\ missing_mass (st_stats st)
     = length (List.filter (fun c => bool_decide (mass c = None)) (written st))
  /\ missing_radius (st_stats st)
     = length (List.filter (fun c => bool_decide (radius c = None)) (written st))
  /\ (calculated_separation (st_stats st) <= length (written st))%nat.
Proof.
  unfold select_and_clean. intros Hrun.
  destruct (for_rows_clean_full rows _ _ Hrun) as (cs & Hw & Hcs & Hmm & Hmr & Hcal & _).
  apply for_rows_clean_inv in Hrun as (Ht & Hmp & _).
  cbn in Hw, Hmm, Hmr, Hcal, Ht, Hmp. subst cs.
  rewrite Ht, Hmp, Hmm, Hmr. apply Forall2_length in Hcs.
  assert (Hsplit : (length (List.filter has_period rows)
                    + length (List.filter (fun row => negb (has_period row)) rows)
                    = length rows)%nat).
  { clear. induction rows as [|row rows IH]; cbn; [reflexivity|].
    destruct (has_period row); cbn; lia. }
  repeat split; try lia.
Qed.

(** X6.  When the Normalizer/Classifier ends normally, its two tallies
    hold, for every detection category and every planet type, the number
    of written records that carry it. *)
Theorem normalizer_tallies (rows : list (gmap string string)) (st : state) :
  select_and_clean rows = Ok st ->
  (forall m,
     default 0%nat (detection_methods st !! m)
     = length (List.filter (fun c => bool_decide (detectionMethod c = m)) (written st)))
  /\ (forall ty,
        default 0%nat (planet_types st !! ty)
        = length (List.filter (fun c => bool_decide (planetType c = ty)) (written st))).
Proof.
  unfold select_and_clean. intros Hrun.
  destruct (for_rows_clean_full rows _ _ Hrun) as (cs & Hw & _ & _ & _ & _ & Hdm & Hpt).
  cbn in Hw. subst cs. split.
  - intros m. rewrite Hdm. reflexivity.
  - intros ty. rewrite Hpt. reflexivity.
Qed.

End NormalizerMore.

(** ** Step 2: the detection categories *)

Section DetectionMethod.
Import SelectAndClean.

(** The categories the mapping can answer. *)
Definition detection_categories : list string :=
  ["transit-kepler"; "transit-other"; "radial-velocity"; "microlensing";
   "direct-imaging"; "astrometry"; "other"].

(** X7.  Whatever the method and the facility, the detection-method
    mapping answers one of seven categories; the value "transit" that the
    table has for the method "Transit" is never answered. *)
Theorem detection_method_is_one_of_seven (method facility : option string) :
  In (map_detection_method method facility) detection_categories
  /\ map_detection_method method facility <> "transit".
Proof.
  assert (H : In (map_detection_method method facility) detection_categories).
  { unfold map_detection_method, detection_categories.
    destruct (bool_decide (method = Some "Transit")) eqn:Ht.
    - destruct (_ && _); cbn; auto.
    - apply bool_decide_eq_false in Ht.
      destruct method as [m|]; [|cbn; auto 10].
      destruct (DETECTION_METHOD_MAP !! m) as [v|] eqn:Hv; [|cbn; auto 10].
      apply elem_of_list_to_map_2 in Hv.
      cbn [default from_option id].
      repeat (apply elem_of_cons in Hv as [Hv|Hv];
              [injection Hv as -> ->; first [congruence | cbn; auto 10]|]).
      apply elem_of_nil in Hv. contradiction. }
  split; [exact H|].
  intros E. rewrite E in H. unfold detection_categories in H. cbn in H.
  repeat destruct H as [H|H]; try discriminate H. exact H.
Qed.

Lemma prefix_kepler_k2 s :
  String.prefix "Kepler/K2" s = true -> String.prefix "Kepler" s = true.
Proof.
  do 6 (destruct s as [|? s]; [discriminate|]; cbn [String.prefix];
        match goal with |- context [Ascii.ascii_dec ?a ?b] =>
          destruct (Ascii.ascii_dec a b); [|discriminate] end).
  intros _. destruct s; reflexivity.
Qed.

Lemma contains_kepler_k2 s :
  str_contains "Kepler/K2" s = true -> str_contains "Kepler" s = true.
Proof.
  induction s as [|c s IH].
  - cbn. discriminate.
  - cbn [str_contains]. intros [H|H]%orb_prop; apply orb_true_iff.
    + left. apply prefix_kepler_k2. exact H.
    + right. apply IH. exact H.
Qed.

(** X8.  For the method "Transit" the facility decides by substring: the
    answer is [transit-kepler] exactly when the facility text contains
    "Kepler" or "K2" (anywhere, in this spelling), and [transit-other]
    otherwise, also when no facility is given; the third member of
    [KEPLER_FACILITIES], "Kepler/K2", adds nothing. *)
Theorem transit_facility_is_matched_by_substring :
  (forall facility,
     map_detection_method (Some "Transit") (Some facility)
     = if str_contains "Kepler" facility || str_contains "K2" facility
       then "transit-kepler" else "transit-other")
  /\ map_detection_method (Some "Transit") None = "transit-other"
  /\ (forall facility,
        existsb (fun k => str_contains k facility) KEPLER_FACILITIES
        = existsb (fun k => str_contains k facility) ["Kepler"; "K2"]).
Proof.
  assert (Hex : forall facility,
            existsb (fun k => str_contains k facility) KEPLER_FACILITIES
            = str_contains "Kepler" facility || str_contains "K2" facility).
  { intros facility. unfold KEPLER_FACILITIES. cbn [existsb].
    rewrite orb_false_r.
    destruct (str_contains "Kepler/K2" facility) eqn:H3.
    - rewrite (contains_kepler_k2 _ H3). reflexivity.
    - rewrite orb_false_r. reflexivity. }
  split; [|split].
  - intros facility. unfold map_detection_method.
    rewrite bool_decide_eq_true_2 by reflexivity.
    change (default "" (Some facility)) with facility. rewrite Hex.
    destruct facility as [|c s].
    + reflexivity.
    + reflexivity.
  - reflexivity.
  - intros facility. rewrite Hex. cbn [existsb]. rewrite orb_false_r. reflexivity.
Qed.

End DetectionMethod.

(** ** Step 2: the classifier *)

(** Comparisons of a float with constants, read on the float's parts. *)
Ltac float_order :=
  rewrite ?FloatAxioms.ltb_spec, ?FloatAxioms.leb_spec, ?FloatAxioms.eqb_spec in *;
  unfold SFltb, SFleb, SFeqb in *;
  repeat match goal with H : context [Prim2SF _] |- _ => revert H end;
  repeat match goal with
         | |- context [Prim2SF ?c] =>
             tryif is_var c then fail else
               let v := eval vm_compute in (Prim2SF c) in
               change (Prim2SF c) with v
         end;
  repeat match goal with
         | |- context [Prim2SF ?c] => is_var c; destruct (Prim2SF c) as [[]|[]| |[] ? ?]
         end;
  cbn [SFcompare]; try (intros; congruence);
  repeat match goal with
         | |- context [Z.compare ?a ?b] => destruct (Z.compare_spec a b)
         end;
  try (intros; congruence); try (intros; exfalso; lia);
  repeat match goal with
         | |- context [Pos.compare_cont Eq ?a ?b] =>
             let E := fresh "E" in
             destruct (Pos.compare_cont Eq a b) eqn:E;
             [ apply Pos.compare_eq in E; apply (f_equal Z.pos) in E
             | apply (proj1 (Pos.compare_lt_iff a b)) in E; apply Pos2Z.pos_lt_pos in E
             | apply (proj1 (Pos.compare_gt_iff a b)) in E; apply Pos2Z.pos_lt_pos in E ]
         end;
  cbn [CompOpp]; try (intros; congruence); try (intros; exfalso; lia).

Lemma at_least_10_not_below_10 m : (10 <=? m)%float = true -> (m <? 10)%float = false.
Proof. intros H. float_order. Qed.

Lemma at_least_10_not_below_2 m : (10 <=? m)%float = true -> (m <? 2)%float = false.
Proof. intros H. float_order. Qed.

Section ClassifierMore.
Context {RT : Runtime}.
Import SelectAndClean.

(** X9.  For a planet whose mass is known and at least 10 Earth masses the
    classifier raises nothing and looks at neither the radius nor, below
    100 Earth masses, the period: above 100 the answer is [hot-jupiter]
    when the period is known, not zero and below 10 days, and
    [cold-jupiter] otherwise; from 10 to below 50 it is [neptune-like];
    and from 50 to 100 it is [sub-neptune], by the last line of the
    function or by the radius rule. *)
Theorem classification_of_a_mass_from_ten (m : float) (radius period : option float) :
  (10 <=? m)%float = true ->
  classify_planet (Some m) radius period
  = Ok (if (100 <? m)%float
        then (if period_below period 10 then "hot-jupiter" else "cold-jupiter")
        else if (m <? 50)%float then "neptune-like" else "sub-neptune").
Proof.
  intros H10. pose proof (at_least_10_not_below_10 m H10) as Hlt10.
  pose proof (at_least_10_not_below_2 m H10) as Hlt2.
  unfold classify_planet. cbn [bool_decide decide_rel andb fmap option_fmap option_map].
  rewrite bool_decide_eq_false_2 by discriminate. cbn [andb].
  assert (Hr : exists r,
             (if opt_truthy radius then Ok (PFloat <$> radius)
              else if float_truthy m && (m <? 10)%float
                   then v ← float_pow m 0.28; Ok (Some v) else Ok None) = Ok r
             /\ forall rv, r = Some rv -> exists x, rv = PFloat x).
  { destruct (opt_truthy radius).
    - eexists. split; [reflexivity|]. destruct radius; cbn; intros rv [= <-]; eauto.
    - rewrite Hlt10, andb_false_r. eexists. split; [reflexivity|]. discriminate. }
  destruct Hr as (r & -> & Hreal). cbn [mbind result_bind num_lt num_gt num_ge].
  rewrite Hlt10. unfold and_then. rewrite H10, Hlt2.
  destruct (period_below period 1); cbn [mbind result_bind];
    (destruct (100 <? m)%float; cbn [andb mbind result_bind];
     [destruct (period_below period 10); reflexivity|];
     destruct (m <? 50)%float; cbn [mbind result_bind]; [reflexivity|];
     destruct r as [rv|]; cbn [mbind result_bind];
     [destruct (Hreal rv eq_refl) as [x ->]; cbn [num_truthy num_ge num_lt];
      destruct (float_truthy x); cbn [mbind result_bind];
      [destruct (2 <=? x)%float; cbn [mbind result_bind];
       [destruct (x <? 4)%float; cbn [mbind result_bind]|]|]|];
     try reflexivity; destruct (2 <=? m)%float; reflexivity).
Qed.

(** Every answer of the classifier's rules, once a mass is known or
    estimated, is a planet type other than [unknown]. *)
Ltac classifier_cases H :=
  repeat match type of H with
         | context [and_then ?a ?b] => unfold and_then in H
         | context [match ?x with PFloat _ => _ | PComplex _ _ => _ end] =>
             destruct x; cbn [mbind result_bind] in H
         | context [mbind _ (num_lt ?v ?c)] =>
             destruct v; cbn [num_lt mbind result_bind] in H
         | context [mbind _ (num_gt ?v ?c)] =>
             destruct v; cbn [num_gt mbind result_bind] in H
         | context [mbind _ (num_ge ?v ?c)] =>
             destruct v; cbn [num_ge mbind result_bind] in H
         | context [mbind _ (if ?b then _ else _)] =>
             destruct b; cbn [mbind result_bind] in H
         | context [if ?b then _ else _] =>
             destruct b; cbn [mbind result_bind] in H
         | context [mbind _ ?x] =>
             destruct x; cbn [mbind result_bind] in H
         end;
  try discriminate H.

(** X10.  The classifier answers [unknown] exactly when the mass is absent
    and the radius is absent or zero: with a mass, or with a radius that is
    not zero, it answers a planet type or raises. *)
Theorem unknown_type_means_no_mass_and_no_radius (mass radius period : option float) :
  classify_planet mass radius period = Ok "unknown"
  <-> mass = None /\ opt_truthy radius = false.
Proof.
  split.
  - unfold classify_planet. intros H.
    destruct mass as [ms|]; [exfalso|].
    + rewrite bool_decide_eq_false_2 in H by discriminate.
      cbn [andb fmap option_fmap option_map] in H.
      destruct (opt_truthy radius); cbn [mbind result_bind] in H.
      * classifier_cases H.
      * destruct (float_truthy ms && (ms <? 10)%float); cbn [mbind result_bind] in H.
        -- destruct (float_pow ms 0.28) as [v|]; cbn [mbind result_bind] in H;
             [|discriminate H].
           classifier_cases H.
        -- classifier_cases H.
    + split; [reflexivity|].
      destruct (opt_truthy radius) eqn:Hr; [exfalso|reflexivity].
      destruct radius as [r|]; [|discriminate Hr].
      rewrite bool_decide_eq_true_2 in H by reflexivity.
      rewrite bool_decide_eq_false_2 in H by discriminate.
      cbn [andb fmap option_fmap option_map mbind result_bind num_lt] in H.
      destruct (r <? 1.5)%float; cbn [mbind result_bind] in H.
      * destruct (num_pow (PFloat r) 3.3) as [v|]; cbn [mbind result_bind] in H;
          [|discriminate H].
        classifier_cases H.
      * destruct (num_pow (PFloat r) 2.1) as [v|]; cbn [mbind result_bind] in H;
          [|discriminate H].
        destruct (num_mul v 2) eqn:Hv. 
        all: classifier_cases H.
  - intros [-> Hr]. unfold classify_planet.
    destruct radius as [r|]; [|reflexivity].
    rewrite bool_decide_eq_true_2 by reflexivity.
    rewrite bool_decide_eq_false_2 by discriminate.
    rewrite Hr. reflexivity.
Qed.

(** The planet types. *)
Definition planet_type_names : list string :=
  ["unknown"; "ultra-short-period"; "hot-jupiter"; "cold-jupiter"; "neptune-like";
   "sub-neptune"; "super-earth"; "rocky"].

Ltac known_type H := injection H as <-; unfold planet_type_names; cbn [In]; tauto.

(** X11.  Whatever the classifier answers is one of eight planet types. *)
Theorem classifier_answers_one_of_eight_types
  (mass radius period : option float) (ty : string) :
  classify_planet mass radius period = Ok ty -> In ty planet_type_names.
Proof.
  unfold classify_planet. intros H.
  destruct (bool_decide (mass = None) && bool_decide (radius = None));
    [known_type H|].
  destruct (if opt_truthy radius then _ else _) as [r|]; cbn [mbind result_bind] in H;
    [|discriminate H].
  destruct (match PFloat <$> mass with Some _ => _ | None => _ end) as [[m|]|];
    cbn [mbind result_bind] in H; [|known_type H|discriminate H].
  classifier_cases H; known_type H.
Qed.

End ClassifierMore.

(** ** Step 2: the numbers of a written record *)

Section RecordNumbers.
Context {RT : Runtime}.
Import SelectAndClean.

(** The columns of a record that [parse_float] fills. *)
Definition parsed_numbers (c : clean_record) : list (option float) :=
  [period c; radius c; mass c; temperature c; density c; eccentricity c;
   insolation c; starTemperature c; starRadius c; starMass c; distance c;
   ra c; dec c].

Lemma parse_float_not_nan value f :
  parse_float value = Some f -> is_nan f = false.
Proof.
  unfold parse_float. destruct value as [s|]; [|discriminate].
  destruct (_ || _); [discriminate|].
  destruct (py_float s) as [x|]; [|discriminate].
  destruct (is_nan x) eqn:Hx; [discriminate|]. intros [= <-]. exact Hx.
Qed.

(** X12.  No number that the Normalizer/Classifier parses into a record is
    a NaN: in every written record the period, the radius, the mass and
    the ten other parsed columns each hold a number that is not NaN, or
    nothing. *)
Theorem parsed_numbers_are_never_nan (rows : list (gmap string string)) (st : state) :
  select_and_clean rows = Ok st ->
  Forall (fun c => Forall (fun x => forall f, x = Some f -> is_nan f = false)
                          (parsed_numbers c))
         (written st).
Proof.
  unfold select_and_clean. intros Hrun.
  destruct (for_rows_clean_full rows _ _ Hrun) as (cs & Hw & Hcs & _).
  cbn in Hw. subst cs. clear Hrun.
  induction Hcs as [|row c rows' cs (sep & ty & _ & _ & ->) _ IH]; constructor; [|exact IH].
  unfold parsed_numbers, out_row_of.
  cbn [period radius mass temperature density eccentricity insolation starTemperature
       starRadius starMass distance ra dec].
  repeat constructor; intros f Hf; exact (parse_float_not_nan _ _ Hf).
Qed.

(** X13.  Every record the Normalizer/Classifier writes has a separation:
    the one of the catalog when the row has one (it is kept as it is, also
    when it is zero), and otherwise the one derived from the period. *)
Theorem written_records_have_a_separation (rows : list (gmap string string)) (st : state) :
  select_and_clean rows = Ok st ->
  Forall2 (fun row c =>
             separation c <> None
             /\ (forall a, parse_float (row !! "pl_orbsmax") = Some a ->
                           separation c = Some (PFloat a))
             /\ (parse_float (row !! "pl_orbsmax") = None ->
                 exists days star_mass a,
                   period_of row = Some days
                   /\ kepler_separation days star_mass = Ok a
                   /\ separation c = Some a))
          (List.filter has_period rows) (written st).
Proof.
  unfold select_and_clean. intros Hrun.
  destruct (for_rows_clean_full rows _ _ Hrun) as (cs & Hw & Hcs & _).
  cbn in Hw. subst cs. clear Hrun.
  assert (Hall : Forall (fun row => has_period row = true) (List.filter has_period rows)).
  { apply List.Forall_forall. intros row [_ Hrow]%filter_In. exact Hrow. }
  induction Hcs as [|row c rows' cs (sep & ty & Hsep & _ & ->) _ IH]; constructor.
  - inversion Hall as [|? ? Hp _]; subst. cbn [separation out_row_of].
    unfold has_period in Hp. apply bool_decide_eq_true in Hp.
    unfold separation_of in Hsep.
    destruct (parse_float (row !! "pl_orbsmax")) as [a|].
    + injection Hsep as <-. split; [discriminate|]. split; [|discriminate].
      intros a' [= <-]. reflexivity.
    + destruct (period_of row) as [days|]; [|contradiction].
      rewrite calculate_separation_kepler in Hsep.
      destruct (kepler_separation days _) as [a|] eqn:Hk; [|discriminate].
      cbn in Hsep. injection Hsep as <-.
      split; [discriminate|]. split; [discriminate|]. intros _.
      eexists _, _, _. split; [reflexivity|]. split; [exact Hk|reflexivity].
  - apply IH. inversion Hall; assumption.
Qed.

End RecordNumbers.

(** ** Step 3: reading values and making identifiers *)

Section EnricherMore.
Context {RT : Runtime}.

(** X14.  [parse_value] raises in one case only: asked for an integer, on
    a text that reads as an infinite number, it raises [OverflowError]
    (the [except] clause names [ValueError] and [TypeError]).  Asked for a
    float or a string it never raises. *)
Theorem parse_value_raises_on_an_infinite_integer
  (value : option string) (t : field_type) (e : exn) :
  parse_value value t = Raise e
  <-> t = FInt /\ e = OverflowError
      /\ exists s f, value = Some s /\ s <> "" /\ s <> "None"
                     /\ float_of_string s = Some f /\ is_infinity f = true.
Proof.
  unfold parse_value. destruct value as [s|].
  2:{ split; [discriminate|]. intros (_ & _ & s & f & ? & _). discriminate. }
  destruct (String.eqb_spec s "") as [->|Hne]; cbn [orb].
  { split; [discriminate|]. intros (_ & _ & s & f & [= <-] & ? & _). contradiction. }
  destruct (String.eqb_spec s "None") as [->|Hnn].
  { split; [discriminate|]. intros (_ & _ & s & f & [= <-] & _ & ? & _). contradiction. }
  unfold py_float, int_of_float.
  destruct t.
  - split; [discriminate|]. intros (? & _). discriminate.
  - destruct (float_of_string s); (split; [discriminate|]); intros (? & _); discriminate.
  - destruct (float_of_string s) as [f|] eqn:Hf; cbn [mbind result_bind].
    2:{ split; [discriminate|]. intros (_ & _ & s' & f & [= <-] & _ & _ & Hf' & _).
        congruence. }
    destruct (is_nan f) eqn:Hnan.
    { split; [discriminate|]. intros (_ & _ & s' & f' & [= <-] & _ & _ & Hf' & Hinf).
      rewrite Hf in Hf'. injection Hf' as <-.
      apply is_infinity_not_nan in Hinf. congruence. }
    destruct (is_infinity f) eqn:Hinf.
    + split.
      * intros [= <-]. split; [reflexivity|]. split; [reflexivity|]. exists s, f. auto.
      * intros (_ & -> & _). reflexivity.
    + split; [discriminate|].
      intros (_ & _ & s' & f' & [= <-] & _ & _ & Hf' & Hinf'). congruence.
Qed.

Lemma append_chars (P : ascii -> Prop) (a b : string) :
  Forall P (list_ascii_of_string a) -> Forall P (list_ascii_of_string b) ->
  Forall P (list_ascii_of_string (String.append a b)).
Proof.
  induction a as [|x a IH]; cbn [String.append list_ascii_of_string]; [auto|].
  intros Ha Hb. inversion Ha; subst. constructor; auto.
Qed.

Lemma str_replace_chars (c : ascii) (by_ s : string) (P : ascii -> Prop) :
  Forall P (list_ascii_of_string by_) ->
  Forall (fun a => a <> c -> P a) (list_ascii_of_string s) ->
  Forall P (list_ascii_of_string (str_replace c by_ s)).
Proof.
  intros Hby. induction s as [|a s IH]; cbn [str_replace list_ascii_of_string].
  - constructor.
  - intros Hs. inversion Hs as [|? ? Ha Hrest]; subst.
    destruct (Ascii.eqb_spec a c) as [->|Hne].
    + apply append_chars; [exact Hby|exact (IH Hrest)].
    + cbn [list_ascii_of_string]. constructor; [exact (Ha Hne)|exact (IH Hrest)].
Qed.

(** X15.  An identifier made by [generate_id] begins with "exo-" and has
    no space and no plus sign in it, whatever the name. *)
Theorem generated_id_has_no_space_and_no_plus (name : string) :
  String.prefix "exo-" (generate_id name) = true
  /\ Forall (fun a => a <> " "%char /\ a <> "+"%char)
            (list_ascii_of_string (generate_id name)).
Proof.
  unfold generate_id. cbn [String.append]. split.
  { unfold String.prefix.
    repeat match goal with |- context [Ascii.ascii_dec ?a ?b] =>
             destruct (Ascii.ascii_dec a b); [|congruence] end.
    destruct (str_replace _ _ _); reflexivity. }
  cbn [list_ascii_of_string].
  repeat (constructor; [split; discriminate|]).
  apply str_replace_chars.
  - repeat constructor; discriminate.
  - assert (H : Forall (fun a => a <> " "%char)
                  (list_ascii_of_string (str_replace " " "-" (str_lower name)))).
    { apply str_replace_chars.
      - repeat constructor; discriminate.
      - apply List.Forall_forall. intros a _ Ha. exact Ha. }
    eapply List.Forall_impl; [|exact H]. cbn. intros a Ha Hp. auto.
Qed.

End EnricherMore.

(** ** Step 3: the order of equal keys, and the narrative *)

Lemma string_ltb_both_false a b :
  String.ltb a b = false -> String.ltb b a = false -> a = b.
Proof.
  unfold String.ltb. rewrite (String.compare_antisym a b).
  destruct (String.compare b a) eqn:E; cbn; try discriminate.
  intros _ _. symmetry. apply String.compare_eq_iff. exact E.
Qed.

(** Two sort keys that [<] does not tell apart are the same key. *)
Lemma same_key_is_equality (k : Z * string) (p : planet) :
  same_key key_lt sort_key k p = bool_decide (sort_key p = k).
Proof.
  unfold same_key, key_lt. generalize (sort_key p). intros [y n]. destruct k as [y' n'].
  cbn [fst snd]. rewrite (Z.eqb_sym y' y).
  destruct (Z.eqb_spec y y') as [->|Hne].
  - destruct (String.ltb n n') eqn:H1; cbn [negb andb].
    + rewrite bool_decide_eq_false_2; [reflexivity|]. intros [= ->].
      unfold String.ltb in H1. rewrite string_compare_refl in H1. discriminate.
    + destruct (String.ltb n' n) eqn:H2; cbn [negb].
      * rewrite bool_decide_eq_false_2; [reflexivity|]. intros [= ->].
        unfold String.ltb in H2. rewrite string_compare_refl in H2. discriminate.
      * rewrite bool_decide_eq_true_2; [reflexivity|].
        f_equal. apply string_ltb_both_false; assumption.
  - rewrite bool_decide_eq_false_2 by congruence.
    destruct (Z.ltb_spec y y'), (Z.ltb_spec y' y); cbn; try reflexivity; lia.
Qed.

Lemma filter_ext_eq {A : Type} (f g : A -> bool) (l : list A) :
  (forall a, f a = g a) -> List.filter f l = List.filter g l.
Proof. intros H. induction l as [|a l IH]; cbn; [reflexivity|]. rewrite H, IH. reflexivity. Qed.

Lemma permutation_filter_length {A : Type} (f : A -> bool) (l l' : list A) :
  Permutation l l' -> length (List.filter f l) = length (List.filter f l').
Proof.
  induction 1 as [|x l l' _ IH|x y l|l l' l'' _ IH1 _ IH2]; cbn.
  - reflexivity.
  - destruct (f x); cbn; lia.
  - destruct (f x), (f y); reflexivity.
  - congruence.
Qed.

Section EnricherOrder.
Context {RT : Runtime}.

(** X16.  The Enricher's sort is stable: the records that have one and the
    same sort key (the same year, or none or zero, and the same name) come
    out in the order of their rows. *)
Theorem enricher_keeps_the_order_of_equal_keys nd rows st :
  enrich_narrative nd rows = Ok st ->
  exists built,
    Forall2 (fun row p => build_planet nd row = Ok p) rows built
    /\ forall k,
         List.filter (fun p => bool_decide (sort_key p = k)) (planets st)
         = List.filter (fun p => bool_decide (sort_key p = k)) built.
Proof.
  unfold enrich_narrative. intros Hrun.
  destruct (for_rows (enrich_row nd) _ rows) as [st1|] eqn:Hloop; [|discriminate].
  cbn [mbind result_bind] in Hrun. injection Hrun as <-. cbn [planets].
  apply for_rows_enrich_inv in Hloop as (built & Hw & Hb). cbn in Hw. subst built.
  exists (planets st1). split; [exact Hb|]. intros k.
  rewrite <- (filter_ext_eq _ _ _ (same_key_is_equality k)).
  rewrite <- (filter_ext_eq _ _ (planets st1) (same_key_is_equality k)).
  apply py_sort_stable. exact key_not_lt_trans.
Qed.

Ltac bind_ok H :=
  match type of H with
  | (?m ≫= _) = Ok _ =>
      let E := fresh "E" in
      destruct m eqn:E; cbn [mbind result_bind] in H; [|discriminate H]
  end.

(** The narrative of a planet object is the entry under its name. *)
Lemma build_planet_narrative nd row p :
  build_planet nd row = Ok p ->
  row !! "name" = Some (name p)
  /\ _narrative p
     = match nd !! name p with
       | Some entry =>
           Some {| isNotable := default false (entry_isNotable entry);
                   notableReason := entry_notableReason entry;
                   description := entry_description entry;
                   sources := default [] (entry_sources entry) |}
       | None => None
       end.
Proof.
  unfold build_planet, getitem. intros H.
  destruct (row !! "name") as [nm|]; [|discriminate H].
  destruct (row !! "hostStar") as [hs|]; [|discriminate H].
  cbn [mbind result_bind] in H.
  repeat bind_ok H. injection H as <-. cbn. split; reflexivity.
Qed.

Lemma enrich_row_count nd st row st' :
  enrich_row nd st row = Ok st' ->
  exists p,
    build_planet nd row = Ok p
    /\ planets st' = planets st ++ [p]
    /\ notable_count st'
       = bump (bool_decide (_narrative p <> None)) (notable_count st).
Proof.
  unfold enrich_row. destruct (build_planet nd row) as [p|]; [|discriminate].
  cbn [mbind result_bind]. intros [= <-]. exists p. cbn. repeat split.
Qed.

Lemma for_rows_enrich_count nd rows : forall st st',
  for_rows (enrich_row nd) st rows = Ok st' ->
  exists built,
    planets st' = planets st ++ built
    /\ Forall2 (fun row p => build_planet nd row = Ok p) rows built
    /\ notable_count st'
       = (notable_count st
          + length (List.filter (fun p => bool_decide (is_Some (nd !! name p))) built))%nat.
Proof.
  induction rows as [|row rows IH]; intros st st'; cbn [for_rows].
  - intros [= <-]. exists []. rewrite app_nil_r. cbn. repeat split; [constructor|lia].
  - destruct (enrich_row nd st row) as [st1|] eqn:Hrow; [|discriminate].
    cbn [mbind result_bind]. intros Hrest.
    apply IH in Hrest as (built & Hw & Hb & Hn).
    apply enrich_row_count in Hrow as (p & Hp & Hw1 & Hn1).
    exists (p :: built). rewrite Hw, Hw1, <- app_assoc. split; [reflexivity|].
    split; [constructor; assumption|]. rewrite Hn, Hn1. cbn [List.filter]. unfold bump.
    destruct (build_planet_narrative nd row p Hp) as [_ Hnar]. rewrite Hnar.
    destruct (nd !! name p) as [entry|].
    + rewrite bool_decide_eq_true_2 by discriminate.
      rewrite (bool_decide_eq_true_2 (is_Some (Some entry))) by eauto. cbn [length]. lia.
    + rewrite bool_decide_eq_false_2 by (intros H; apply H; reflexivity).
      rewrite (bool_decide_eq_false_2 (is_Some None)) by (intros [? ?]; discriminate).
      lia.
Qed.

(** X17.  The Enricher makes one planet object for each row and drops
    none; an object has a narrative exactly when the narrative file has an
    entry under the planet's name; and the [notableCount] it writes is the
    number of objects that have one. *)
Theorem enricher_counts_the_planets_with_a_narrative nd rows st :
  enrich_narrative nd rows = Ok st ->
  length (planets st) = length rows
  /\ Forall (fun p => _narrative p <> None <-> is_Some (nd !! name p)) (planets st)
  /\ notable_count st
     = length (List.filter (fun p => bool_decide (_narrative p <> None)) (planets st)).
Proof.
  unfold enrich_narrative. intros Hrun.
  destruct (for_rows (enrich_row nd) _ rows) as [st1|] eqn:Hloop; [|discriminate].
  cbn [mbind result_bind] in Hrun. injection Hrun as <-. cbn [planets notable_count].
  apply for_rows_enrich_count in Hloop as (built & Hw & Hb & Hn). cbn in Hw, Hn.
  subst built.
  assert (Hnar : Forall (fun p => _narrative p <> None <-> is_Some (nd !! name p))
                        (planets st1)).
  { clear Hn. induction Hb as [|row p rows' ps Hp _ IH]; constructor; [|exact IH].
    destruct (build_planet_narrative nd row p Hp) as [_ ->].
    destruct (nd !! name p); split; try discriminate; eauto.
    - intros H; contradiction.
    - intros [? ?]; discriminate. }
  pose proof (py_sort_perm key_lt sort_key (planets st1)) as Hperm.
  split; [|split].
  - rewrite (Permutation_length Hperm). symmetry. eapply Forall2_length. exact Hb.
  - eapply Permutation_Forall; [symmetry; exact Hperm|exact Hnar].
  - rewrite Hn, (permutation_filter_length _ _ _ Hperm).
    f_equal. clear -Hnar. induction Hnar as [|p ps Hp _ IH]; cbn; [reflexivity|].
    rewrite IH. destruct (decide (is_Some (nd !! name p))) as [Hs|Hs].
    + rewrite bool_decide_eq_true_2 by exact Hs.
      rewrite bool_decide_eq_true_2 by (apply Hp; exact Hs). reflexivity.
    + rewrite bool_decide_eq_false_2 by exact Hs.
      rewrite bool_decide_eq_false_2 by (intros H; apply Hs, Hp; exact H). reflexivity.
Qed.

End EnricherOrder.

(** ** From step 2 to step 3: the file between them *)

Section CleanedFile.
Context {RT : Runtime}.
Import SelectAndClean.

(** X18.  Steps 2 and 3 agree on the columns of [step2-cleaned.csv]: a row
    that step 2 writes has exactly the columns of the header (so the
    writer never refuses a row and never fills a column in by itself), the
    header has 22 distinct columns, and they are the columns step 3 reads:
    the name, the host star, the fields of [FIELD_TYPES] and the five text
    fields. *)
Theorem cleaned_file_columns (c : clean_record) :
  dom (csv_row c) = list_to_set (C := gset string) output_fields
  /\ NoDup output_fields
  /\ length output_fields = 22%nat
  /\ list_to_set (C := gset string) output_fields
     = list_to_set (["name"; "hostStar"] ++ map fst FIELD_TYPES ++ STRING_FIELDS).
Proof.
  split; [|split; [|split]].
  - unfold csv_row. rewrite dom_list_to_map_L. reflexivity.
  - unfold output_fields, COLUMN_MAP. cbn [map snd app].
    apply (bool_decide_unpack _). vm_compute. exact I.
  - reflexivity.
  - unfold output_fields, COLUMN_MAP, FIELD_TYPES, STRING_FIELDS. cbn [map snd fst app].
    apply set_eq. intros x. rewrite !elem_of_list_to_set, !list_elem_of_In. cbn [In].
    tauto.
Qed.

End CleanedFile.

Section ReadingBack.
Context {RT : Runtime}.
Import SelectAndClean.

(** The text printed for a number reads back as that number, and is not a
    text that [parse_value] takes for a missing value. *)
Definition reads_back (x : option float) : Prop :=
  match x with
  | None => True
  | Some f =>
      float_of_string (str_of_float f) = Some f
      /\ str_of_float f <> "" /\ str_of_float f <> "None"
  end.

(** A text field as step 3 keeps it: the empty text becomes [None]. *)
Definition text_or_none (s : string) : option string :=
  if String.eqb s "" then None else Some s.

(** The numbers of a planet object, in the order of [parsed_numbers]. *)
Definition planet_numbers (p : planet) : list (option float) :=
  [EnrichNarrative.period p; EnrichNarrative.radius p; EnrichNarrative.mass p;
   EnrichNarrative.temperature p; EnrichNarrative.density p;
   EnrichNarrative.eccentricity p; EnrichNarrative.insolation p;
   EnrichNarrative.starTemperature p; EnrichNarrative.starRadius p;
   EnrichNarrative.starMass p; EnrichNarrative.distance p;
   EnrichNarrative.ra p; EnrichNarrative.dec p].

Lemma numeric_field_reads_back row field x :
  row !! field = Some (float_cell x) -> reads_back x ->
  numeric_field row field FFloat = Ok x.
Proof.
  unfold numeric_field, parse_value, py_float, reads_back. intros ->.
  destruct x as [f|]; cbn [float_cell].
  - intros (Hread & Hne & Hnn).
    destruct (String.eqb_spec (str_of_float f) "") as [E|_]; [contradiction|].
    destruct (String.eqb_spec (str_of_float f) "None") as [E|_]; [contradiction|].
    cbn [orb]. rewrite Hread. reflexivity.
  - reflexivity.
Qed.

Lemma string_field_text row field s :
  row !! field = Some s -> string_field row field = text_or_none s.
Proof.
  unfold string_field, text_or_none, str_truthy. intros ->.
  destruct s; reflexivity.
Qed.

(** X19.  Step 3 reads back what step 2 wrote.  Take a record of step 2
    whose numbers each print as a text that reads back as the same number,
    whose separation is a real number, and whose discovery year text step 3
    can read.  Then the planet object built from the record's row has the
    record's name and host star, the same thirteen parsed numbers and the
    same separation, the year read from the text, the five text fields
    with the empty text turned into [None], and a provenance map that says
    of period, mass, radius and temperature whether the record has them
    and of the separation that it is observed. *)
Theorem enricher_reads_back_a_cleaned_record
  (c : clean_record) (nd : gmap string narrative_entry) (a : float) (year : option Z) :
  Forall reads_back (parsed_numbers c) ->
  SelectAndClean.separation c = Some (PFloat a) ->
  reads_back (Some a) ->
  parse_value (Some (SelectAndClean.discoveryYear c)) FInt = Ok year ->
  exists p,
    build_planet nd (csv_row c) = Ok p
    /\ EnrichNarrative.name p = SelectAndClean.name c
    /\ EnrichNarrative.hostStar p = SelectAndClean.hostStar c
    /\ planet_numbers p = parsed_numbers c
    /\ EnrichNarrative.separation p = Some a
    /\ EnrichNarrative.discoveryYear p = year
    /\ [EnrichNarrative.massProvenance p; EnrichNarrative.detectionMethod p;
        EnrichNarrative.facility p; EnrichNarrative.starSpectralType p;
        EnrichNarrative.planetType p]
       = map text_or_none
           [SelectAndClean.massProvenance c; SelectAndClean.detectionMethod c;
            SelectAndClean.facility c; SelectAndClean.starSpectralType c;
            SelectAndClean.planetType c]
    /\ _observed p
       = {| obs_period := bool_decide (SelectAndClean.period c <> None);
            obs_mass := bool_decide (SelectAndClean.mass c <> None);
            obs_radius := bool_decide (SelectAndClean.radius c <> None);
            obs_temperature := bool_decide (SelectAndClean.temperature c <> None);
            obs_separation := true |}.
Proof.
  intros Hnum Hsep Ha Hyear.
  unfold parsed_numbers in Hnum.
  apply Forall_cons in Hnum as [Rperiod Hnum].
  apply Forall_cons in Hnum as [Rradius Hnum].
  apply Forall_cons in Hnum as [Rmass Hnum].
  apply Forall_cons in Hnum as [Rtemperature Hnum].
  apply Forall_cons in Hnum as [Rdensity Hnum].
  apply Forall_cons in Hnum as [Reccentricity Hnum].
  apply Forall_cons in Hnum as [Rinsolation Hnum].
  apply Forall_cons in Hnum as [RstarTemperature Hnum].
  apply Forall_cons in Hnum as [RstarRadius Hnum].
  apply Forall_cons in Hnum as [RstarMass Hnum].
  apply Forall_cons in Hnum as [Rdistance Hnum].
  apply Forall_cons in Hnum as [Rra Hnum].
  apply Forall_cons in Hnum as [Rdec _].
  assert (Lsep : csv_row c !! "separation" = Some (float_cell (Some a))).
  { change (csv_row c !! "separation")
      with (Some (num_cell (SelectAndClean.separation c))).
    rewrite Hsep. reflexivity. }
  unfold build_planet, getitem.
  change (csv_row c !! "name") with (Some (SelectAndClean.name c)).
  change (csv_row c !! "hostStar") with (Some (SelectAndClean.hostStar c)).
  cbn [mbind result_bind].
  rewrite (numeric_field_reads_back (csv_row c) "period" _ eq_refl Rperiod).
  rewrite (numeric_field_reads_back (csv_row c) "separation" _ Lsep Ha).
  rewrite (numeric_field_reads_back (csv_row c) "radius" _ eq_refl Rradius).
  rewrite (numeric_field_reads_back (csv_row c) "mass" _ eq_refl Rmass).
  assert (Hy : numeric_field (csv_row c) "discoveryYear" FInt = Ok year) by exact Hyear.
  rewrite Hy.
  rewrite (numeric_field_reads_back (csv_row c) "temperature" _ eq_refl Rtemperature).
  rewrite (numeric_field_reads_back (csv_row c) "density" _ eq_refl Rdensity).
  rewrite (numeric_field_reads_back (csv_row c) "eccentricity" _ eq_refl Reccentricity).
  rewrite (numeric_field_reads_back (csv_row c) "insolation" _ eq_refl Rinsolation).
  rewrite (numeric_field_reads_back (csv_row c) "starTemperature" _ eq_refl RstarTemperature).
  rewrite (numeric_field_reads_back (csv_row c) "starRadius" _ eq_refl RstarRadius).
  rewrite (numeric_field_reads_back (csv_row c) "starMass" _ eq_refl RstarMass).
  rewrite (numeric_field_reads_back (csv_row c) "distance" _ eq_refl Rdistance).
  rewrite (numeric_field_reads_back (csv_row c) "ra" _ eq_refl Rra).
  rewrite (numeric_field_reads_back (csv_row c) "dec" _ eq_refl Rdec).
  cbn [mbind result_bind]. eexists. split; [reflexivity|].
  cbn [EnrichNarrative.name EnrichNarrative.hostStar planet_numbers
       EnrichNarrative.period EnrichNarrative.radius EnrichNarrative.mass
       EnrichNarrative.temperature EnrichNarrative.density EnrichNarrative.eccentricity
       EnrichNarrative.insolation EnrichNarrative.starTemperature
       EnrichNarrative.starRadius EnrichNarrative.starMass EnrichNarrative.distance
       EnrichNarrative.ra EnrichNarrative.dec EnrichNarrative.separation
       EnrichNarrative.discoveryYear EnrichNarrative.massProvenance
       EnrichNarrative.detectionMethod EnrichNarrative.facility
       EnrichNarrative.starSpectralType EnrichNarrative.planetType _observed].
  do 5 (split; [reflexivity|]).
  split.
  - rewrite (string_field_text (csv_row c) "massProvenance" _ eq_refl),
      (string_field_text (csv_row c) "detectionMethod" _ eq_refl),
      (string_field_text (csv_row c) "facility" _ eq_refl),
      (string_field_text (csv_row c) "starSpectralType" _ eq_refl),
      (string_field_text (csv_row c) "planetType" _ eq_refl).
    reflexivity.
  - rewrite Lsep. cbn [float_cell default from_option]. unfold Datatypes.id.
    destruct Ha as (_ & Hne & _).
    destruct (String.eqb_spec (str_of_float a) "") as [E|_]; [contradiction|].
    rewrite (bool_decide_eq_true_2 (Some (str_of_float a) <> None)) by discriminate.
    reflexivity.
Qed.

End ReadingBack.

(** ** Step 4: the statistics *)

Section FinalizerMore.
Import GenerateFinal.

(** X20.  Simplifying a facility name twice is simplifying it once: the
    answer is one of the four short names, which simplify to themselves,
    or the name as it was. *)
Theorem simplified_facility_is_stable (facility : string) :
  simplify_facility (simplify_facility facility) = simplify_facility facility
  /\ (In (simplify_facility facility) ["Kepler"; "K2"; "TESS"; "HARPS"]
      \/ simplify_facility facility = facility).
Proof.
  unfold simplify_facility.
  destruct (str_contains "Kepler" facility) eqn:H1;
    [cbn; split; [reflexivity|left; tauto]|].
  destruct (str_contains "K2" facility) eqn:H2;
    [cbn; split; [reflexivity|left; tauto]|].
  destruct (str_contains "TESS" facility) eqn:H3;
    [cbn; split; [reflexivity|left; tauto]|].
  destruct (str_contains "HARPS" facility) eqn:H4;
    [cbn; split; [reflexivity|left; tauto]|].
  rewrite H1, H2, H3, H4. auto.
Qed.

(** The counters of the loop that do not depend on how a missing key is
    told from [None]. *)
Lemma validate_planet_counts st p :
  let s := st_stats st in
  let s' := st_stats (validate_planet st p) in
  let kept := negb (period_missing p) in
  total s' = total s
  /\ with_mass s' = bump (kept && opt_truthy (mass p)) (with_mass s)
  /\ with_radius s' = bump (kept && opt_truthy (radius p)) (with_radius s)
  /\ with_temperature s' = bump (kept && opt_truthy (temperature p)) (with_temperature s)
  /\ with_narrative s'
     = bump (kept && bool_decide (_narrative p <> None)) (with_narrative s).
Proof.
  unfold validate_planet, period_missing, opt_truthy, float_truthy.
  destruct (period p) as [f|]; cbn.
  - destruct (f =? 0)%float; cbn; repeat split; reflexivity.
  - repeat split; reflexivity.
Qed.

Lemma fold_validate_counts planets : forall st,
  let s := st_stats st in
  let s' := st_stats (fold_left validate_planet planets st) in
  let valid := List.filter (fun p => negb (period_missing p)) planets in
  total s' = total s
  /\ with_mass s'
     = (with_mass s + length (List.filter (fun p => opt_truthy (mass p)) valid))%nat
  /\ with_radius s'
     = (with_radius s + length (List.filter (fun p => opt_truthy (radius p)) valid))%nat
  /\ with_temperature s'
     = (with_temperature s
        + length (List.filter (fun p => opt_truthy (temperature p)) valid))%nat
  /\ with_narrative s'
     = (with_narrative s
        + length (List.filter (fun p => bool_decide (_narrative p <> None)) valid))%nat.
Proof.
  induction planets as [|p planets IH]; intros st; cbn [fold_left].
  - cbn. repeat split; lia.
  - destruct (IH (validate_planet st p)) as (Ht & Hm & Hr & Hte & Hn).
    destruct (validate_planet_counts st p) as (Ht1 & Hm1 & Hr1 & Hte1 & Hn1).
    cbn zeta. rewrite Ht, Hm, Hr, Hte, Hn, Ht1, Hm1, Hr1, Hte1, Hn1.
    cbn [List.filter]. unfold bump.
    destruct (period_missing p); cbn [negb andb List.filter];
      [repeat split; lia|].
    destruct (opt_truthy (mass p)), (opt_truthy (radius p)),
      (opt_truthy (temperature p)), (bool_decide (_narrative p <> None));
      cbn [length]; repeat split; lia.
Qed.

(** X21.  The Finalizer's counters: [total] is the number of planets read,
    and every planet read is either in the validated list or named in the
    issues list; [with_mass], [with_radius] and [with_temperature] count
    the validated planets whose value is present and not zero (a mass of
    0.0 is not counted), and [with_narrative] those with a narrative; none
    exceeds the number of validated planets. *)
Theorem finalizer_counters (planets : list planet) :
  let final := generate_final planets in
  let s := st_stats final in
  total s = length planets
  /\ total s = (length (valid_planets final) + length (issues final))%nat
  /\ with_mass s
     = length (List.filter (fun p => opt_truthy (mass p)) (valid_planets final))
  /\ with_radius s
     = length (List.filter (fun p => opt_truthy (radius p)) (valid_planets final))
  /\ with_temperature s
     = length (List.filter (fun p => opt_truthy (temperature p)) (valid_planets final))
  /\ with_narrative s
     = length (List.filter (fun p => bool_decide (_narrative p <> None))
                           (valid_planets final))
  /\ (with_mass s <= length (valid_planets final))%nat
  /\ (with_radius s <= length (valid_planets final))%nat
  /\ (with_temperature s <= length (valid_planets final))%nat
  /\ (with_narrative s <= length (valid_planets final))%nat.
Proof.
  cbn zeta. destruct (generate_final_lists planets) as [Hv Hi]. rewrite Hv, Hi.
  unfold generate_final.
  destruct (fold_validate_counts planets (initial planets)) as (Ht & Hm & Hr & Hte & Hn).
  cbn zeta in Ht, Hm, Hr, Hte, Hn. rewrite Ht, Hm, Hr, Hte, Hn. cbn.
  rewrite length_map.
  assert (Hsplit : (length (List.filter (fun p => negb (period_missing p)) planets)
                    + length (List.filter period_missing planets) = length planets)%nat).
  { clear. induction planets as [|p planets IH]; cbn; [reflexivity|].
    destruct (period_missing p); cbn; lia. }
  repeat split; try lia; apply List.filter_length_le.
Qed.

End FinalizerMore.

(** ** The four steps, one after the other *)

Section WholePipeline.
Context {RT : Runtime}.

Lemma filter_partition_length {A : Type} (f : A -> bool) (l : list A) :
  (length (List.filter f l) + length (List.filter (fun a => negb (f a)) l)
   = length l)%nat.
Proof.
  induction l as [|a l IH]; cbn; [reflexivity|]. destruct (f a); cbn; lia.
Qed.

(** What each step hands over, when it ends normally. *)
Lemma extract_defaults_written raw st1 msgs :
  ExtractDefaults.extract_defaults raw = Ok (st1, msgs) ->
  ExtractDefaults.written st1 = List.filter survives raw
  /\ Forall (fun row => is_Some (row !! "pl_name")) (ExtractDefaults.written st1).
Proof.
  unfold ExtractDefaults.extract_defaults.
  destruct (for_rows ExtractDefaults.filter_row ExtractDefaults.initial raw)
    as [st0|] eqn:Hloop; [|discriminate].
  cbn [mbind result_bind]. intros [= <- _].
  assert (Hnames : Forall (fun row => survives row = true -> is_Some (row !! "pl_name")) raw).
  { assert (Hex : exists st', for_rows ExtractDefaults.filter_row
                                ExtractDefaults.initial raw = Ok st') by eauto.
    apply for_rows_filter_runs in Hex.
    eapply List.Forall_impl; [|exact Hex]. cbn. intros row H Hs. apply H. exact Hs. }
  apply for_rows_filter_inv in Hloop as (_ & _ & _ & Hw & _). cbn in Hw.
  split; [exact Hw|]. rewrite Hw. apply List.Forall_forall.
  intros row [Hin Hs]%filter_In. rewrite List.Forall_forall in Hnames. auto.
Qed.

Lemma select_and_clean_written rows st2 :
  SelectAndClean.select_and_clean rows = Ok st2 ->
  (SelectAndClean.missing_period (SelectAndClean.st_stats st2)
   + length (SelectAndClean.written st2) = length rows)%nat
  /\ Forall2 (fun row c => exists sep ty, c = out_row_of row sep ty)
             (List.filter has_period rows) (SelectAndClean.written st2).
Proof.
  unfold SelectAndClean.select_and_clean. intros Hrun.
  destruct (for_rows_clean_full rows _ _ Hrun) as (cs & Hw & Hcs & _).
  apply for_rows_clean_inv in Hrun as (_ & Hmp & _).
  cbn in Hw, Hmp. subst cs. split.
  - rewrite Hmp, <- (Forall2_length _ _ _ Hcs).
    pose proof (filter_partition_length has_period rows). lia.
  - eapply Forall2_impl; [exact Hcs|]. cbn. intros row c (sep & ty & _ & _ & ->). eauto.
Qed.

Lemma enrich_narrative_planets nd rows st3 :
  enrich_narrative nd rows = Ok st3 ->
  exists built,
    Forall2 (fun row p => build_planet nd row = Ok p) rows built
    /\ Permutation (planets st3) built.
Proof.
  unfold enrich_narrative. intros Hrun.
  destruct (for_rows (enrich_row nd) _ rows) as [st|] eqn:Hloop; [|discriminate].
  cbn [mbind result_bind] in Hrun. injection Hrun as <-. cbn [planets].
  apply for_rows_enrich_inv in Hloop as (built & Hw & Hb). cbn in Hw. subst built.
  exists (planets st). split; [exact Hb|apply py_sort_perm].
Qed.

Lemma generate_final_split enriched :
  let final := GenerateFinal.generate_final enriched in
  GenerateFinal.total (GenerateFinal.st_stats final) = length enriched
  /\ (length (GenerateFinal.valid_planets final) + length (GenerateFinal.issues final)
      = length enriched)%nat.
Proof.
  cbn zeta. destruct (generate_final_lists enriched) as [Hv Hi]. rewrite Hv, Hi.
  unfold GenerateFinal.generate_final.
  destruct (fold_validate_counts enriched (GenerateFinal.initial enriched)) as (Ht & _).
  cbn zeta in Ht. rewrite Ht, length_map. split; [reflexivity|].
  pose proof (filter_partition_length period_missing enriched). lia.
Qed.

(** The stations of a run that ends normally. *)
Lemma pipeline_inv nd raw final :
  pipeline nd raw = Ok final ->
  exists st1 msgs st2 st3,
    ExtractDefaults.extract_defaults raw = Ok (st1, msgs)
    /\ SelectAndClean.select_and_clean (ExtractDefaults.written st1) = Ok st2
    /\ enrich_narrative nd (map SelectAndClean.csv_row (SelectAndClean.written st2))
       = Ok st3
    /\ final = GenerateFinal.generate_final (planets st3).
Proof.
  unfold pipeline. intros H.
  destruct (ExtractDefaults.extract_defaults raw) as [[st1 msgs]|] eqn:H1;
    cbn [mbind result_bind] in H; [|discriminate H].
  destruct (SelectAndClean.select_and_clean _) as [st2|] eqn:H2;
    cbn [mbind result_bind] in H; [|discriminate H].
  destruct (enrich_narrative nd _) as [st3|] eqn:H3;
    cbn [mbind result_bind] in H; [|discriminate H].
  injection H as <-. exists st1, msgs, st2, st3. auto.
Qed.

(** X22.  In a run of the whole pipeline that ends normally every row of
    the raw catalog is accounted for once: it is refused by the Selector
    (not a default row, or controversial), or skipped by step 2 for its
    missing period, or reported by the Finalizer as an issue, or it is in
    the final list.  Between step 2 and step 4 no record is dropped or
    added. *)
Theorem every_raw_row_is_accounted_for nd raw final :
  pipeline nd raw = Ok final ->
  exists st1 msgs st2,
    ExtractDefaults.extract_defaults raw = Ok (st1, msgs)
    /\ SelectAndClean.select_and_clean (ExtractDefaults.written st1) = Ok st2
    /\ length raw
       = (length (List.filter (fun row => negb (survives row)) raw)
          + SelectAndClean.missing_period (SelectAndClean.st_stats st2)
          + length (GenerateFinal.issues final)
          + length (GenerateFinal.valid_planets final))%nat
    /\ GenerateFinal.total (GenerateFinal.st_stats final)
       = length (SelectAndClean.written st2).
Proof.
  intros Hrun. apply pipeline_inv in Hrun as (st1 & msgs & st2 & st3 & H1 & H2 & H3 & ->).
  exists st1, msgs, st2. split; [exact H1|]. split; [exact H2|].
  destruct (extract_defaults_written _ _ _ H1) as [Hw1 _].
  destruct (select_and_clean_written _ _ H2) as [Hw2 _].
  destruct (enrich_narrative_planets _ _ _ H3) as (built & Hb & Hperm).
  apply Forall2_length in Hb. rewrite length_map in Hb.
  apply Permutation_length in Hperm.
  destruct (generate_final_split (planets st3)) as (Ht & Hsplit). cbn zeta in Ht, Hsplit.
  pose proof (filter_partition_length survives raw) as Hpart.
  rewrite <- Hw1 in Hpart. split; lia.
Qed.




End WholePipeline.

(** ** Counters kept in order *)

Import PyFormat PyCounter.

Section OrderedCounters.
Context {K : Type} `{EqDecision K}.

(** The sum of the counts. *)
Fixpoint weight (c : list (K * nat)) : nat :=
  match c with
  | [] => 0
  | kn :: c' => kn.2 + weight c'
  end.

Lemma ordered_add_count (k q : K) (n : nat) (c : list (K * nat)) :
  count_of q (ordered_add k n c)
  = (count_of q c + if decide (q = k) then n else 0)%nat.
Proof.
  induction c as [|[k' m] c IH]; cbn [ordered_add count_of].
  - destruct (decide (q = k)); lia.
  - destruct (decide (k = k')) as [->|Hne]; cbn [count_of].
    + destruct (decide (q = k')); lia.
    + destruct (decide (q = k')) as [->|Hq].
      * destruct (decide (k' = k)); [congruence|lia].
      * exact IH.
Qed.

Lemma ordered_add_weight (k : K) (n : nat) (c : list (K * nat)) :
  weight (ordered_add k n c) = (weight c + n)%nat.
Proof.
  induction c as [|[k' m] c IH]; cbn [ordered_add weight snd].
  - lia.
  - destruct (decide (k = k')); cbn [weight snd]; lia.
Qed.

Lemma in_le_weight (k : K) (n : nat) (c : list (K * nat)) :
  In (k, n) c -> (n <= weight c)%nat.
Proof.
  induction c as [|[k' m] c IH]; cbn [In weight snd]; [contradiction|].
  intros [[= -> ->]|Hin]; [lia|]. apply IH in Hin. lia.
Qed.

Lemma ordered_add_keys (k q : K) (n : nat) (c : list (K * nat)) :
  In q (map fst (ordered_add k n c)) <-> q = k \/ In q (map fst c).
Proof.
  induction c as [|[k' m] c IH]; cbn [ordered_add map fst In].
  - intuition.
  - destruct (decide (k = k')) as [->|Hne]; cbn [map fst In].
    + intuition.
    + rewrite IH. intuition.
Qed.

Lemma ordered_add_nodup (k : K) (n : nat) (c : list (K * nat)) :
  List.NoDup (map fst c) -> List.NoDup (map fst (ordered_add k n c)).
Proof.
  induction c as [|[k' m] c IH]; cbn [ordered_add map fst].
  - intros _. constructor; [intros []|constructor].
  - intros Hnd. inversion Hnd as [|? ? Hk' Hc]; subst.
    destruct (decide (k = k')) as [->|Hne]; cbn [map fst].
    + constructor; assumption.
    + constructor; [|apply IH; exact Hc].
      rewrite ordered_add_keys. intros [E|Hin]; [congruence|contradiction].
Qed.

Lemma count_of_absent (q : K) (c : list (K * nat)) :
  ~ In q (map fst c) -> count_of q c = 0%nat.
Proof.
  induction c as [|[k' m] c IH]; cbn [count_of map fst In]; [reflexivity|].
  intros Hn. destruct (decide (q = k')) as [->|_]; [exfalso; auto|]. apply IH. auto.
Qed.

End OrderedCounters.

(** ** Step 4: the report *)

Section Report.
Import GenerateFinal.

(** A percentage of a count within a positive total is computed without
    an exception. *)
Lemma percent_ok (count total : nat) :
  (0 < total)%nat -> (count <= total)%nat -> exists pct, percent count total = Ok pct.
Proof.
  intros Hpos Hle. unfold percent, int_true_div.
  destruct (Z.eqb_spec (Z.of_nat total) 0) as [E|_]; [lia|].
  destruct (Z.leb_spec ((2 ^ 1024 - 2 ^ 970) * Z.abs (Z.of_nat total))
                       (Z.abs (100 * Z.of_nat count))) as [H|_].
  { exfalso. rewrite !Z.abs_eq in H by lia.
    assert (H100 : (100 < 2 ^ 1024 - 2 ^ 970)%Z) by (vm_compute; reflexivity).
    nia. }
  destruct (Z.abs (100 * Z.of_nat count)); cbn [mbind result_bind]; eauto.
Qed.

Lemma percent_of_nothing (count : nat) : percent count 0 = Raise ZeroDivisionError.
Proof. reflexivity. Qed.

Lemma percent_row_ok total md (row : option string * nat) :
  (0 < total)%nat -> (row.2 <= total)%nat -> exists md', percent_row total md row = Ok md'.
Proof.
  intros Hpos Hrow. unfold percent_row.
  destruct (percent_ok row.2 total Hpos Hrow) as [pct ->]. cbn [mbind result_bind]. eauto.
Qed.

Lemma percent_rows_ok total rows : forall md,
  (0 < total)%nat -> Forall (fun row : option string * nat => (row.2 <= total)%nat) rows ->
  exists md', for_rows (percent_row total) md rows = Ok md'.
Proof.
  induction rows as [|row rows IH]; intros md Hpos Hall; cbn [for_rows]; [eauto|].
  inversion Hall as [|? ? Hrow Hrest]; subst.
  destruct (percent_row_ok total md row Hpos Hrow) as [md' ->].
  cbn [mbind result_bind]. apply IH; assumption.
Qed.

(** The planets the loop counts. *)
Definition counted (planets : list planet) : list planet :=
  List.filter (fun p => negb (period_missing p)) planets.

Lemma tally_planet_inv t p :
  tally_planet t p
  = if period_missing p then t
    else {| methods_seen := ordered_add (detectionMethod p) 1 (methods_seen t);
            types_seen := ordered_add (planetType p) 1 (types_seen t);
            years_seen := ordered_add (discoveryYear p) 1 (years_seen t);
            facilities_seen :=
              if str_truthy (facility p)
              then ordered_add (simplify_facility (default "" (facility p))) 1
                               (facilities_seen t)
              else facilities_seen t |}.
Proof.
  unfold tally_planet, period_missing, opt_truthy, float_truthy.
  destruct (period p) as [f|]; [|reflexivity]. destruct (f =? 0)%float; reflexivity.
Qed.

(** The loop invariant of the ordered counters: the weights of the method
    and type counters, and the years counter in full. *)
Lemma fold_tally planets : forall t,
  let t' := fold_left tally_planet planets t in
  weight (methods_seen t') = (weight (methods_seen t) + length (counted planets))%nat
  /\ weight (types_seen t') = (weight (types_seen t) + length (counted planets))%nat
  /\ (List.NoDup (map fst (years_seen t)) -> List.NoDup (map fst (years_seen t')))
  /\ (forall y, count_of y (years_seen t')
                = (count_of y (years_seen t)
                   + length (List.filter (fun p => bool_decide (discoveryYear p = y))
                                         (counted planets)))%nat)
  /\ (forall y, In y (map fst (years_seen t'))
                <-> In y (map fst (years_seen t))
                    \/ exists p, In p (counted planets) /\ discoveryYear p = y).
Proof.
  unfold counted.
  induction planets as [|p planets IH]; intros t; cbn [fold_left].
  - cbn. repeat split; try lia; auto. intros [H|(p & [] & _)]. exact H.
  - destruct (IH (tally_planet t p)) as (Hm & Hty & Hnd & Hc & Hk).
    cbn zeta. rewrite Hm, Hty. cbn [List.filter]. rewrite tally_planet_inv in *.
    destruct (period_missing p) eqn:Hp; cbn [negb].
    + repeat split; auto; apply Hk.
    + cbn [methods_seen types_seen years_seen] in *.
      rewrite !ordered_add_weight. cbn [length].
      split; [lia|]. split; [lia|]. split; [|split].
      * intros H. apply Hnd. apply ordered_add_nodup. exact H.
      * intros y. rewrite Hc, ordered_add_count. cbn [List.filter].
        destruct (decide (y = discoveryYear p)) as [->|Hne].
        -- rewrite bool_decide_eq_true_2 by reflexivity. cbn [length]. lia.
        -- rewrite bool_decide_eq_false_2 by congruence. lia.
      * intros y. rewrite Hk, ordered_add_keys. cbn [In]. split.
        -- intros [[->|H]|(q & Hq & Hy)]; eauto 6.
        -- intros [H|(q & [<-|Hq] & Hy)]; eauto.
Qed.

Lemma most_common_counts {K : Type} `{EqDecision K} (c : list (K * nat)) (bound : nat) :
  (weight c <= bound)%nat ->
  Forall (fun row : K * nat => (row.2 <= bound)%nat) (most_common c).
Proof.
  intros Hw. apply List.Forall_forall. intros [k n] Hin.
  apply (Permutation_in _ (py_sort_perm _ _ c)) in Hin.
  apply in_le_weight in Hin. cbn. lia.
Qed.

(** X24.  The text of [STATS.md] is made without an exception exactly when
    at least one planet was read: on an empty list of planets the script
    stops with [ZeroDivisionError], a percentage of a total of zero, and
    with planets to read it raises nothing, also when every one of them is
    refused.  [exoplanets.json] is written before that, with the validated
    planets and their number. *)
Theorem report_needs_a_planet (today generated : string) (planets : list planet) :
  match stats_report generated planets with
  | Ok _ => planets <> []
  | Raise e => planets = [] /\ e = ZeroDivisionError
  end
  /\ snd (fst (write_files today generated planets)) = counted planets
  /\ planetCount (fst (fst (write_files today generated planets)))
     = length (counted planets).
Proof.
  split.
  2:{ unfold write_files, output_metadata, counted. cbn.
      destruct (generate_final_lists planets) as [-> _]. split; reflexivity. }
  destruct planets as [|p ps]; [vm_compute; auto|].
  set (planets := p :: ps).
  assert (Hpos : (0 < length planets)%nat) by (cbn; lia).
  unfold stats_report.
  destruct (generate_final_lists planets) as [Hv _].
  destruct (fold_validate_counts planets (initial planets)) as (Ht & Hm & Hr & Hte & _).
  cbn zeta in Ht, Hm, Hr, Hte. fold (generate_final planets) in Ht, Hm, Hr, Hte.
  change (total (st_stats (initial planets))) with (length planets) in Ht.
  change (with_mass (st_stats (initial planets))) with 0%nat in Hm.
  change (with_radius (st_stats (initial planets))) with 0%nat in Hr.
  change (with_temperature (st_stats (initial planets))) with 0%nat in Hte.
  pose proof (List.filter_length_le (fun p => negb (period_missing p)) planets) as Hc.
  fold (counted planets) in Hc.
  assert (Hf : forall f, (length (List.filter f (List.filter
                             (fun p => negb (period_missing p)) planets))
                          <= length planets)%nat).
  { intros f. etransitivity; [apply List.filter_length_le|exact Hc]. }
  rewrite Ht.
  destruct (percent_ok (with_mass (st_stats (generate_final planets))) (length planets))
    as [pm ->]; [exact Hpos|rewrite Hm; apply Hf|].
  destruct (percent_ok (with_radius (st_stats (generate_final planets))) (length planets))
    as [pr ->]; [exact Hpos|rewrite Hr; apply Hf|].
  destruct (percent_ok (with_temperature (st_stats (generate_final planets)))
              (length planets)) as [pt ->]; [exact Hpos|rewrite Hte; apply Hf|].
  cbn [mbind result_bind].
  destruct (fold_tally planets
              {| methods_seen := []; types_seen := []; years_seen := [];
                 facilities_seen := [] |}) as (Hwm & Hwt & _).
  cbn zeta in Hwm, Hwt. fold (tally planets) in Hwm, Hwt. cbn [weight methods_seen types_seen] in Hwm, Hwt.
  match goal with
  | |- context [for_rows (percent_row ?n) ?md (most_common (methods_seen ?t))] =>
      destruct (percent_rows_ok n (most_common (methods_seen t)) md) as [md1 ->];
        [exact Hpos|apply most_common_counts; lia|]
  end.
  cbn [mbind result_bind].
  match goal with
  | |- context [for_rows (percent_row ?n) ?md (most_common (types_seen ?t))] =>
      destruct (percent_rows_ok n (most_common (types_seen t)) md) as [md2 ->];
        [exact Hpos|apply most_common_counts; lia|]
  end.
  cbn [mbind result_bind]. discriminate.
Qed.

(** The counters kept in order hold the counts of the counters of
    [generate_final]. *)
Definition same_counts (t : tables) (s : stats) : Prop :=
  (forall k, count_of k (methods_seen t) = default 0%nat (detection_methods s !! k))
  /\ (forall k, count_of k (types_seen t) = default 0%nat (planet_types s !! k))
  /\ (forall k, count_of k (years_seen t) = default 0%nat (discovery_years s !! k))
  /\ (forall k, count_of k (facilities_seen t) = default 0%nat (facilities s !! k)).

Lemma ordered_add_one {K : Type} `{Countable K} (k q : K) (c : list (K * nat))
  (m : gmap K nat) :
  count_of q c = default 0%nat (m !! q) ->
  count_of q (ordered_add k 1 c) = default 0%nat (counter_incr k m !! q).
Proof.
  intros E. rewrite ordered_add_count, counter_incr_lookup, E. unfold bump.
  destruct (decide (q = k)) as [->|Hne].
  - rewrite bool_decide_eq_true_2 by reflexivity. lia.
  - rewrite bool_decide_eq_false_2 by congruence. lia.
Qed.

Lemma tally_agrees_with_stats planets : forall t st,
  same_counts t (st_stats st) ->
  same_counts (fold_left tally_planet planets t)
              (st_stats (fold_left validate_planet planets st)).
Proof.
  induction planets as [|p planets IH]; intros t st Hsame; cbn [fold_left]; [exact Hsame|].
  apply IH. destruct Hsame as (Hm & Hty & Hy & Hf).
  unfold tally_planet, validate_planet.
  destruct (negb (opt_truthy (period p))); [repeat split; assumption|].
  cbn [st_stats methods_seen types_seen years_seen facilities_seen
       detection_methods planet_types discovery_years facilities].
  repeat split; intros k; try (apply ordered_add_one; auto).
  destruct (str_truthy (facility p)); [apply ordered_add_one|]; auto.
Qed.

(** The decade of a year, as line 167 computes it, is the multiple of ten
    at or below the year. *)
Lemma decade_of_year (y d : Z) :
  (y / 10 * 10 = d)%Z <-> (d mod 10 = 0)%Z /\ (d <= y < d + 10)%Z.
Proof.
  pose proof (Z.div_mod y 10 ltac:(lia)) as Hy.
  pose proof (Z.mod_pos_bound y 10 ltac:(lia)) as Hb.
  split.
  - intros <-. split; [apply Z.mod_mul; lia|lia].
  - intros [Hm [Hlo Hhi]].
    pose proof (Z.div_mod d 10 ltac:(lia)) as Hd. rewrite Hm in Hd.
    assert (y / 10 = d / 10)%Z; [|lia].
    symmetry. apply (Z.div_unique y 10 (d / 10) (y - d)); lia.
Qed.

(** A planet counted under the decade [d]. *)
Definition in_decade (d : Z) (p : planet) : bool :=
  match discoveryYear p with
  | Some y => (d <=? y)%Z && (y <? d + 10)%Z
  | None => false
  end.

(** The counts of a years counter that fall in the decade [d]. *)
Fixpoint decade_weight (d : Z) (years : list (option Z * nat)) : nat :=
  match years with
  | [] => 0
  | (Some y, n) :: years' =>
      ((if decide (y / 10 * 10 = d)%Z then n else 0) + decade_weight d years')%nat
  | (None, _) :: years' => decade_weight d years'
  end.

Definition decade_step (dc : list (Z * nat)) (yc : option Z * nat) : list (Z * nat) :=
  match yc.1 with
  | Some year => ordered_add (year / 10 * 10)%Z yc.2 dc
  | None => dc
  end.

Lemma fold_decade_step years : forall dc d,
  count_of d (fold_left decade_step years dc)
  = (count_of d dc + decade_weight d years)%nat
  /\ (List.NoDup (map fst dc) -> List.NoDup (map fst (fold_left decade_step years dc)))
  /\ (In d (map fst (fold_left decade_step years dc))
      <-> In d (map fst dc)
          \/ exists y, In (Some y) (map fst years) /\ (y / 10 * 10 = d)%Z).
Proof.
  induction years as [|[[y|] n] years IH]; intros dc d; cbn [fold_left decade_weight].
  - split; [lia|]. split; [auto|]. cbn. split; [auto|]. intros [H|(y & [] & _)]. exact H.
  - destruct (IH (decade_step dc (Some y, n)) d) as (Hc & Hnd & Hk).
    change (decade_step dc (Some y, n)) with (ordered_add (y / 10 * 10)%Z n dc) in *.
    rewrite Hc, ordered_add_count. split; [|split].
    + destruct (decide (d = y / 10 * 10)%Z), (decide (y / 10 * 10 = d)%Z);
        try congruence; lia.
    + intros H. apply Hnd. apply ordered_add_nodup. exact H.
    + rewrite Hk, ordered_add_keys. cbn [map fst In]. split.
      * intros [[->|H]|(y' & Hy' & E)]; eauto 6.
      * intros [H|(y' & [[= ->]|Hy'] & E)]; eauto 6.
  - destruct (IH (decade_step dc (None, n)) d) as (Hc & Hnd & Hk).
    change (decade_step dc (None, n)) with dc in *.
    split; [exact Hc|]. split; [exact Hnd|]. rewrite Hk. cbn [map fst In]. split.
    + intros [H|(y' & Hy' & E)]; eauto 6.
    + intros [H|(y' & [[=]|Hy'] & E)]; eauto 6.
Qed.

Lemma decade_weight_add (d : Z) (k : option Z) (years : list (option Z * nat)) :
  decade_weight d (ordered_add k 1 years)
  = (decade_weight d years
     + match k with
       | Some y => if decide (y / 10 * 10 = d)%Z then 1 else 0
       | None => 0
       end)%nat.
Proof.
  induction years as [|[k' m] years IH]; cbn [ordered_add decade_weight].
  - destruct k as [y|]; cbn [decade_weight]; [destruct (decide _)|]; lia.
  - destruct (decide (k = k')) as [->|Hne].
    + destruct k' as [y|]; cbn [decade_weight]; [destruct (decide _)|]; lia.
    + destruct k' as [y'|]; cbn [decade_weight]; rewrite IH; lia.
Qed.

Lemma fold_tally_decades (d : Z) planets : (d mod 10 = 0)%Z -> forall t,
  decade_weight d (years_seen (fold_left tally_planet planets t))
  = (decade_weight d (years_seen t)
     + length (List.filter (in_decade d) (counted planets)))%nat.
Proof.
  unfold counted. intros Hd t. revert t.
  induction planets as [|p planets IH]; intros t; cbn [fold_left List.filter].
  - cbn. lia.
  - rewrite IH, tally_planet_inv. destruct (period_missing p); cbn [negb]; [reflexivity|].
    cbn [years_seen List.filter]. rewrite decade_weight_add. unfold in_decade at 2.
    destruct (discoveryYear p) as [y|]; [|lia].
    destruct (decide (y / 10 * 10 = d)%Z) as [E|E].
    + apply decade_of_year in E as [_ [H1 H2]].
      apply Z.leb_le in H1. apply Z.ltb_lt in H2. rewrite H1, H2. cbn [andb length]. lia.
    + destruct ((d <=? y)%Z && (y <? d + 10)%Z) eqn:Hin; [|lia].
      apply andb_prop in Hin as [H1 H2]. apply Z.leb_le in H1. apply Z.ltb_lt in H2.
      exfalso. apply E. apply decade_of_year. auto.
Qed.

Lemma sorted_nodup_strict (l : list Z) :
  StronglySorted (fun a b => Z.ltb b a = false) l -> List.NoDup l ->
  StronglySorted Z.lt l.
Proof.
  induction 1 as [|a l Hl IH Ha]; intros Hnd; constructor.
  - apply IH. inversion Hnd; assumption.
  - inversion Hnd as [|? ? Hnin _]; subst.
    rewrite List.Forall_forall in *. intros b Hb. specialize (Ha b Hb).
    apply Z.ltb_ge in Ha. destruct (Z.eq_dec a b) as [->|Hne]; [contradiction|lia].
Qed.

(** X25.  The "Discovery Timeline" of the report has one row for each
    decade in which a validated planet was discovered, in ascending order:
    a decade is a multiple of ten, it stands for the years from it to nine
    years after it (also before the year zero, where the division rounds
    down), and its count is the number of validated planets discovered in
    those years.  Planets without a discovery year are in no row. *)
Theorem discovery_timeline_counts_by_decade (planets : list planet) :
  let valid := valid_planets (generate_final planets) in
  let dc := decade_counts (years_seen (tally planets)) in
  StronglySorted Z.lt (decades dc)
  /\ (forall d,
        In d (decades dc)
        <-> (d mod 10 = 0)%Z /\ exists p, In p valid /\ in_decade d p = true)
  /\ (forall d,
        (d mod 10 = 0)%Z ->
        count_of d dc = length (List.filter (in_decade d) valid)).
Proof.
  cbn zeta. destruct (generate_final_lists planets) as [-> _].
  fold (counted planets).
  set (t0 := {| methods_seen := []; types_seen := []; years_seen := [];
                facilities_seen := [] |}).
  assert (Htally : tally planets = fold_left tally_planet planets t0) by reflexivity.
  destruct (fold_tally planets t0) as (_ & _ & Hnd & _ & Hk). cbn zeta in Hnd, Hk.
  rewrite <- Htally in Hnd, Hk.
  change (decade_counts (years_seen (tally planets)))
    with (fold_left decade_step (years_seen (tally planets)) []).
  set (dc := fold_left decade_step (years_seen (tally planets)) []).
  assert (Hdc : forall d,
            count_of d dc = decade_weight d (years_seen (tally planets))
            /\ (In d (map fst dc)
                <-> exists y, In (Some y) (map fst (years_seen (tally planets)))
                              /\ (y / 10 * 10 = d)%Z)).
  { intros d. destruct (fold_decade_step (years_seen (tally planets)) [] d)
      as (Hc & _ & Hin).
    fold dc in Hc, Hin. split; [exact Hc|]. rewrite Hin. cbn. intuition. }
  assert (Hnd_dc : List.NoDup (map fst dc)).
  { destruct (fold_decade_step (years_seen (tally planets)) [] 0%Z) as (_ & H & _).
    apply H. constructor. }
  pose proof (py_sort_perm Z.ltb (fun d : Z => d) (map fst dc)) as Hperm.
  fold (decades dc) in Hperm.
  split; [|split].
  - apply sorted_nodup_strict.
    + apply (py_sort_sorted Z.ltb (fun d : Z => d)).
      * intros x y Hxy. apply Z.ltb_lt in Hxy. apply Z.ltb_ge. lia.
      * intros x y z Hyx Hzy. apply Z.ltb_ge in Hyx, Hzy. apply Z.ltb_ge. lia.
    + eapply Permutation_NoDup; [symmetry; exact Hperm|exact Hnd_dc].
  - intros d. split.
    + intros Hin. apply (Permutation_in _ Hperm) in Hin.
      apply Hdc in Hin as (y & Hy & E).
      apply Hk in Hy as [[]|(p & Hp & Hyear)].
      apply decade_of_year in E as [Hm [H1 H2]]. split; [exact Hm|].
      exists p. split; [exact Hp|]. unfold in_decade. rewrite Hyear.
      apply andb_true_intro. split; [apply Z.leb_le|apply Z.ltb_lt]; lia.
    + intros (Hm & p & Hp & Hin).
      apply (Permutation_in _ (Permutation_sym Hperm)). apply Hdc.
      unfold in_decade in Hin. destruct (discoveryYear p) as [y|] eqn:Hyear;
        [|discriminate].
      apply andb_prop in Hin as [H1 H2]. apply Z.leb_le in H1. apply Z.ltb_lt in H2.
      exists y. split; [apply Hk; right; eauto|]. apply decade_of_year. auto.
  - intros d Hm. destruct (Hdc d) as [-> _].
    rewrite Htally, (fold_tally_decades d planets Hm t0). reflexivity.
Qed.

End Report.

(** ** The final list *)

Lemma strongly_sorted_filter {A : Type} (R : A -> A -> Prop) (f : A -> bool) (l : list A) :
  StronglySorted R l -> StronglySorted R (List.filter f l).
Proof.
  induction 1 as [|a l Hl IH Ha]; cbn; [constructor|].
  destruct (f a); [|exact IH]. constructor; [exact IH|].
  rewrite List.Forall_forall in *. intros b [Hb _]%filter_In. auto.
Qed.





Section FinalList.
Context {RT : Runtime}.


(** X26.  In a run of the whole pipeline that ends normally the final list
    is in the order of the Enricher's sort: the keys (discovery year, or
    9999 for none or zero; then name) ascend along it, since the Finalizer
    only leaves planets out. *)
Theorem final_list_keeps_the_sort_order nd raw final :
  pipeline nd raw = Ok final ->
  StronglySorted (not_after key_lt sort_key) (GenerateFinal.valid_planets final)
  /\ (Forall year_in_range (GenerateFinal.valid_planets final) ->
      StronglySorted spec_before (GenerateFinal.valid_planets final)).
Proof.
  intros Hrun. apply pipeline_inv in Hrun as (st1 & msgs & st2 & st3 & _ & _ & H3 & ->).
  destruct (generate_final_lists (planets st3)) as [-> _].
  assert (Hsorted : StronglySorted (not_after key_lt sort_key)
                      (List.filter (fun p => negb (period_missing p)) (planets st3))).
  { apply strongly_sorted_filter. revert H3. unfold enrich_narrative.
    destruct (for_rows (enrich_row nd) _ _) as [st|]; [|discriminate].
    cbn [mbind result_bind]. intros [= <-]. cbn [planets].
    apply py_sort_sorted; [exact key_lt_asym|exact key_not_lt_trans]. }
  split; [exact Hsorted|].
  intros Hrange. rewrite List.Forall_forall in Hrange.
  eapply StronglySorted_impl_in; [|exact Hsorted].
  intros a b Ha Hb. apply not_after_spec_before; auto.
Qed.


End FinalList.

(** ** The further properties on the reference runtime *)

(** The outcome of step 1 on [raw_example]. *)
Definition raw_example_outcome
  : ExtractDefaults.state * list ExtractDefaults.message :=
  value_or (ExtractDefaults.initial, [])
    (ExtractDefaults.extract_defaults (RT := RefRuntime.ref) raw_example).

Lemma raw_example_run :
  ExtractDefaults.extract_defaults (RT := RefRuntime.ref) raw_example
  = Ok (raw_example_outcome.1, raw_example_outcome.2).
Proof. vm_compute. reflexivity. Qed.

(** X1 on [raw_example]. *)
Lemma selector_counters_witness :
  ExtractDefaults.extract_defaults (RT := RefRuntime.ref) raw_example
  = Ok (raw_example_outcome.1, raw_example_outcome.2)
  /\ ExtractDefaults.rows_total raw_example_outcome.1 = length raw_example
  /\ ExtractDefaults.rows_default raw_example_outcome.1
     = length (List.filter is_default raw_example)
  /\ ExtractDefaults.rows_output raw_example_outcome.1
     = length (ExtractDefaults.written raw_example_outcome.1)
  /\ (ExtractDefaults.rows_output raw_example_outcome.1
      <= ExtractDefaults.rows_default raw_example_outcome.1
      <= ExtractDefaults.rows_total raw_example_outcome.1)%nat
  /\ (size (ExtractDefaults.planet_names raw_example_outcome.1)
      <= ExtractDefaults.rows_output raw_example_outcome.1)%nat.
Proof.
  split; [exact raw_example_run|].
  exact (selector_counters (RT := RefRuntime.ref) raw_example _ _ raw_example_run).
Defined.



(** On [raw_example] the first written row is a transit and the other has
    no method column. *)
Example raw_example_methods :
  map (fun m => default 0%nat
                  (ExtractDefaults.discovery_methods raw_example_outcome.1 !! m))
      ["Transit"; "Unknown"; "Imaging"]
  = [1; 1; 0]%nat.
Proof. vm_compute. reflexivity. Qed.

(** X5 on [catalog_example]. *)
Lemma normalizer_counters_witness :
  SelectAndClean.select_and_clean (RT := RefRuntime.ref) catalog_example
  = Ok catalog_example_state
  /\ SelectAndClean.total (SelectAndClean.st_stats catalog_example_state)
     = length catalog_example
  /\ length (SelectAndClean.written catalog_example_state)
     = (SelectAndClean.total (SelectAndClean.st_stats catalog_example_state)
        - SelectAndClean.missing_period (SelectAndClean.st_stats catalog_example_state))%nat
  /\ SelectAndClean.missing_mass (SelectAndClean.st_stats catalog_example_state)
     = length (List.filter (fun c => bool_decide (SelectAndClean.mass c = None))
                           (SelectAndClean.written catalog_example_state))
  /\ SelectAndClean.missing_radius (SelectAndClean.st_stats catalog_example_state)
     = length (List.filter (fun c => bool_decide (SelectAndClean.radius c = None))
                           (SelectAndClean.written catalog_example_state))
  /\ (SelectAndClean.calculated_separation (SelectAndClean.st_stats catalog_example_state)
      <= length (SelectAndClean.written catalog_example_state))%nat.
Proof.
  split; [exact catalog_example_run|].
  exact (normalizer_counters (RT := RefRuntime.ref) catalog_example _ catalog_example_run).
Defined.

(** X6 on [catalog_example]. *)
Lemma normalizer_tallies_witness :
  SelectAndClean.select_and_clean (RT := RefRuntime.ref) catalog_example
  = Ok catalog_example_state
  /\ (forall m,
        default 0%nat (SelectAndClean.detection_methods catalog_example_state !! m)
        = length (List.filter
                    (fun c => bool_decide (SelectAndClean.detectionMethod c = m))
                    (SelectAndClean.written catalog_example_state)))
  /\ (forall ty,
        default 0%nat (SelectAndClean.planet_types catalog_example_state !! ty)
        = length (List.filter
                    (fun c => bool_decide (SelectAndClean.planetType c = ty))
                    (SelectAndClean.written catalog_example_state))).
Proof.
  split; [exact catalog_example_run|].
  exact (normalizer_tallies (RT := RefRuntime.ref) catalog_example _ catalog_example_run).
Defined.

(** The counters of step 2 on [catalog_example]. *)
Example catalog_example_counters :
  (let s := SelectAndClean.st_stats catalog_example_state in
   (SelectAndClean.total s, SelectAndClean.missing_period s, SelectAndClean.missing_mass s,
    SelectAndClean.missing_radius s, SelectAndClean.calculated_separation s))
  = (4, 1, 2, 1, 1)%nat.
Proof. vm_compute. reflexivity. Qed.

(** X9 for a planet of 75 Earth masses, 3 Earth radii and a period of 50
    days. *)
Lemma classification_of_a_mass_from_ten_witness :
  (10 <=? 75)%float = true
  /\ SelectAndClean.classify_planet (RT := RefRuntime.ref)
       (Some 75%float) (Some 3%float) (Some 50%float)
     = Ok (if (100 <? 75)%float
           then (if SelectAndClean.period_below (Some 50%float) 10
                 then "hot-jupiter" else "cold-jupiter")
           else if (75 <? 50)%float then "neptune-like" else "sub-neptune").
Proof.
  split; [reflexivity|].
  apply (classification_of_a_mass_from_ten (RT := RefRuntime.ref) 75
           (Some 3%float) (Some 50%float)).
  reflexivity.
Defined.

(** A planet of the mass of Saturn is a [sub-neptune], whatever its
    radius. *)
Example saturn_mass_is_sub_neptune :
  map (fun r => SelectAndClean.classify_planet (RT := RefRuntime.ref)
                  (Some 95.2%float) r (Some 10759%float))
      [None; Some 9.1%float; Some 3%float]
  = map Ok ["sub-neptune"; "sub-neptune"; "sub-neptune"].
Proof. vm_compute. reflexivity. Qed.

(** X12 on [catalog_example]. *)
Lemma parsed_numbers_are_never_nan_witness :
  SelectAndClean.select_and_clean (RT := RefRuntime.ref) catalog_example
  = Ok catalog_example_state
  /\ Forall (fun c => Forall (fun x => forall f, x = Some f -> is_nan f = false)
                             (parsed_numbers c))
            (SelectAndClean.written catalog_example_state).
Proof.
  split; [exact catalog_example_run|].
  exact (parsed_numbers_are_never_nan (RT := RefRuntime.ref) catalog_example _
           catalog_example_run).
Defined.

(** X13 on [catalog_example]. *)
Lemma written_records_have_a_separation_witness :
  SelectAndClean.select_and_clean (RT := RefRuntime.ref) catalog_example
  = Ok catalog_example_state
  /\ Forall2 (fun row c =>
                SelectAndClean.separation c <> None
                /\ (forall a,
                      SelectAndClean.parse_float (RT := RefRuntime.ref)
                        (row !! "pl_orbsmax") = Some a ->
                      SelectAndClean.separation c = Some (PFloat a))
                /\ (SelectAndClean.parse_float (RT := RefRuntime.ref)
                      (row !! "pl_orbsmax") = None ->
                    exists days star_mass a,
                      period_of (RT := RefRuntime.ref) row = Some days
                      /\ kepler_separation (RT := RefRuntime.ref) days star_mass = Ok a
                      /\ SelectAndClean.separation c = Some a))
             (List.filter (has_period (RT := RefRuntime.ref)) catalog_example)
             (SelectAndClean.written catalog_example_state).
Proof.
  split; [exact catalog_example_run|].
  exact (written_records_have_a_separation (RT := RefRuntime.ref) catalog_example _
           catalog_example_run).
Defined.

(** A derived separation can be a NaN, though no parsed number is: a
    period of zero with a star mass read as infinite. *)
Example derived_separation_can_be_nan :
  (st ← SelectAndClean.clean_row (RT := RefRuntime.ref) SelectAndClean.initial
          (list_to_map [("pl_name", "Odd b"); ("pl_orbper", "0"); ("st_mass", "inf")]);
   Ok (map (fun c => SelectAndClean.num_cell (RT := RefRuntime.ref)
                       (SelectAndClean.separation c))
           (SelectAndClean.written st)))
  = Ok ["nan"].
Proof. vm_compute. reflexivity. Qed.

(** *** Step 3 *)

(** A narrative file with an entry for "Gamma" and one for a planet that is
    not in the catalog. *)
Definition narrative_example : gmap string narrative_entry :=
  list_to_map
    [ ("Gamma", {| entry_isNotable := Some true;
                   entry_notableReason := Some "first of its kind";
                   entry_description := None; entry_sources := None |});
      ("Omega", {| entry_isNotable := None; entry_notableReason := None;
                   entry_description := None; entry_sources := None |}) ].

Definition noted_example_state : EnrichNarrative.state :=
  value_or {| planets := []; notable_count := 0 |}
    (enrich_narrative (RT := RefRuntime.ref) narrative_example years_example).

Lemma noted_example_run :
  enrich_narrative (RT := RefRuntime.ref) narrative_example years_example
  = Ok noted_example_state.
Proof. vm_compute. reflexivity. Qed.

(** X16 on [years_example]. *)
Lemma enricher_keeps_the_order_of_equal_keys_witness :
  enrich_narrative (RT := RefRuntime.ref) narrative_example years_example
  = Ok noted_example_state
  /\ exists built,
       Forall2 (fun row p => build_planet (RT := RefRuntime.ref) narrative_example row = Ok p)
               years_example built
       /\ forall k,
            List.filter (fun p => bool_decide (sort_key p = k)) (planets noted_example_state)
            = List.filter (fun p => bool_decide (sort_key p = k)) built.
Proof.
  split; [exact noted_example_run|].
  exact (enricher_keeps_the_order_of_equal_keys (RT := RefRuntime.ref) narrative_example
           years_example _ noted_example_run).
Defined.

(** X17 on [years_example] with [narrative_example]. *)
Lemma enricher_counts_the_planets_with_a_narrative_witness :
  enrich_narrative (RT := RefRuntime.ref) narrative_example years_example
  = Ok noted_example_state
  /\ length (planets noted_example_state) = length years_example
  /\ Forall (fun p => _narrative p <> None <-> is_Some (narrative_example !! name p))
            (planets noted_example_state)
  /\ notable_count noted_example_state
     = length (List.filter (fun p => bool_decide (_narrative p <> None))
                           (planets noted_example_state)).
Proof.
  split; [exact noted_example_run|].
  exact (enricher_counts_the_planets_with_a_narrative (RT := RefRuntime.ref)
           narrative_example years_example _ noted_example_run).
Defined.

Example noted_example_narratives :
  (notable_count noted_example_state,
   map (fun p => (name p, isNotable <$> _narrative p, sources <$> _narrative p))
       (planets noted_example_state))
  = (1%nat,
     [("Gamma", Some true, Some []); ("Alpha2", None, None); ("Beta", None, None);
      ("Alpha", None, None)]).
Proof. vm_compute. reflexivity. Qed.

(** Two records of the same year and name stay in the order of their rows. *)
Example equal_keys_keep_their_order :
  (st ← enrich_narrative (RT := RefRuntime.ref) ∅
          [ list_to_map [("name", "B"); ("hostStar", "second"); ("discoveryYear", "2001")];
            list_to_map [("name", "A"); ("hostStar", "first"); ("discoveryYear", "2001")];
            list_to_map [("name", "A"); ("hostStar", "third"); ("discoveryYear", "2001")] ];
   Ok (map hostStar (planets st)))
  = Ok ["first"; "third"; "second"].
Proof. vm_compute. reflexivity. Qed.

(** The record step 2 writes for [twin_row]. *)
Definition twin_record : SelectAndClean.clean_record :=
  out_row_of (RT := RefRuntime.ref) twin_row (Some (PFloat 1)) "rocky".

Lemma twin_record_written : SelectAndClean.written twin_state = [twin_record].
Proof. vm_compute. reflexivity. Qed.

(** X19 on [twin_record]. *)
Lemma enricher_reads_back_a_cleaned_record_witness :
  Forall (reads_back (RT := RefRuntime.ref)) (parsed_numbers twin_record)
  /\ SelectAndClean.separation twin_record = Some (PFloat 1)
  /\ reads_back (RT := RefRuntime.ref) (Some 1%float)
  /\ parse_value (RT := RefRuntime.ref)
       (Some (SelectAndClean.discoveryYear twin_record)) FInt = Ok (Some 1995%Z)
  /\ exists p,
       build_planet (RT := RefRuntime.ref) ∅
         (SelectAndClean.csv_row (RT := RefRuntime.ref) twin_record) = Ok p
       /\ EnrichNarrative.name p = SelectAndClean.name twin_record
       /\ EnrichNarrative.hostStar p = SelectAndClean.hostStar twin_record
       /\ planet_numbers p = parsed_numbers twin_record
       /\ EnrichNarrative.separation p = Some 1%float
       /\ EnrichNarrative.discoveryYear p = Some 1995%Z
       /\ [EnrichNarrative.massProvenance p; EnrichNarrative.detectionMethod p;
           EnrichNarrative.facility p; EnrichNarrative.starSpectralType p;
           EnrichNarrative.planetType p]
          = map text_or_none
              [SelectAndClean.massProvenance twin_record;
               SelectAndClean.detectionMethod twin_record;
               SelectAndClean.facility twin_record;
               SelectAndClean.starSpectralType twin_record;
               SelectAndClean.planetType twin_record]
       /\ _observed p
          = {| obs_period := bool_decide (SelectAndClean.period twin_record <> None);
               obs_mass := bool_decide (SelectAndClean.mass twin_record <> None);
               obs_radius := bool_decide (SelectAndClean.radius twin_record <> None);
               obs_temperature :=
                 bool_decide (SelectAndClean.temperature twin_record <> None);
               obs_separation := true |}.
Proof.
  assert (H1 : Forall (reads_back (RT := RefRuntime.ref)) (parsed_numbers twin_record)).
  { repeat constructor; vm_compute; repeat split; try reflexivity; discriminate. }
  assert (H2 : SelectAndClean.separation twin_record = Some (PFloat 1)) by reflexivity.
  assert (H3 : reads_back (RT := RefRuntime.ref) (Some 1%float)).
  { vm_compute. repeat split; try reflexivity; discriminate. }
  assert (H4 : parse_value (RT := RefRuntime.ref)
                 (Some (SelectAndClean.discoveryYear twin_record)) FInt
               = Ok (Some 1995%Z)) by (vm_compute; reflexivity).
  split; [exact H1|]. split; [exact H2|]. split; [exact H3|]. split; [exact H4|].
  exact (enricher_reads_back_a_cleaned_record (RT := RefRuntime.ref)
           twin_record ∅ 1 (Some 1995%Z) H1 H2 H3 H4).
Defined.

(** *** The whole pipeline *)

(** A raw catalog: a default row; another parameter set of the same planet;
    a controversial planet; a planet without a period; a planet whose
    separation is not given; and a planet whose period is zero. *)
Definition survey_example : list (gmap string string) :=
  [ list_to_map [("pl_name", "Kepler-22 b"); ("hostname", "Kepler-22");
                 ("default_flag", "1"); ("pl_controv_flag", "0");
                 ("pl_orbper", "289.8623"); ("pl_orbsmax", "0.849");
                 ("pl_rade", "2.38"); ("pl_bmasse", ""); ("st_mass", "0.97");
                 ("discoverymethod", "Transit"); ("disc_facility", "Kepler");
                 ("disc_year", "2011")];
    list_to_map [("pl_name", "Kepler-22 b"); ("hostname", "Kepler-22");
                 ("default_flag", "0"); ("pl_controv_flag", "0");
                 ("pl_orbper", "289.9"); ("disc_year", "2011")];
    list_to_map [("pl_name", "Doubt b"); ("hostname", "Doubt");
                 ("default_flag", "1"); ("pl_controv_flag", "1");
                 ("pl_orbper", "12.5"); ("disc_year", "2003")];
    list_to_map [("pl_name", "OGLE-2016-BLG-1928L b"); ("hostname", "OGLE-2016-BLG-1928L");
                 ("default_flag", "1"); ("pl_controv_flag", "0");
                 ("pl_orbper", ""); ("pl_orbsmax", ""); ("pl_bmasse", "0.3");
                 ("discoverymethod", "Microlensing"); ("disc_year", "2020")];
    list_to_map [("pl_name", "Twin b"); ("hostname", "Twin");
                 ("default_flag", "1"); ("pl_controv_flag", "0");
                 ("pl_orbper", "365.25"); ("pl_orbsmax", ""); ("pl_rade", "");
                 ("pl_bmasse", "1.0"); ("st_mass", "");
                 ("discoverymethod", "Radial Velocity"); ("disc_year", "1995")];
    list_to_map [("pl_name", "Null b"); ("hostname", "Null");
                 ("default_flag", "1"); ("pl_controv_flag", "0");
                 ("pl_orbper", "0"); ("pl_orbsmax", "0.05"); ("pl_rade", "1.2");
                 ("pl_bmasse", ""); ("discoverymethod", "Transit");
                 ("disc_facility", "TESS"); ("disc_year", "2021")] ].

Definition survey_final : GenerateFinal.state :=
  value_or (GenerateFinal.initial [])
    (pipeline (RT := RefRuntime.ref) ∅ survey_example).

Lemma survey_run : pipeline (RT := RefRuntime.ref) ∅ survey_example = Ok survey_final.
Proof. vm_compute. reflexivity. Qed.

Example survey_example_outcome :
  (map name (GenerateFinal.valid_planets survey_final), GenerateFinal.issues survey_final)
  = (["Twin b"; "Kepler-22 b"], ["Null b: missing period"]).
Proof. vm_compute. reflexivity. Qed.

(** X22 on [survey_example]: six rows, of which two are refused by the
    Selector, one has no period, one is reported and two are final. *)
Lemma every_raw_row_is_accounted_for_witness :
  pipeline (RT := RefRuntime.ref) ∅ survey_example = Ok survey_final
  /\ exists st1 msgs st2,
       ExtractDefaults.extract_defaults (RT := RefRuntime.ref) survey_example
       = Ok (st1, msgs)
       /\ SelectAndClean.select_and_clean (RT := RefRuntime.ref)
            (ExtractDefaults.written st1) = Ok st2
       /\ length survey_example
          = (length (List.filter (fun row => negb (survives row)) survey_example)
             + SelectAndClean.missing_period (SelectAndClean.st_stats st2)
             + length (GenerateFinal.issues survey_final)
             + length (GenerateFinal.valid_planets survey_final))%nat
       /\ GenerateFinal.total (GenerateFinal.st_stats survey_final)
          = length (SelectAndClean.written st2).
Proof.
  split; [exact survey_run|].
  exact (every_raw_row_is_accounted_for (RT := RefRuntime.ref) ∅ survey_example _
           survey_run).
Defined.


(** X11 for a planet of 3 Earth radii without a mass. *)
Lemma classifier_answers_one_of_eight_types_witness :
  SelectAndClean.classify_planet (RT := RefRuntime.ref) None (Some 3%float) (Some 50%float)
  = Ok "neptune-like"
  /\ In "neptune-like" planet_type_names.
Proof.
  assert (H : SelectAndClean.classify_planet (RT := RefRuntime.ref)
                None (Some 3%float) (Some 50%float) = Ok "neptune-like")
    by (vm_compute; reflexivity).
  split; [exact H|].
  exact (classifier_answers_one_of_eight_types (RT := RefRuntime.ref) _ _ _ _ H).
Defined.



(** X26 on [survey_example]. *)
Lemma final_list_keeps_the_sort_order_witness :
  pipeline (RT := RefRuntime.ref) ∅ survey_example = Ok survey_final
  /\ StronglySorted (not_after key_lt sort_key) (GenerateFinal.valid_planets survey_final)
  /\ (Forall year_in_range (GenerateFinal.valid_planets survey_final) ->
      StronglySorted spec_before (GenerateFinal.valid_planets survey_final)).
Proof.
  split; [exact survey_run|].
  exact (final_list_keeps_the_sort_order (RT := RefRuntime.ref) ∅ survey_example _
           survey_run).
Defined.


(** *** The report *)

(** The formats of the report on a few numbers. *)
Example number_formats :
  map format_commas [0; 999; 1000; 1234567; -1234]%Z
  = ["0"; "999"; "1,000"; "1,234,567"; "-1,234"]
  /\ map format_f1 [0.25; 0.35; 0.75; 33.333333333333336; 99.95; 100]%float
     = ["0.2"; "0.3"; "0.8"; "33.3"; "100.0"; "100.0"]
  /\ map (fun ab => x ← int_true_div ab.1 ab.2; Ok (format_f1 x))
         [(100, 3); (200, 3); (700, 7)]%Z
     = map Ok ["33.3"; "66.7"; "100.0"]
  /\ int_true_div 0 0 = Raise ZeroDivisionError.
Proof. vm_compute. repeat split; reflexivity. Qed.

(** The planet objects step 3 makes for [catalog_example]. *)
Definition catalog_example_planets : list planet :=
  value_or []
    (enriched ← enrich_narrative (RT := RefRuntime.ref) ∅
                  (map (SelectAndClean.csv_row (RT := RefRuntime.ref))
                       (SelectAndClean.written catalog_example_state));
     Ok (planets enriched)).

(** [STATS.md] for [catalog_example]: three planets are read, and "Null b"
    is refused; the percentages are of the three. *)
Example catalog_example_report :
  GenerateFinal.stats_report "2025-12-27 09:30:00" catalog_example_planets
  = Ok (GenerateFinal.unlines
          [ "# Exoplanet Dataset Statistics";
            "";
            "Generated: 2025-12-27 09:30:00";
            "";
            "## Overview";
            "";
            "| Metric | Count |";
            "|--------|-------|";
            "| Total planets | 3 |";
            "| With mass measurement | 1 (33.3%) |";
            "| With radius measurement | 1 (33.3%) |";
            "| With temperature estimate | 0 (0.0%) |";
            "| With narrative description | 0 |";
            "";
            "## Detection Methods";
            "";
            "| Method | Count | Percentage |";
            "|--------|-------|------------|";
            "| radial-velocity | 1 | 33.3% |";
            "| transit-kepler | 1 | 33.3% |";
            "";
            "## Planet Types";
            "";
            "| Type | Count | Percentage |";
            "|------|-------|------------|";
            "| rocky | 1 | 33.3% |";
            "| neptune-like | 1 | 33.3% |";
            "";
            "## Top Discovery Facilities";
            "";
            "| Facility | Count |";
            "|----------|-------|";
            "| Kepler | 1 |";
            "";
            "## Discovery Timeline";
            "";
            "| Decade | Count |";
            "|--------|-------|";
            "| 1990s | 1 |";
            "| 2010s | 1 |";
            "";
            "## Data Issues";
            "";
            "1 planets excluded:";
            "";
            "- Null b: missing period" ]).
Proof. vm_compute. reflexivity. Qed.

(** With no planet to read, [exoplanets.json] is written with a planet
    count of zero and the script stops before [STATS.md]. *)
Example no_planets_no_report :
  (let files := GenerateFinal.write_files "2025-12-27" "2025-12-27 09:30:00" [] in
   (GenerateFinal.planetCount (fst (fst files)), snd (fst files), snd files))
  = (0%nat, [], Raise ZeroDivisionError).
Proof. vm_compute. reflexivity. Qed.

(** Years before the year zero fall in the decade below them. *)
Example decades_round_down :
  map (fun y => (y / 10 * 10)%Z) [1995; 2010; 2019; 0; -1; -10; -11]%Z
  = [1990; 2010; 2010; 0; -10; -10; -20]%Z.
Proof. reflexivity. Qed.
